(** * PanelBase extension managers: a shallow embedding

    The Go packages [configuration], [themes], [plugins] and [commands] are
    embedded as Rocq functions over an explicit world (disk, state files,
    network, clock, random source), threaded through a state-and-error
    monad.  Library calls whose code is not part of the repository (URL and
    YAML parsing, SHA-256, path arithmetic) are the fields of the class
    [Externals]; everything proved below holds for every instance of it. *)

From Stdlib Require Import String Ascii ZArith List Bool Lia.
From stdpp Require Import base option gmap strings list fin_maps sorting pretty.

Local Open Scope string_scope.
Local Open Scope Z_scope.

(* ================================================================== *)
(** ** Byte strings *)
(* ================================================================== *)

(** A Go [string] is a sequence of bytes; so is a Rocq [string]. *)

Definition byte (c : ascii) : Z := Z.of_N (N_of_ascii c).

Definition len (s : string) : Z := Z.of_nat (String.length s).

Definition between (lo hi x : Z) : bool := (lo <=? x) && (x <=? hi).

(** [strings.HasPrefix]. *)
Definition HasPrefix (s p : string) : bool := String.prefix p s.

(** [strings.ContainsAny s chars] for a set [chars] of ASCII characters: an
    ASCII byte never occurs inside a multi-byte UTF-8 sequence, so the test
    is a test on bytes. *)
Fixpoint ContainsAny (s : string) (chars : list ascii) : bool :=
  match s with
  | EmptyString => false
  | String c r => bool_decide (c ∈ chars) || ContainsAny r chars
  end.

(** The path separators the managers look for: [os.PathSeparator], ['/'] and
    ['\\'] (on every platform the first is one of the other two). *)
Definition pathSeparators : list ascii := ["/"%char; "\"%char].

(** [strings.TrimSpace(s) == ""]: the string consists of Unicode white space
    only (U+0009..U+000D, U+0020, U+0085, U+00A0, U+1680, U+2000..U+200A,
    U+2028, U+2029, U+202F, U+205F, U+3000, in their UTF-8 encodings). *)
Fixpoint isBlank (s : string) : bool :=
  match s with
  | EmptyString => true
  | String c0 r0 =>
    let b0 := byte c0 in
    if between 9 13 b0 || (b0 =? 32) then isBlank r0
    else match r0 with
    | String c1 r1 =>
      let b1 := byte c1 in
      if (b0 =? 194) && ((b1 =? 133) || (b1 =? 160)) then isBlank r1
      else match r1 with
      | String c2 r2 =>
        let b2 := byte c2 in
        if ((b0 =? 225) && (b1 =? 154) && (b2 =? 128))
           || ((b0 =? 226) && (b1 =? 128)
               && (between 128 138 b2 || (b2 =? 168) || (b2 =? 169) || (b2 =? 175)))
           || ((b0 =? 226) && (b1 =? 129) && (b2 =? 159))
           || ((b0 =? 227) && (b1 =? 128) && (b2 =? 128))
        then isBlank r2 else false
      | EmptyString => false
      end
    | EmptyString => false
    end
  end.

(** ASCII lower-casing.  [strings.ToLower] is Unicode-aware, but no rune
    outside ASCII lowers to a hexadecimal digit and malformed bytes become
    U+FFFD, so for the one use below (matching [^[a-f0-9]{64}$] against the
    lowered string) the two agree on every input. *)
Definition lowerByte (c : ascii) : ascii :=
  if between 65 90 (byte c) then ascii_of_N (N_of_ascii c + 32) else c.

Fixpoint ToLower (s : string) : string :=
  match s with
  | EmptyString => EmptyString
  | String c r => String (lowerByte c) (ToLower r)
  end.

Definition isLowerHex (c : ascii) : bool :=
  between 48 57 (byte c) || between 97 102 (byte c).

Definition isHex (c : ascii) : bool :=
  isLowerHex c || between 65 70 (byte c).

Fixpoint allBytes (p : ascii → bool) (s : string) : bool :=
  match s with
  | EmptyString => true
  | String c r => p c && allBytes p r
  end.

(** [regexp.MatchString("^[a-f0-9]{64}$", s)]. *)
Definition matchSHA256Pattern (s : string) : bool :=
  (len s =? 64) && allBytes isLowerHex s.

(** Sixty-four hexadecimal digits of either case. *)
Definition isHex64 (s : string) : bool :=
  (len s =? 64) && allBytes isHex s.

(** The first [n] bytes of [s]. *)
Fixpoint takeBytes (n : Z) (s : string) : string :=
  match s with
  | EmptyString => EmptyString
  | String c r => if n <=? 0 then EmptyString else String c (takeBytes (n - 1) r)
  end.

(** What [encoding/json] writes for a Go string: the string coerced to valid
    UTF-8, each byte that does not start a well-formed sequence replaced by
    U+FFFD (EF BF BD).  The tests on the leading and second byte are those
    of [utf8.DecodeRuneInString]. *)
Definition cont (b : Z) : bool := between 128 191 b.

Definition replacement : string :=
  String (ascii_of_N 239) (String (ascii_of_N 191) (String (ascii_of_N 189) EmptyString)).

Definition ok2 (b0 b1 : Z) : bool := between 194 223 b0 && cont b1.

Definition ok3 (b0 b1 b2 : Z) : bool :=
  (((b0 =? 224) && between 160 191 b1)
   || ((between 225 236 b0 || between 238 239 b0) && cont b1)
   || ((b0 =? 237) && between 128 159 b1)) && cont b2.

Definition ok4 (b0 b1 b2 b3 : Z) : bool :=
  (((b0 =? 240) && between 144 191 b1)
   || (between 241 243 b0 && cont b1)
   || ((b0 =? 244) && between 128 143 b1)) && cont b2 && cont b3.

Fixpoint toValidUTF8 (s : string) : string :=
  match s with
  | EmptyString => EmptyString
  | String c0 r0 =>
    if byte c0 <? 128 then String c0 (toValidUTF8 r0)
    else match r0 with
    | EmptyString => replacement
    | String c1 r1 =>
      if ok2 (byte c0) (byte c1) then String c0 (String c1 (toValidUTF8 r1))
      else match r1 with
      | EmptyString => replacement +:+ toValidUTF8 r0
      | String c2 r2 =>
        if ok3 (byte c0) (byte c1) (byte c2)
        then String c0 (String c1 (String c2 (toValidUTF8 r2)))
        else match r2 with
        | EmptyString => replacement +:+ toValidUTF8 r0
        | String c3 r3 =>
          if ok4 (byte c0) (byte c1) (byte c2) (byte c3)
          then String c0 (String c1 (String c2 (String c3 (toValidUTF8 r3))))
          else replacement +:+ toValidUTF8 r0
        end
      end
    end
  end.

(** [utf8.ValidString]: coercion leaves the string as it is. *)
Definition ValidUTF8 (s : string) : Prop := toValidUTF8 s = s.

(** The order of Go's [<] on strings: byte-wise lexicographic. *)
Definition string_lt (a b : string) : bool := String.ltb a b.
Definition string_le (a b : string) : Prop := String.leb a b = true.

Global Instance string_le_dec a b : Decision (string_le a b).
Proof. unfold string_le. apply _. Defined.

(* ================================================================== *)
(** ** More of package strings *)
(* ================================================================== *)

(** [strings.TrimSpace]: the white space runes at the head of the string
    are dropped, one after the other, and then those at its tail.  The runes
    are those of [isBlank]; a byte that does not begin the encoding of one
    of them stops the trimming. *)
Fixpoint TrimLeftSpace (s : string) : string :=
  match s with
  | EmptyString => EmptyString
  | String c0 r0 =>
    let b0 := byte c0 in
    if between 9 13 b0 || (b0 =? 32) then TrimLeftSpace r0
    else match r0 with
    | String c1 r1 =>
      let b1 := byte c1 in
      if (b0 =? 194) && ((b1 =? 133) || (b1 =? 160)) then TrimLeftSpace r1
      else match r1 with
      | String c2 r2 =>
        let b2 := byte c2 in
        if ((b0 =? 225) && (b1 =? 154) && (b2 =? 128))
           || ((b0 =? 226) && (b1 =? 128)
               && (between 128 138 b2 || (b2 =? 168) || (b2 =? 169) || (b2 =? 175)))
           || ((b0 =? 226) && (b1 =? 129) && (b2 =? 159))
           || ((b0 =? 227) && (b1 =? 128) && (b2 =? 128))
        then TrimLeftSpace r2 else s
      | EmptyString => s
      end
    | EmptyString => s
    end
  end.

(** The string without its longest tail of white space runes. *)
Fixpoint TrimRightSpace (s : string) : string :=
  match s with
  | EmptyString => EmptyString
  | String c r => if isBlank s then EmptyString else String c (TrimRightSpace r)
  end.

Definition TrimSpace (s : string) : string := TrimRightSpace (TrimLeftSpace s).

(** [strings.Split(s, sep)] for a separator of one byte: the pieces between
    the separators, of which there is always at least one. *)
Fixpoint Split (sep : ascii) (s : string) : list string :=
  match s with
  | EmptyString => [EmptyString]
  | String c r =>
    if Ascii.eqb c sep then EmptyString :: Split sep r
    else match Split sep r with
         | h :: t => String c h :: t
         | [] => [String c EmptyString]
         end
  end.

(** [strings.SplitN(s, sep, 2)] for a separator of one byte: the string cut
    at the first separator, or the string alone when it has none. *)
Fixpoint cut (sep : ascii) (s : string) : option (string * string) :=
  match s with
  | EmptyString => None
  | String c r =>
    if Ascii.eqb c sep then Some (EmptyString, r)
    else match cut sep r with
         | Some (a, b) => Some (String c a, b)
         | None => None
         end
  end.

Definition SplitN2 (sep : ascii) (s : string) : list string :=
  match cut sep s with
  | Some (a, b) => [a; b]
  | None => [s]
  end.

(** [strings.TrimPrefix]. *)
Fixpoint dropBytes (n : nat) (s : string) : string :=
  match n, s with
  | S n, String _ r => dropBytes n r
  | _, _ => s
  end.

Definition TrimPrefix (s p : string) : string :=
  if HasPrefix s p then dropBytes (String.length p) s else s.

(** [strings.Join]. *)
Fixpoint Join (l : list string) (sep : string) : string :=
  match l with
  | [] => EmptyString
  | [x] => x
  | x :: rest => x +:+ sep +:+ Join rest sep
  end.

(* ================================================================== *)
(** ** JSON documents *)
(* ================================================================== *)

(** The value denoted by a JSON text.  The textual layer (escaping, white
    space, indentation) is [encoding/json]'s; the repository only chooses
    which Go values are marshalled and into which types they are decoded. *)
#[warnings="-register-all"]
Inductive JSON :=
| JNull
| JBool (b : bool)
| JNumber (literal : string)
| JString (s : string)
| JArray (items : list JSON)
| JObject (members : list (string * JSON)).

Class ToJSON (A : Type) := toJSON : A → JSON.
Class FromJSON (A : Type) := fromJSON : JSON → option A.
Global Hint Mode ToJSON ! : typeclass_instances.
Global Hint Mode FromJSON ! : typeclass_instances.

(** A Go map value: [None] is the nil map. *)
Definition GoMap (V : Type) : Type := option (gmap string V).

Definition mapGet {V} (m : GoMap V) (k : string) : option V :=
  match m with Some g => g !! k | None => None end.

Definition mapDelete {V} (m : GoMap V) (k : string) : GoMap V :=
  match m with Some g => Some (delete k g) | None => None end.

Global Instance string_toJSON : ToJSON string := λ s, JString (toValidUTF8 s).

(** Map keys are written sorted; values by their own encoder. *)
Definition membersOf {V} `{ToJSON V} (g : gmap string V) : list (string * JSON) :=
  (λ kv, (toValidUTF8 kv.1, toJSON kv.2))
    <$> merge_sort (λ a b : string * V, string_le a.1 b.1) (map_to_list g).

Global Instance gmap_toJSON {V} `{ToJSON V} : ToJSON (gmap string V) :=
  λ g, JObject (membersOf g).

Global Instance GoMap_toJSON {V} `{ToJSON V} : ToJSON (GoMap V) := λ m,
  match m with None => JNull | Some g => toJSON g end.

(** Decoding an object into a map: every member is decoded, a later member
    with the same key replaces an earlier one, the first failure fails the
    whole call. *)
Fixpoint decodeMembers {V} `{FromJSON V} (acc : gmap string V)
    (members : list (string * JSON)) : option (gmap string V) :=
  match members with
  | [] => Some acc
  | (k, j) :: rest =>
    match fromJSON j with
    | Some v => decodeMembers (<[k := v]> acc) rest
    | None => None
    end
  end.

(** [json.Unmarshal] into a map variable holding [init]: [null] makes the
    variable nil, an object fills the map (allocating it when nil). *)
Definition unmarshalMap {V} `{FromJSON V} (init : GoMap V) (j : JSON) : option (GoMap V) :=
  match j with
  | JNull => Some None
  | JObject members => Some <$> decodeMembers (default ∅ init) members
  | _ => None
  end.

Global Instance GoMap_fromJSON {V} `{FromJSON V} : FromJSON (GoMap V) :=
  unmarshalMap None.

(** Struct fields are found by name, ignoring case: ASCII letters, and the
    two non-ASCII runes that fold to ASCII letters (U+212A to k, U+017F to
    s). *)
Fixpoint foldName (s : string) : string :=
  match s with
  | EmptyString => EmptyString
  | String c0 r0 =>
    match r0 with
    | String c1 r1 =>
      if (byte c0 =? 197) && (byte c1 =? 191) then String "s" (foldName r1)
      else match r1 with
      | String c2 r2 =>
        if (byte c0 =? 226) && (byte c1 =? 132) && (byte c2 =? 170)
        then String "k" (foldName r2)
        else String (lowerByte c0) (foldName r0)
      | EmptyString => String (lowerByte c0) (foldName r0)
      end
    | EmptyString => String (lowerByte c0) EmptyString
    end
  end.

(** Decoding an object into a struct whose fields are all strings:
    [fields] gives, for each JSON name, how the field is set. *)
Fixpoint decodeStruct {T} (fields : list (string * (string → T → T))) (acc : T)
    (members : list (string * JSON)) : option T :=
  match members with
  | [] => Some acc
  | (k, j) :: rest =>
    match list_find (λ f, f.1 = foldName k) fields with
    | None => decodeStruct fields acc rest
    | Some (_, (_, set)) =>
      match j with
      | JString s => decodeStruct fields (set s acc) rest
      | JNull => decodeStruct fields acc rest
      | _ => None
      end
    end
  end.

(** A [json:"name,omitempty"] string field. *)
Definition omitempty (name value : string) : list (string * JSON) :=
  if decide (value = "") then [] else [(name, toJSON value)].

(* ================================================================== *)
(** ** Data model *)
(* ================================================================== *)

Module AuthorDetail.
Record t := mk { Name : string; Email : string; URL : string }.
End AuthorDetail.

Module AssetDetail.
Record t := mk { URL : string; Sum : string }.
End AssetDetail.

(** A [map[string]interface{}] as produced by the YAML decoder or by the
    directory scan, and the dynamic values it can hold.  The members are
    kept in the order in which a [range] over the map visits them. *)
Inductive Value :=
| VAsset (a : AssetDetail.t)
| VMap (m : Structure)
| VString (s : string)
| VOther
with Structure :=
| SNil
| SCons (name : string) (item : Value) (rest : Structure).

Scheme Value_mut := Induction for Value Sort Prop
with Structure_mut := Induction for Structure Sort Prop.
Combined Scheme Value_Structure_ind from Value_mut, Structure_mut.

(** [m[key]]. *)
Fixpoint sget (m : Structure) (key : string) : option Value :=
  match m with
  | SNil => None
  | SCons k v rest => if decide (k = key) then Some v else sget rest key
  end.

(** [len(m)]. *)
Fixpoint slen (m : Structure) : Z :=
  match m with
  | SNil => 0
  | SCons _ _ rest => 1 + slen rest
  end.

Fixpoint ofList (l : list (string * Value)) : Structure :=
  match l with
  | [] => SNil
  | (k, v) :: rest => SCons k v (ofList rest)
  end.

Module ThemeMetadata.
Record t := mk {
  Name : string;
  Authors : list AuthorDetail.t;
  Version : string;
  Description : string;
  SourceLink : string;
  Structure : Structure;
  InstalledAt : string;
  LastUpdatedAt : string
}.
Definition withInstalledAt (x : string) (m : t) : t :=
  mk (Name m) (Authors m) (Version m) (Description m) (SourceLink m)
     (Structure m) x (LastUpdatedAt m).
Definition withLastUpdatedAt (x : string) (m : t) : t :=
  mk (Name m) (Authors m) (Version m) (Description m) (SourceLink m)
     (Structure m) (InstalledAt m) x.
End ThemeMetadata.

Module EndpointConfig.
Record t := mk { Methods : list string; Description : string }.
End EndpointConfig.

Module PluginMetadata.
Record t := mk {
  Name : string;
  Authors : list string;
  Version : string;
  Description : string;
  SourceLink : string;
  APIVersion : string;
  Structure : Structure;
  Dependencies : list (string * string);
  Endpoints : list (string * EndpointConfig.t)
}.
End PluginMetadata.

Module CommandMetadata.
Record t := mk {
  Command : string;
  PkgManagers : list string;
  Dependencies : list string;
  Authors : option (list string);   (* [None] is the nil slice *)
  Version : string;
  Description : string;
  SourceLink : string;
  FilePath : string
}.
Definition withFilePath (p : string) (m : t) : t :=
  mk (Command m) (PkgManagers m) (Dependencies m) (Authors m) (Version m)
     (Description m) (SourceLink m) p.

(** [IsValid]. *)
Definition IsValid (m : t) : bool :=
  negb (String.eqb (Command m) "")
  && (0 <? Z.of_nat (length (PkgManagers m)))
  && (match Authors m with Some _ => true | None => false end)
  && negb (String.eqb (Version m) "")
  && negb (String.eqb (Description m) "")
  && negb (String.eqb (SourceLink m) "")
  && negb (String.eqb (FilePath m) "").
End CommandMetadata.

Module InstalledThemeEntry.
Record t := mk {
  ThmID : string;
  Name : string;
  Version : string;
  SourceLink : string;
  InstalledAt : string;
  LastUpdatedAt : string
}.
Definition zero : t := mk "" "" "" "" "" "".
Definition fields : list (string * (string → t → t)) :=
  [ ("thm_id", λ x e, mk x (Name e) (Version e) (SourceLink e) (InstalledAt e) (LastUpdatedAt e));
    ("name", λ x e, mk (ThmID e) x (Version e) (SourceLink e) (InstalledAt e) (LastUpdatedAt e));
    ("version", λ x e, mk (ThmID e) (Name e) x (SourceLink e) (InstalledAt e) (LastUpdatedAt e));
    ("source_link", λ x e, mk (ThmID e) (Name e) (Version e) x (InstalledAt e) (LastUpdatedAt e));
    ("installed_at", λ x e, mk (ThmID e) (Name e) (Version e) (SourceLink e) x (LastUpdatedAt e));
    ("last_updated", λ x e, mk (ThmID e) (Name e) (Version e) (SourceLink e) (InstalledAt e) x) ].
End InstalledThemeEntry.

Module InstalledPluginEntry.
Record t := mk {
  PlgID : string;
  Name : string;
  Version : string;
  SourceLink : string
}.
Definition zero : t := mk "" "" "" "".
Definition fields : list (string * (string → t → t)) :=
  [ ("plg_id", λ x e, mk x (Name e) (Version e) (SourceLink e));
    ("name", λ x e, mk (PlgID e) x (Version e) (SourceLink e));
    ("version", λ x e, mk (PlgID e) (Name e) x (SourceLink e));
    ("source_link", λ x e, mk (PlgID e) (Name e) (Version e) x) ].
End InstalledPluginEntry.

Module InstalledCommandEntry.
Record t := mk {
  Filename : string;
  Name : string;
  Version : string;
  SourceLink : string
}.
Definition zero : t := mk "" "" "" "".
Definition fields : list (string * (string → t → t)) :=
  [ ("filename", λ x e, mk x (Name e) (Version e) (SourceLink e));
    ("name", λ x e, mk (Filename e) x (Version e) (SourceLink e));
    ("version", λ x e, mk (Filename e) (Name e) x (SourceLink e));
    ("source_link", λ x e, mk (Filename e) (Name e) (Version e) x) ].
End InstalledCommandEntry.

(** The struct tags of the three entry types. *)
Global Instance themeEntry_toJSON : ToJSON InstalledThemeEntry.t := λ e,
  JObject ([ ("thm_id", toJSON (InstalledThemeEntry.ThmID e));
             ("name", toJSON (InstalledThemeEntry.Name e));
             ("version", toJSON (InstalledThemeEntry.Version e));
             ("source_link", toJSON (InstalledThemeEntry.SourceLink e)) ]
           ++ omitempty "installed_at" (InstalledThemeEntry.InstalledAt e)
           ++ omitempty "last_updated" (InstalledThemeEntry.LastUpdatedAt e)).

Global Instance pluginEntry_toJSON : ToJSON InstalledPluginEntry.t := λ e,
  JObject [ ("plg_id", toJSON (InstalledPluginEntry.PlgID e));
            ("name", toJSON (InstalledPluginEntry.Name e));
            ("version", toJSON (InstalledPluginEntry.Version e));
            ("source_link", toJSON (InstalledPluginEntry.SourceLink e)) ].

Global Instance commandEntry_toJSON : ToJSON InstalledCommandEntry.t := λ e,
  JObject [ ("filename", toJSON (InstalledCommandEntry.Filename e));
            ("name", toJSON (InstalledCommandEntry.Name e));
            ("version", toJSON (InstalledCommandEntry.Version e));
            ("source_link", toJSON (InstalledCommandEntry.SourceLink e)) ].

Definition unmarshalStruct {T} (fields : list (string * (string → T → T))) (zero : T)
    (j : JSON) : option T :=
  match j with
  | JNull => Some zero
  | JObject members => decodeStruct fields zero members
  | _ => None
  end.

Global Instance themeEntry_fromJSON : FromJSON InstalledThemeEntry.t :=
  unmarshalStruct InstalledThemeEntry.fields InstalledThemeEntry.zero.
Global Instance pluginEntry_fromJSON : FromJSON InstalledPluginEntry.t :=
  unmarshalStruct InstalledPluginEntry.fields InstalledPluginEntry.zero.
Global Instance commandEntry_fromJSON : FromJSON InstalledCommandEntry.t :=
  unmarshalStruct InstalledCommandEntry.fields InstalledCommandEntry.zero.

(* ================================================================== *)
(** ** Errors, events and the world *)
(* ================================================================== *)

(** The calls that leave the process. *)
Inductive Op :=
| OsStat (path : string)
| OsOpen (path : string)
| OsReadFile (path : string)
| OsRead (path : string)            (* reading an open file to its end *)
| OsCreate (path : string)
| OsWrite (path : string)           (* [io.Copy] into a created file *)
| OsClose (path : string)
| OsWriteFile (path : string)
| OsMkdirAll (path : string)
| OsRemove (path : string)
| OsRemoveAll (path : string)
| OsReadDir (path : string)
| HttpGet (url : string)
| HttpRead (url : string)           (* reading a response body *)
| RandRead.                         (* [crypto/rand] *)

(** Go errors.  [Errorf] and [Wrapf] keep the format string of the
    [fmt.Errorf] call and the values printed into it; [Wrapf] is a format
    with [%w] and carries the wrapped error. *)
Inductive Error :=
| Errorf (format : string) (args : list string)
| Wrapf (format : string) (args : list string) (cause : Error)
| PathError (op : Op) (notExist : bool)
| IOError (op : Op)
| SyntaxError (what : string)
| ErrThemeAlreadyExistsNoForce.

(** [os.IsNotExist]. *)
Definition os_IsNotExist (e : Error) : bool :=
  match e with PathError _ true => true | _ => false end.

Inductive Mutex := ThemeManager_mu | PluginManager_mu | CommandManager_mu.

Global Instance Mutex_eq_dec : EqDecision Mutex.
Proof. solve_decision. Defined.

(** How a call ends: with a value, with an error (Go functions may return a
    value next to the error), or not at all. *)
Inductive Stuck := Deadlock (mu : Mutex) | Panic (msg : string).

Inductive Res (A : Type) :=
| Ok (a : A)
| Err (partial : option A) (e : Error)
| Halt (why : Stuck).
Arguments Ok {A} a.
Arguments Err {A} partial e.
Arguments Halt {A} why.

Inductive Event :=
| Call (op : Op)
| Logf (format : string) (args : list string)
| Hashed (path expected actual : string).
  (* a downloaded file's digest: the one declared, the one computed *)

(** What a file holds: raw bytes, or a JSON document written by
    [json.MarshalIndent(v, prefix, indent)]. *)
Inductive FileData :=
| Bytes (b : string)
| JsonText (prefix indent : string) (j : JSON).

Inductive Node := Dir | File (d : FileData).

Module Response.
Record t := mk { StatusCode : Z; Status : string; Body : string }.
End Response.

Record World := mkWorld {
  disk : gmap string Node;          (* the extension trees and local sources *)
  stateFiles : gmap string FileData;(* the documents under configs/ *)
  net : gmap string Response.t;     (* what a GET of a URL answers; absent: transport error *)
  faults : list bool;               (* whether each coming OS call fails *)
  entropy : list (option string);   (* coming results of the random source *)
  now : string;                     (* time.Now().UTC().Format(time.RFC3339) *)
  commandsCache : gmap string CommandMetadata.t;  (* CommandManager.commands *)
  held : list Mutex;
  trace : list Event                (* oldest first *)
}.

Definition setDisk (f : gmap string Node → gmap string Node) (w : World) : World :=
  mkWorld (f (disk w)) (stateFiles w) (net w) (faults w) (entropy w) (now w)
          (commandsCache w) (held w) (trace w).
Definition setStateFiles (f : gmap string FileData → gmap string FileData) (w : World) : World :=
  mkWorld (disk w) (f (stateFiles w)) (net w) (faults w) (entropy w) (now w)
          (commandsCache w) (held w) (trace w).
Definition setFaults (x : list bool) (w : World) : World :=
  mkWorld (disk w) (stateFiles w) (net w) x (entropy w) (now w)
          (commandsCache w) (held w) (trace w).
Definition setEntropy (x : list (option string)) (w : World) : World :=
  mkWorld (disk w) (stateFiles w) (net w) (faults w) x (now w)
          (commandsCache w) (held w) (trace w).
Definition setCommandsCache (x : gmap string CommandMetadata.t) (w : World) : World :=
  mkWorld (disk w) (stateFiles w) (net w) (faults w) (entropy w) (now w)
          x (held w) (trace w).
Definition setHeld (x : list Mutex) (w : World) : World :=
  mkWorld (disk w) (stateFiles w) (net w) (faults w) (entropy w) (now w)
          (commandsCache w) x (trace w).
Definition record (e : Event) (w : World) : World :=
  mkWorld (disk w) (stateFiles w) (net w) (faults w) (entropy w) (now w)
          (commandsCache w) (held w) (trace w ++ [e]).

(** *** The monad *)

Definition M (A : Type) : Type := World → Res A * World.

Definition ret {A} (a : A) : M A := λ w, (Ok a, w).

Definition bind {A B} (m : M A) (k : A → M B) : M B := λ w,
  match m w with
  | (Ok a, w') => k a w'
  | (Err _ e, w') => (Err None e, w')
  | (Halt s, w') => (Halt s, w')
  end.

Definition fail {A} (e : Error) : M A := λ w, (Err None e, w).

(** [return v, err]. *)
Definition failWith {A} (a : A) (e : Error) : M A := λ w, (Err (Some a) e, w).

Definition halt {A} (s : Stuck) : M A := λ w, (Halt s, w).

(** [v, err := m; if err != nil { h err }]. *)
Definition try {A} (m : M A) (h : Error → M A) : M A := λ w,
  match m w with
  | (Err _ e, w') => h e w'
  | r => r
  end.

(** [err := m], the error kept as a value. *)
Definition attempt {A} (m : M A) : M (option Error) := λ w,
  match m w with
  | (Ok _, w') => (Ok None, w')
  | (Err _ e, w') => (Ok (Some e), w')
  | (Halt s, w') => (Halt s, w')
  end.

(** [_ = m]: the error, if any, is dropped. *)
Definition ignore {A} (m : M A) : M unit := λ w,
  match m w with
  | (Halt s, w') => (Halt s, w')
  | (_, w') => (Ok tt, w')
  end.

(** [v, err := m; if err != nil { return h err }; k v]. *)
Definition bindOr {A B} (m : M A) (h : Error → M B) (k : A → M B) : M B := λ w,
  match m w with
  | (Ok a, w') => k a w'
  | (Err _ e, w') => h e w'
  | (Halt s, w') => (Halt s, w')
  end.

Notation "'let*' x := m 'in' k" := (bind m (λ x, k))
  (at level 10, x name, m at level 100, k at level 200).
Notation "'let*' ' p := m 'in' k" := (bind m (λ x, match x with p => k end))
  (at level 10, p pattern, m at level 100, k at level 200).
Notation "'let*' x := m 'iferr' e => h 'in' k" := (bindOr m (λ e, h) (λ x, k))
  (at level 10, x name, e name, m at level 100, h at level 100, k at level 200).
Notation "'let*' ' p := m 'iferr' e => h 'in' k" :=
  (bindOr m (λ e, h) (λ x, match x with p => k end))
  (at level 10, p pattern, e name, m at level 100, h at level 100, k at level 200).
Notation "m >> k" := (bind m (λ _, k))
  (at level 100, k at level 200, right associativity).

Definition get : M World := λ w, (Ok w, w).
Definition modify (f : World → World) : M unit := λ w, (Ok tt, f w).
Definition emit (e : Event) : M unit := modify (record e).
Definition logf (format : string) (args : list string) : M unit := emit (Logf format args).

(** [mu.Lock(); defer mu.Unlock()] around a body.  A mutex that is already
    held blocks the caller for ever. *)
Definition withLock {A} (mu : Mutex) (body : M A) : M A := λ w,
  if bool_decide (mu ∈ held w) then (Halt (Deadlock mu), w)
  else match body (setHeld (mu :: held w) w) with
       | (Halt s, w') => (Halt s, w')
       | (r, w') => (r, setHeld (filter (λ m, m ≠ mu) (held w')) w')
       end.

(** *** Operating system *)

(** Every call is recorded; the next entry of [faults] says whether it fails
    for a reason outside the model (permissions, full disk, ...). *)
Definition oscall (op : Op) : M unit := λ w,
  let w1 := setFaults (tail (faults w)) (record (Call op) w) in
  if hd false (faults w) then (Err None (IOError op), w1) else (Ok tt, w1).

(** [q] is [p] or lies below it. *)
Definition under (p q : string) : bool :=
  String.eqb p q || HasPrefix q (p +:+ "/").

Definition os_Stat (p : string) : M unit :=
  oscall (OsStat p) >>
  let* w := get in
  match disk w !! p with
  | Some _ => ret tt
  | None => fail (PathError (OsStat p) true)
  end.

Definition os_ReadFile (p : string) : M FileData :=
  oscall (OsReadFile p) >>
  let* w := get in
  match disk w !! p with
  | Some (File d) => ret d
  | Some Dir => fail (PathError (OsReadFile p) false)
  | None => fail (PathError (OsReadFile p) true)
  end.

Definition os_WriteFile (p : string) (d : FileData) : M unit :=
  oscall (OsWriteFile p) >>
  let* w := get in
  match disk w !! p with
  | Some Dir => fail (PathError (OsWriteFile p) false)
  | _ => modify (setDisk (insert p (File d)))
  end.

Definition os_MkdirAll (p : string) : M unit :=
  oscall (OsMkdirAll p) >>
  let* w := get in
  match disk w !! p with
  | Some (File _) => fail (PathError (OsMkdirAll p) false)
  | _ => modify (setDisk (insert p Dir))
  end.

Definition os_Remove (p : string) : M unit :=
  oscall (OsRemove p) >>
  let* w := get in
  match disk w !! p with
  | Some _ => modify (setDisk (delete p))
  | None => fail (PathError (OsRemove p) true)
  end.

(** [os.RemoveAll] removes the path and everything below it, and succeeds
    when the path does not exist. *)
Definition os_RemoveAll (p : string) : M unit :=
  oscall (OsRemoveAll p) >>
  modify (setDisk (filter (λ kv, under p kv.1 = false))).

Definition os_Create (p : string) : M unit :=
  oscall (OsCreate p) >>
  let* w := get in
  match disk w !! p with
  | Some Dir => fail (PathError (OsCreate p) false)
  | _ => modify (setDisk (insert p (File (Bytes ""))))
  end.

(** [io.Copy(out, body)]: when it fails the file is left with a part of the
    body (here: none of it). *)
Definition io_Copy (p : string) (body : string) : M unit :=
  oscall (OsWrite p) >>
  modify (setDisk (insert p (File (Bytes body)))).

Definition file_Close (p : string) : M unit := oscall (OsClose p).

Definition os_Open (p : string) : M unit :=
  oscall (OsOpen p) >>
  let* w := get in
  match disk w !! p with
  | Some _ => ret tt
  | None => fail (PathError (OsOpen p) true)
  end.

(** Reading an open file to its end. *)
Definition file_ReadAll (p : string) : M string :=
  oscall (OsRead p) >>
  let* w := get in
  match disk w !! p with
  | Some (File (Bytes b)) => ret b
  | _ => fail (PathError (OsRead p) false)
  end.

(** The same calls on the documents under configs/. *)
Definition cfg_ReadFile (p : string) : M FileData :=
  oscall (OsReadFile p) >>
  let* w := get in
  match stateFiles w !! p with
  | Some d => ret d
  | None => fail (PathError (OsReadFile p) true)
  end.

Definition cfg_MkdirAll (p : string) : M unit := oscall (OsMkdirAll p).

Definition cfg_WriteFile (p : string) (d : FileData) : M unit :=
  oscall (OsWriteFile p) >>
  modify (setStateFiles (insert p d)).

(** [client.Get(url)]. *)
Definition http_Get (url : string) : M Response.t :=
  emit (Call (HttpGet url)) >>
  let* w := get in
  match net w !! url with
  | Some r => ret r
  | None => fail (IOError (HttpGet url))
  end.

(** [io.ReadAll(resp.Body)]. *)
Definition io_ReadAll (url : string) (body : string) : M string :=
  oscall (HttpRead url) >> ret body.

(** [io.LimitedReader] and [io.ReadAll] on it: at most [N] bytes are read,
    and [N] is lowered by the number of bytes read. *)
Module LimitedReader.
Record t := mk { R : string; N : Z }.
End LimitedReader.

Definition io_ReadAll_limited (url : string) (l : LimitedReader.t)
    : M (string * LimitedReader.t) :=
  oscall (HttpRead url) >>
  let data := takeBytes (LimitedReader.N l) (LimitedReader.R l) in
  ret (data, LimitedReader.mk (LimitedReader.R l) (LimitedReader.N l - len data)).

(** [time.Now().UTC().Format(time.RFC3339)]. *)
Definition time_Now : M string := let* w := get in ret (now w).

(** [IDGenerator.Generate]. *)
Definition Generate (prefix : string) : M string := λ w,
  let w1 := record (Call RandRead) w in
  match entropy w1 with
  | Some randomPart :: rest => (Ok (prefix +:+ "_" +:+ randomPart), setEntropy rest w1)
  | None :: rest =>
    (Err None (Wrapf "failed to generate random number for ID: %w" [] (IOError RandRead)),
     setEntropy rest w1)
  | [] =>
    (Err None (Wrapf "failed to generate random number for ID: %w" [] (IOError RandRead)), w1)
  end.

Definition ThemeID : M string := Generate "thm".
Definition PluginID : M string := Generate "plg".

(** *** Reading a trace *)

Definition isDeletion (e : Event) : bool :=
  match e with
  | Call (OsRemoveAll _) | Call (OsRemove _) => true
  | _ => false
  end.

Definition isWriteOf (path : string) (e : Event) : bool :=
  match e with
  | Call (OsWriteFile p) => String.eqb p path
  | _ => false
  end.

Definition isMutation (e : Event) : bool :=
  match e with
  | Call (OsWriteFile _) | Call (OsCreate _) | Call (OsWrite _) | Call (OsMkdirAll _)
  | Call (OsRemoveAll _) | Call (OsRemove _) => true
  | _ => false
  end.

(** No deletion is made before [path] is written. *)
Fixpoint writtenBeforeDeleted (path : string) (t : list Event) : bool :=
  match t with
  | [] => true
  | e :: rest =>
    if isWriteOf path e then true
    else if isDeletion e then false
    else writtenBeforeDeleted path rest
  end.

(** [path] is not written before a deletion is made. *)
Fixpoint deletedBeforeWritten (path : string) (t : list Event) : bool :=
  match t with
  | [] => true
  | e :: rest =>
    if isDeletion e then true
    else if isWriteOf path e then false
    else deletedBeforeWritten path rest
  end.

(** The events a call adds to the trace. *)
Definition since (w w' : World) : list Event := drop (length (trace w)) (trace w').

(* ================================================================== *)
(** ** What lies outside the repository *)
(* ================================================================== *)

Module URL.
Record t := mk { Scheme : string; Host : string; String : string }.
Definition IsAbs (u : t) : bool := negb (String.eqb (Scheme u) "").
End URL.

(** Library functions and the two line-oriented readers of command scripts,
    all of them pure.  [range] is the order in which a [range] statement
    visits a map, which Go leaves unspecified. *)
Class Externals := {
  url_Parse : string → option URL.t;
  url_ParseRequestURI : string → option URL.t;
  url_ResolveReference : URL.t → URL.t → URL.t;
  yaml_Unmarshal_ThemeMetadata : string → option ThemeMetadata.t;
  yaml_Unmarshal_PluginMetadata : string → option PluginMetadata.t;
  json_Unmarshal_ThemeMetadata : FileData → option ThemeMetadata.t;
  json_Marshal_ThemeMetadata : ThemeMetadata.t → option JSON;
  json_Parse : string → option JSON;
  json_Text : string → string → JSON → string;
  sha256_hex : string → string;
  strings_EqualFold : string → string → bool;
  filepath_Join : string → string → string;
  filepath_Abs : string → option string;
  filepath_Dir : string → string;
  filepath_Base : string → string;
  filepath_Clean : string → string;
  parseCommandMetadataFromBytes : string → Error + CommandMetadata.t;
  parseCommandMetadata : string → FileData → Error + CommandMetadata.t;
  range : ∀ V, gmap string V → list (string * V);
  range_Permutation : ∀ V (m : gmap string V), range V m ≡ₚ map_to_list m
}.
Arguments range {_ V} m.

(** [for k, v := range m]. *)
Definition rangeMap `{Externals} {V} (m : GoMap V) : list (string * V) :=
  match m with Some g => range g | None => [] end.

(** [m[k] = v]; a nil map panics. *)
Definition mapSet {V} (m : GoMap V) (k : string) (v : V) : M (GoMap V) :=
  match m with
  | Some g => ret (Some (<[k := v]> g))
  | None => halt (Panic "assignment to entry in nil map")
  end.

(** The test made before a path is written or removed:
    [strings.HasPrefix(target, base+sep) || target == base]. *)
Definition inside (absBase absTarget : string) : bool :=
  HasPrefix absTarget (absBase +:+ "/") || String.eqb absTarget absBase.

(* ================================================================== *)
(** ** package configuration *)
(* ================================================================== *)

Module configuration.
Section configuration.
Context `{Externals}.

Definition defaultThemesStatePath : string := "configs/themes.json".
Definition defaultPluginsStatePath : string := "configs/plugins.json".
Definition defaultCommandsStatePath : string := "configs/commands.json".

(** The argument of [json.Unmarshal(data, ...)] as a JSON value. *)
Definition parse (data : FileData) : option JSON :=
  match data with
  | Bytes b => json_Parse b
  | JsonText _ _ j => Some j
  end.

(** [len(data) == 0]. *)
Definition isEmpty (data : FileData) : bool :=
  match data with
  | Bytes b => String.eqb b ""
  | JsonText _ _ _ => false
  end.

(** [loadState]. *)
Definition loadState {T} `{FromJSON T} (path : string) : M (GoMap T) :=
  let stateMap : GoMap T := Some ∅ in
  let* data := cfg_ReadFile path iferr err =>
    (if os_IsNotExist err then ret stateMap
     else fail (Wrapf "failed to read state file '%s': %w" [path] err)) in
  if isEmpty data then ret stateMap
  else
    match parse data ≫= unmarshalMap (V := GoMap T) None with
    | None =>
      match parse data ≫= unmarshalMap stateMap with
      | Some direct => ret direct
      | None =>
        fail (Wrapf "failed to unmarshal state file '%s': %w" [path] (SyntaxError "json"))
      end
    | Some tempStore =>
      let stateMap := match rangeMap tempStore with (_, v) :: _ => v | [] => stateMap end in
      let stateMap := match stateMap with None => Some ∅ | Some g => Some g end in
      ret stateMap
    end.

(** [saveState].  [json.MarshalIndent] cannot fail on maps of strings. *)
Definition saveState {A} `{ToJSON A} (dataToSave : A) (path : string) : M unit :=
  let dir := filepath_Dir path in
  let* _ := cfg_MkdirAll dir iferr err =>
    fail (Wrapf "failed to create state directory '%s': %w" [dir] err) in
  let data := JsonText "" "  " (toJSON dataToSave) in
  let* _ := cfg_WriteFile path data iferr err =>
    fail (Wrapf "failed to write state file '%s': %w" [path] err) in
  ret tt.

(** The optional [statePath ...string] argument. *)
Definition pathOr (default : string) (statePath : list string) : string :=
  match statePath with
  | p :: _ => if decide (p = "") then default else p
  | [] => default
  end.

Definition LoadThemesState (statePath : list string) : M (GoMap InstalledThemeEntry.t) :=
  loadState (pathOr defaultThemesStatePath statePath).

Definition SaveThemesState (themes : GoMap InstalledThemeEntry.t) (statePath : list string)
    : M unit :=
  let dataToSave : gmap string (GoMap InstalledThemeEntry.t) := {[ "themes" := themes ]} in
  saveState dataToSave (pathOr defaultThemesStatePath statePath).

Definition LoadPluginsState (statePath : list string) : M (GoMap InstalledPluginEntry.t) :=
  loadState (pathOr defaultPluginsStatePath statePath).

Definition SavePluginsState (plugins : GoMap InstalledPluginEntry.t) (statePath : list string)
    : M unit :=
  let dataToSave : gmap string (GoMap InstalledPluginEntry.t) := {[ "plugins" := plugins ]} in
  saveState dataToSave (pathOr defaultPluginsStatePath statePath).

Definition LoadCommandsState (statePath : list string) : M (GoMap InstalledCommandEntry.t) :=
  loadState (pathOr defaultCommandsStatePath statePath).

Definition SaveCommandsState (commands : GoMap InstalledCommandEntry.t) (statePath : list string)
    : M unit :=
  let dataToSave : gmap string (GoMap InstalledCommandEntry.t) := {[ "commands" := commands ]} in
  saveState dataToSave (pathOr defaultCommandsStatePath statePath).


(** *** The configuration file *)

Definition defaultConfigPath : string := "configs/config.yaml".
Definition defaultHost : string := "0.0.0.0".
Definition minPort : Z := 1024.
Definition maxPort : Z := 49151.
Definition defaultAlphabet : string :=
  "abcdefghijklmnopqrstuvwxyzABCDEFGHIJKLMNOPQRSTUVWXYZ0123456789".

Record SecretsConfig := { Alphabet : string; Length : Z }.
Record SecurityConfig := { Secrets : SecretsConfig }.
Record ServerConfig := { Host : string; Port : Z }.
Record Config := { Version : string; Server : ServerConfig; Security : SecurityConfig }.

(** [&Config{}]. *)
Definition zeroConfig : Config :=
  {| Version := ""; Server := {| Host := ""; Port := 0 |};
     Security := {| Secrets := {| Alphabet := ""; Length := 0 |} |} |}.

(** [applyDefaults]: the configuration with its missing or invalid options
    replaced, and the lines printed on the way.  [draw] is the number the
    random source gives; [rand.Intn(n)] is a number from 0 to [n - 1]. *)
Definition applyDefaults (draw : Z) (cfg : Config) : Config * list Event :=
  let version := if String.eqb (Version cfg) "" then "v1" else Version cfg in
  let hostMissing := String.eqb (Host (Server cfg)) "" in
  let host := if hostMissing then defaultHost else Host (Server cfg) in
  let portInvalid := (Port (Server cfg) <? minPort) || (maxPort <? Port (Server cfg)) in
  let port :=
    if portInvalid then draw `mod` (maxPort - minPort + 1) + minPort else Port (Server cfg) in
  let alphabetMissing := String.eqb (Alphabet (Secrets (Security cfg))) "" in
  let alphabet :=
    if alphabetMissing then defaultAlphabet else Alphabet (Secrets (Security cfg)) in
  let lengthInvalid := Length (Secrets (Security cfg)) <=? 0 in
  let length := if lengthInvalid then 12 else Length (Secrets (Security cfg)) in
  ({| Version := version; Server := {| Host := host; Port := port |};
      Security := {| Secrets := {| Alphabet := alphabet; Length := length |} |} |},
   (if hostMissing
    then [Logf "Info: Server host not specified. Using default: %s" [defaultHost]] else [])
   ++ (if portInvalid
       then [Logf "Info: Server port (for RPC) not specified or invalid. Using random port: %d"
                  [pretty port]]
       else [])
   ++ (if alphabetMissing
       then [Logf "Warning: Security secrets alphabet was missing. Using default." []] else [])
   ++ (if lengthInvalid
       then [Logf "Warning: Security secrets length was missing or invalid. Using default (12)."
                  []]
       else []))%list.

(** The lines a function prints are recorded like those it logs. *)
Fixpoint printAll (lines : list Event) : M unit :=
  match lines with
  | [] => ret tt
  | e :: rest => emit e >> printAll rest
  end.

Section config_file.

(** [yaml.Marshal] and [yaml.Unmarshal] at the type [Config]. *)
Variable yaml_Marshal_Config : Config → option string.
Variable yaml_Unmarshal_Config : string → option Config.

(** [writeDefaultConfig]. *)
Definition writeDefaultConfig (path : string) (cfg : Config) : M unit :=
  let dir := filepath_Dir path in
  let* _ := cfg_MkdirAll dir iferr err =>
    fail (Wrapf "failed to create config directory '%s': %w" [dir] err) in
  match yaml_Marshal_Config cfg with
  | None =>
    fail (Wrapf "failed to marshal default config to YAML: %w" [] (SyntaxError "yaml"))
  | Some data =>
    let* _ := cfg_WriteFile path (Bytes data) iferr err =>
      fail (Wrapf "failed to write default config file '%s': %w" [path] err) in
    ret tt
  end.

(** [LoadConfig]. *)
Definition LoadConfig (draw : Z) (configPath : list string) : M Config :=
  let path := pathOr defaultConfigPath configPath in
  let* data := cfg_ReadFile path iferr err =>
    (if os_IsNotExist err && String.eqb path defaultConfigPath then
       logf "Warning: Config file '%s' not found. Creating default config file." [path] >>
       let '(defaultCfg, lines) := applyDefaults draw zeroConfig in
       printAll lines >>
       let* errWrite := attempt (writeDefaultConfig path defaultCfg) in
       (match errWrite with
        | Some _ =>
          logf "Error: Failed to write default config file '%s': %v. Using defaults in memory."
               [path]
        | None => logf "Info: Default config file created at '%s'." [path]
        end) >>
       ret defaultCfg
     else fail (Wrapf "failed to read config file '%s': %w" [path] err)) in
  let text :=
    match data with
    | Bytes b => b
    | JsonText prefix indent j => json_Text prefix indent j
    end in
  match yaml_Unmarshal_Config text with
  | None =>
    fail (Wrapf "failed to unmarshal config file '%s': %w" [path] (SyntaxError "yaml"))
  | Some cfg =>
    let '(cfg, lines) := applyDefaults draw cfg in
    printAll lines >> ret cfg
  end.

End config_file.

End configuration.
End configuration.

(* ================================================================== *)
(** ** package utils: the ID generator *)
(* ================================================================== *)

(** [Generate] above gives the managers an ID whose random part comes whole
    from the world.  Here the generator is written out: the random part is
    made byte by byte from numbers drawn from [crypto/rand]. *)
Module utils.

Record IDGenerator := { alphabet : string; length : Z }.

(** The numbers the random source is going to give; [None] is a failure of
    the source. *)
Definition Source : Type := list (option Z).

(** [NewIDGenerator]; [None] is the nil pointer. *)
Definition NewIDGenerator (cfg : option configuration.SecurityConfig)
    : Error + IDGenerator :=
  match cfg with
  | None =>
    inl (Errorf "invalid security config for ID generator: alphabet and length must be set" [])
  | Some cfg =>
    let secrets := configuration.Secrets cfg in
    if String.eqb (configuration.Alphabet secrets) ""
       || (configuration.Length secrets <=? 0)
    then inl (Errorf "invalid security config for ID generator: alphabet and length must be set" [])
    else inr {| alphabet := configuration.Alphabet secrets;
                length := configuration.Length secrets |}
  end.

(** [rand.Int(rand.Reader, max)]: a number from 0 to [max - 1]; it panics
    when [max] is not positive. *)
Definition rand_Int (max : Z) (src : Source) : Res Z * Source :=
  if max <=? 0 then (Halt (Panic "crypto/rand: argument to Int is <= 0"), src)
  else match src with
       | Some n :: rest => (Ok (n `mod` max), rest)
       | None :: rest => (Err None (IOError RandRead), rest)
       | [] => (Err None (IOError RandRead), [])
       end.

(** The loop of [generateRandomString], [n] bytes to go. *)
Fixpoint randomBytes (alphabet : string) (n : nat) (src : Source) : Res string * Source :=
  match n with
  | O => (Ok EmptyString, src)
  | S n =>
    match rand_Int (len alphabet) src with
    | (Ok i, src) =>
      match String.get (Z.to_nat i) alphabet with
      | Some c =>
        match randomBytes alphabet n src with
        | (Ok rest, src) => (Ok (String c rest), src)
        | other => other
        end
      | None => (Halt (Panic "index out of range"), src)
      end
    | (Err _ err, src) =>
      (Err None (Wrapf "failed to generate random number for ID: %w" [] err), src)
    | (Halt s, src) => (Halt s, src)
    end
  end.

(** [generateRandomString]; [make([]byte, n)] panics when [n] is
    negative. *)
Definition generateRandomString (g : IDGenerator) (src : Source) : Res string * Source :=
  if length g <? 0 then (Halt (Panic "makeslice: len out of range"), src)
  else randomBytes (alphabet g) (Z.to_nat (length g)) src.

(** [Generate]. *)
Definition Generate (g : IDGenerator) (prefix : string) (src : Source)
    : Res string * Source :=
  match generateRandomString g src with
  | (Ok randomPart, src) => (Ok (prefix +:+ "_" +:+ randomPart), src)
  | other => other
  end.

(** [MustGenerate]. *)
Definition MustGenerate (g : IDGenerator) (prefix : string) (src : Source)
    : Res string * Source :=
  match Generate g prefix src with
  | (Err _ err, src) => (Halt (Panic "failed to generate ID with prefix"), src)
  | other => other
  end.

Definition UserID (g : IDGenerator) := Generate g "usr".
Definition ContainerID (g : IDGenerator) := Generate g "ctr".
Definition ThemeID (g : IDGenerator) := Generate g "thm".
Definition PluginID (g : IDGenerator) := Generate g "plg".
Definition TokenID (g : IDGenerator) := Generate g "tok".
Definition SessionID (g : IDGenerator) := Generate g "ses".
Definition CommandID (g : IDGenerator) := Generate g "cmd".
Definition RequestID (g : IDGenerator) := Generate g "req".

End utils.

(* ================================================================== *)
(** ** package themes *)
(* ================================================================== *)

(** Log lines are kept where they report a decision or the outcome of an
    operation; progress counters and the relative paths that only feed log
    lines are left out. *)

Module themes.
Section themes.
Context `{Externals}.

(** *** types.go *)

(** The checks made on a leaf, written twice in the source (for an
    [AssetDetail] value and for a map with string [url] and [sum]). *)
Definition validateAsset (key url sum : string) : option Error :=
  if isBlank url then
    Some (Errorf "URL for asset '%s' in structure cannot be empty" [key])
  else match url_ParseRequestURI url with
  | None =>
    Some (Wrapf "invalid URL format for asset '%s': value '%s' is not a valid URL (%w)"
                [key; url] (SyntaxError "url"))
  | Some parsedURL =>
    if String.eqb (URL.Scheme parsedURL) "" then
      Some (Errorf "invalid URL for asset '%s': value '%s' must have a scheme" [key; url])
    else if negb (String.eqb (URL.Scheme parsedURL) "file")
            && String.eqb (URL.Host parsedURL) "" then
      Some (Errorf "invalid URL for asset '%s': value '%s' (scheme '%s') must have a host"
                   [key; url; URL.Scheme parsedURL])
    else if isBlank sum then
      Some (Errorf "sum for asset '%s' in structure cannot be empty" [key])
    else if negb (matchSHA256Pattern (ToLower sum)) then
      Some (Errorf "invalid sum format for asset '%s': must be a 64-character SHA256 hex string"
                   [key])
    else None
  end.

Definition wrap (format : string) (args : list string) (e : option Error) : option Error :=
  match e with Some err => Some (Wrapf format args err) | None => None end.

(** The test on a name. *)
Definition invalidName (key : string) : bool :=
  ContainsAny key pathSeparators || String.eqb key "." || String.eqb key "..".

(** [validateStructureContent]; [validateValue] is the body of its type
    switch. *)
Fixpoint validateStructureContent (structure : Structure) : option Error :=
  match structure with
  | SNil => None
  | SCons key value rest =>
    if isBlank key then
      Some (Errorf "file/directory name in structure cannot be empty" [])
    else if invalidName key then
      Some (Errorf "invalid file/directory name in structure: '%s'. It cannot contain path separators ('/' or '\') or be exactly '.' or '..'" [key])
    else match validateValue key value with
    | Some err => Some err
    | None => validateStructureContent rest
    end
  end
with validateValue (key : string) (value : Value) : option Error :=
  match value with
  | VAsset asset => validateAsset key (AssetDetail.URL asset) (AssetDetail.Sum asset)
  | VMap v =>
    match sget v "url", sget v "sum" with
    | Some urlVal, Some sumVal =>
      match urlVal, sumVal with
      | VString urlString, VString sumString => validateAsset key urlString sumString
      | _, _ =>
        wrap "invalid content in sub-directory '%s' (malformed asset-like map): %w" [key]
             (validateStructureContent v)
      end
    | _, _ =>
      wrap "invalid content in sub-directory '%s': %w" [key] (validateStructureContent v)
    end
  | _ =>
    Some (Errorf "invalid type for '%s' in structure: expected AssetDetail (for files) or map[string]interface{} (for sub-directories/assets), got %T" [key])
  end.

(** The names of the tree, at every level, and the checksums of its
    leaves; a map with string [url] and [sum] is a leaf, as in the type
    switch above, and its keys are not names. *)
Fixpoint names (structure : Structure) : list string :=
  match structure with
  | SNil => []
  | SCons key value rest => key :: namesBelow value ++ names rest
  end
with namesBelow (value : Value) : list string :=
  match value with
  | VMap v =>
    match sget v "url", sget v "sum" with
    | Some (VString _), Some (VString _) => []
    | _, _ => names v
    end
  | _ => []
  end.

Fixpoint checksums (structure : Structure) : list string :=
  match structure with
  | SNil => []
  | SCons key value rest => checksumsBelow value ++ checksums rest
  end
with checksumsBelow (value : Value) : list string :=
  match value with
  | VAsset asset => [AssetDetail.Sum asset]
  | VMap v =>
    match sget v "url", sget v "sum" with
    | Some (VString _), Some (VString sumString) => [sumString]
    | _, _ => checksums v
    end
  | _ => []
  end.

Fixpoint checkAuthors (i : Z) (authors : list AuthorDetail.t) : option Error :=
  match authors with
  | [] => None
  | author :: rest =>
    if isBlank (AuthorDetail.Name author) then
      Some (Errorf "theme author name at index %d cannot be empty" [pretty i])
    else checkAuthors (i + 1) rest
  end.

(** [ThemeMetadata.Validate]. *)
Definition Validate (m : ThemeMetadata.t) : option Error :=
  if isBlank (ThemeMetadata.Name m) then
    Some (Errorf "theme name is required and cannot be empty" [])
  else if Z.of_nat (length (ThemeMetadata.Authors m)) =? 0 then
    Some (Errorf "theme authors are required" [])
  else match checkAuthors 0 (ThemeMetadata.Authors m) with
  | Some err => Some err
  | None =>
    if isBlank (ThemeMetadata.Version m) then
      Some (Errorf "theme version is required and cannot be empty" [])
    else if isBlank (ThemeMetadata.Description m) then
      Some (Errorf "theme description is required and cannot be empty" [])
    else if isBlank (ThemeMetadata.SourceLink m) then
      Some (Errorf "theme source_link is required and cannot be empty" [])
    else match url_ParseRequestURI (ThemeMetadata.SourceLink m) with
    | None =>
      Some (Wrapf "theme source_link '%s' is not a valid URL: %w"
                  [ThemeMetadata.SourceLink m] (SyntaxError "url"))
    | Some parsedSourceLink =>
      if negb (String.eqb (URL.Scheme parsedSourceLink) "http")
         && negb (String.eqb (URL.Scheme parsedSourceLink) "https") then
        Some (Errorf "theme source_link URL scheme must be http or https, got '%s' for '%s'"
                     [URL.Scheme parsedSourceLink; ThemeMetadata.SourceLink m])
      else if slen (ThemeMetadata.Structure m) =? 0 then
        Some (Errorf "theme structure is required and cannot be empty" [])
      else wrap "invalid theme structure: %w" [] (validateStructureContent (ThemeMetadata.Structure m))
    end
  end.

(** *** manager.go *)

Definition defaultThemeDir : string := "ext/themes".
Definition themeMetaFile : string := "theme.yaml".

Inductive ActionType := ActionInstallNew | ActionOverwrite | ActionErrorExists.

Global Instance ActionType_eq_dec : EqDecision ActionType.
Proof. solve_decision. Defined.

Definition showAction (a : ActionType) : string :=
  match a with ActionInstallNew => "0" | ActionOverwrite => "1" | ActionErrorExists => "2" end.

Record ThemeManager := { themeDir : string }.

(** [discoverThemesLocked] lists [tm.themeDir] and rebuilds the in-memory
    cache [tm.themes] from the manifests it can read; it writes nothing and
    reports no error, and no operation below reads the cache. *)
Definition discoverThemesLocked (tm : ThemeManager) : M unit :=
  ignore (oscall (OsReadDir (themeDir tm))) >>
  logf "Theme discovery complete. Processed %d entries, found %d valid themes in '%s'."
       [themeDir tm].

Definition isHTTP (u : URL.t) : bool :=
  String.eqb (URL.Scheme u) "http" || String.eqb (URL.Scheme u) "https".

(** The bytes of a file. *)
Definition textOf (d : FileData) : string :=
  match d with
  | Bytes b => b
  | JsonText prefix indent j => json_Text prefix indent j
  end.

(** [fetchThemeYAML]: (yamlData, parsedSourceURL, isLocalSource,
    sourceNameForLog). *)
Definition fetchThemeYAML (tm : ThemeManager) (source : string)
    : M (string * option URL.t * bool * string) :=
  match url_Parse source ≫= (λ u, if isHTTP u then Some u else None) with
  | Some u =>
    let* resp := http_Get source iferr httpErr =>
      fail (Wrapf "failed to download theme YAML from URL '%s': %w" [source] httpErr) in
    if negb (Response.StatusCode resp =? 200) then
      fail (Errorf "failed to download theme YAML from URL '%s': status %s"
                   [source; Response.Status resp])
    else
      let* yamlData := io_ReadAll source (Response.Body resp) iferr err =>
        fail (Wrapf "failed to read theme YAML content from URL '%s': %w" [source] err) in
      ret (yamlData, Some u, false, source)
  | None =>
    match filepath_Abs source with
    | None =>
      fail (Wrapf "failed to get absolute path for local source '%s': %w" [source]
                  (SyntaxError "path"))
    | Some absSourcePath =>
      let* statErr := attempt (os_Stat absSourcePath) in
      if from_option os_IsNotExist false statErr then
        fail (Errorf "local theme YAML file not found at '%s'" [absSourcePath])
      else
        let* yamlData := os_ReadFile absSourcePath iferr err =>
          fail (Wrapf "failed to read local theme YAML file '%s': %w" [absSourcePath] err) in
        ret (textOf yamlData, None, true, absSourcePath)
    end
  end.

(** [countFilesInStructure]. *)
Fixpoint countFilesInStructure (structure : Structure) : Z :=
  match structure with
  | SNil => 0
  | SCons _ item rest =>
    (match item with
     | VAsset _ => 1
     | VMap v => countFilesInStructure v
     | _ => 0
     end) + countFilesInStructure rest
  end.

(** The download of one file, written twice in the source (for an
    [AssetDetail] value and for a map with string [url] and [sum]). *)
Definition downloadAsset (currentSavePath name url sum : string) (baseURL : option URL.t)
    : M unit :=
  let* resolvedFileURLString :=
    match baseURL with
    | Some base =>
      match url_Parse url with
      | None =>
        fail (Wrapf "error parsing asset URL '%s' for '%s': %w" [url; name] (SyntaxError "url"))
      | Some parsedItemURL =>
        if negb (URL.IsAbs parsedItemURL)
        then ret (URL.String (url_ResolveReference base parsedItemURL))
        else ret url
      end
    | None => ret url
    end in
  logf "[%d/%d] Downloading '%s'..." [name] >>
  let* resp := http_Get resolvedFileURLString iferr err =>
    (logf "[%d/%d] Downloading '%s'... Error: %v" [name] >>
     fail (Wrapf "failed to download file '%s' from '%s': %w" [name; resolvedFileURLString] err)) in
  if negb (Response.StatusCode resp =? 200) then
    logf "[%d/%d] Downloading '%s'... Error: status %s" [name; Response.Status resp] >>
    fail (Errorf "failed to download file '%s' from '%s': status %s"
                 [name; resolvedFileURLString; Response.Status resp])
  else
  let* _ := os_MkdirAll (filepath_Dir currentSavePath) iferr err =>
    fail (Wrapf "failed to create parent directory for '%s': %w" [currentSavePath] err) in
  let* _ := os_Create currentSavePath iferr err =>
    fail (Wrapf "failed to create local file '%s': %w" [currentSavePath] err) in
  let* copyErr := attempt (io_Copy currentSavePath (Response.Body resp)) in
  let* closeErr := attempt (file_Close currentSavePath) in
  match copyErr, closeErr with
  | Some err, _ =>
    ignore (os_Remove currentSavePath) >>
    fail (Wrapf "failed to save downloaded file '%s' to '%s': %w" [name; currentSavePath] err)
  | None, Some err =>
    fail (Wrapf "failed to close local file '%s' after writing: %w" [currentSavePath] err)
  | None, None =>
    let* _ := os_Open currentSavePath iferr err =>
      (ignore (os_Remove currentSavePath) >>
       fail (Wrapf "failed to open downloaded file '%s' for checksum: %w" [currentSavePath] err)) in
    let* content := file_ReadAll currentSavePath iferr err =>
      (ignore (os_Remove currentSavePath) >>
       fail (Wrapf "failed to hash downloaded file '%s': %w" [currentSavePath] err)) in
    let calculatedSum := sha256_hex content in
    emit (Hashed currentSavePath sum calculatedSum) >>
    if negb (strings_EqualFold calculatedSum sum) then
      logf "[%d/%d] Checksum mismatch for '%s'. Expected: %s, Got: %s" [name; sum; calculatedSum] >>
      ignore (os_Remove currentSavePath) >>
      fail (Errorf "checksum mismatch for file '%s': expected %s, got %s"
                   [name; sum; calculatedSum])
    else
      logf "[%d/%d] Verified '%s'." [name]
  end.

(** [downloadAndSaveStructure]; [downloadItem] is the body of its type
    switch. *)
Fixpoint downloadAndSaveStructure (baseSavePath : string) (structure : Structure)
    (baseURL : option URL.t) {struct structure} : M unit :=
  match structure with
  | SNil => ret tt
  | SCons name item rest =>
    downloadItem (filepath_Join baseSavePath name) name item baseURL >>
    downloadAndSaveStructure baseSavePath rest baseURL
  end
with downloadItem (currentSavePath name : string) (item : Value)
    (baseURL : option URL.t) {struct item} : M unit :=
  match item with
  | VAsset asset =>
    downloadAsset currentSavePath name (AssetDetail.URL asset) (AssetDetail.Sum asset) baseURL
  | VMap mapItem =>
    match sget mapItem "url", sget mapItem "sum" with
    | Some (VString urlString), Some (VString sumString) =>
      downloadAsset currentSavePath name urlString sumString baseURL
    | Some _, Some _ =>
      let* _ := os_MkdirAll currentSavePath iferr err =>
        fail (Wrapf "failed to create sub-directory '%s' (malformed asset-like map): %w"
                    [currentSavePath] err) in
      downloadAndSaveStructure currentSavePath mapItem baseURL
    | _, _ =>
      let* _ := os_MkdirAll currentSavePath iferr err =>
        fail (Wrapf "failed to create sub-directory '%s': %w" [currentSavePath] err) in
      downloadAndSaveStructure currentSavePath mapItem baseURL
    end
  | _ =>
    logf "unknown type in structure for key '%s': expected AssetDetail or map[string]interface{}, got %T" [name] >>
    fail (Errorf "unknown type in structure for key '%s': expected AssetDetail or map[string]interface{}, got %T" [name])
  end.

(** [_fetchAndValidateDefinition]: (meta, sourceNameForLog, parsedSourceURL,
    isLocalSource). *)
Definition _fetchAndValidateDefinition (tm : ThemeManager) (source : string)
    : M (ThemeMetadata.t * string * option URL.t * bool) :=
  logf "Fetching definition from source '%s'..." [source] >>
  let* '(yamlData, parsedSourceURL, isLocalSource, sourceNameForLog) := fetchThemeYAML tm source in
  logf "Processing definition from '%s'..." [sourceNameForLog] >>
  match yaml_Unmarshal_ThemeMetadata yamlData with
  | None =>
    logf "Could not parse theme YAML from source '%s'." [sourceNameForLog] >>
    fail (Wrapf "failed to parse theme YAML from '%s': %w" [sourceNameForLog] (SyntaxError "yaml"))
  | Some m =>
    match Validate m with
    | Some validateErr =>
      logf "Invalid theme metadata from source '%s' for theme '%s'."
           [sourceNameForLog; ThemeMetadata.Name m] >>
      fail (Wrapf "invalid theme metadata from '%s' for theme '%s': %w"
                  [sourceNameForLog; ThemeMetadata.Name m] validateErr)
    | None =>
      logf "Metadata validated: '%s' (v%s)." [ThemeMetadata.Name m; ThemeMetadata.Version m] >>
      ret (m, sourceNameForLog, parsedSourceURL, isLocalSource)
    end
  end.

(** Whether a state entry is an exact match of the manifest. *)
Definition exactMatch (meta : ThemeMetadata.t) (entry : InstalledThemeEntry.t) : bool :=
  String.eqb (InstalledThemeEntry.SourceLink entry) (ThemeMetadata.SourceLink meta)
  && String.eqb (InstalledThemeEntry.Version entry) (ThemeMetadata.Version meta).

Definition sameSource (meta : ThemeMetadata.t) (entry : InstalledThemeEntry.t) : bool :=
  String.eqb (InstalledThemeEntry.SourceLink entry) (ThemeMetadata.SourceLink meta).

(** [_determineInstallAction]. *)
Definition _determineInstallAction (tm : ThemeManager) (meta : ThemeMetadata.t) (force : bool)
    (themesState : GoMap InstalledThemeEntry.t) : M (ActionType * string) :=
  let existingLocalDirForExactMatch :=
    match list_find (λ kv, exactMatch meta kv.2 = true) (rangeMap themesState) with
    | Some (_, (localDir, _)) => localDir
    | None => ""
    end in
  if negb (String.eqb existingLocalDirForExactMatch "") then
    if negb force then
      logf "Install aborted: Theme '%s' (v%s) version already exists (ID: %s) and force is not enabled."
           [ThemeMetadata.Name meta; ThemeMetadata.Version meta; existingLocalDirForExactMatch] >>
      failWith (ActionErrorExists, existingLocalDirForExactMatch) ErrThemeAlreadyExistsNoForce
    else
      logf "Theme '%s' (v%s) version already exists (ID: %s). Force enabled, proceeding with re-installation."
           [ThemeMetadata.Name meta; ThemeMetadata.Version meta; existingLocalDirForExactMatch] >>
      ret (ActionOverwrite, existingLocalDirForExactMatch)
  else
    (match list_find (λ kv, sameSource meta kv.2 = true) (rangeMap themesState) with
     | Some _ =>
       logf "Other versions of theme '%s' (SourceLink: %s) found. Proceeding to install specified version '%s'."
            [ThemeMetadata.Name meta; ThemeMetadata.SourceLink meta; ThemeMetadata.Version meta]
     | None =>
       logf "No existing theme with SourceLink '%s' found. Proceeding with new installation for '%s' (v%s)."
            [ThemeMetadata.SourceLink meta; ThemeMetadata.Name meta; ThemeMetadata.Version meta]
     end) >>
    ret (ActionInstallNew, "").

(** [_prepareDirectoryForInstall]: (fullThemePath, actualDirName), and the
    manifest with [InstalledAt] set. *)
Definition _prepareDirectoryForInstall (tm : ThemeManager) (initialTargetDirName : string)
    (meta : ThemeMetadata.t) (action : ActionType)
    (themesState : GoMap InstalledThemeEntry.t) (currentTime : string)
    : M (string * string * ThemeMetadata.t) :=
  let* '(actualDirName, meta) :=
    match action with
    | ActionInstallNew =>
      let* newDirID := ThemeID iferr idErr =>
        fail (Wrapf "failed to generate unique directory name for theme '%s': %w"
                    [ThemeMetadata.Name meta] idErr) in
      logf "New theme installation, generated Target ID: '%s'." [newDirID] >>
      ret (newDirID, ThemeMetadata.withInstalledAt currentTime meta)
    | ActionOverwrite =>
      let actualDirName := initialTargetDirName in
      let meta :=
        match mapGet themesState actualDirName with
        | Some existingStateEntry =>
          if negb (String.eqb (InstalledThemeEntry.InstalledAt existingStateEntry) "")
          then ThemeMetadata.withInstalledAt
                 (InstalledThemeEntry.InstalledAt existingStateEntry) meta
          else ThemeMetadata.withInstalledAt currentTime meta
        | None => ThemeMetadata.withInstalledAt currentTime meta
        end in
      logf "Re-installing existing theme, Target ID: '%s'." [actualDirName] >>
      let fullThemePath := filepath_Join (themeDir tm) actualDirName in
      let* _ := os_RemoveAll fullThemePath iferr err =>
        fail (Wrapf "failed to remove existing theme directory '%s' for force reinstall: %w"
                    [fullThemePath] err) in
      ret (actualDirName, meta)
    | ActionErrorExists =>
      fail (Errorf "unexpected action type %v in _prepareDirectoryForInstall for theme '%s'"
                   [showAction action; ThemeMetadata.Name meta])
    end in
  let fullThemePath := filepath_Join (themeDir tm) actualDirName in
  match filepath_Abs (themeDir tm) with
  | None =>
    fail (Wrapf "could not get absolute path for base theme directory: %w" [] (SyntaxError "path"))
  | Some absThemeDir =>
    match filepath_Abs fullThemePath with
    | None =>
      fail (Wrapf "could not get absolute path for target theme directory '%s': %w"
                  [fullThemePath] (SyntaxError "path"))
    | Some absTargetThemePath =>
      if negb (inside absThemeDir absTargetThemePath) then
        fail (Errorf "generated target directory '%s' (abs: '%s') resolves outside of base theme directory (abs: '%s')"
                     [actualDirName; absTargetThemePath; absThemeDir])
      else
        let* _ := os_MkdirAll fullThemePath iferr err =>
          fail (Wrapf "failed to create theme directory '%s': %w" [fullThemePath] err) in
        logf "Directory prepared: '%s' (ID: '%s')." [fullThemePath; actualDirName] >>
        ret (fullThemePath, actualDirName, meta)
    end
  end.

(** [_downloadThemeAssets]. *)
Definition _downloadThemeAssets (tm : ThemeManager) (themePath : string)
    (meta : ThemeMetadata.t) (parsedSourceURL : option URL.t) (isLocalSource : bool)
    : M unit :=
  let totalFiles := countFilesInStructure (ThemeMetadata.Structure meta) in
  logf "Downloading %d assets for theme '%s' (v%s):"
       [pretty totalFiles; ThemeMetadata.Name meta; ThemeMetadata.Version meta] >>
  let baseURLForStructure := if negb isLocalSource then parsedSourceURL else None in
  let* _ := downloadAndSaveStructure themePath (ThemeMetadata.Structure meta)
                                     baseURLForStructure iferr err =>
    (logf "Asset download failed for theme '%s' (v%s)."
          [ThemeMetadata.Name meta; ThemeMetadata.Version meta] >>
     fail (Wrapf "failed to download theme structure for '%s': %w"
                 [ThemeMetadata.Name meta] err)) in
  logf "All %d assets downloaded." [pretty totalFiles].

(** [_writeLocalThemeJSON]. *)
Definition _writeLocalThemeJSON (tm : ThemeManager) (themePath : string)
    (meta : ThemeMetadata.t) : M unit :=
  match json_Marshal_ThemeMetadata meta with
  | None =>
    fail (Wrapf "failed to marshal theme metadata to JSON for '%s': %w"
                [ThemeMetadata.Name meta] (SyntaxError "json"))
  | Some jsonData =>
    let localMetaPath := filepath_Join themePath "theme.json" in
    let* _ := os_WriteFile localMetaPath (JsonText "" "  " jsonData) iferr err =>
      fail (Wrapf "failed to write local theme.json for theme '%s' to '%s': %w"
                  [ThemeMetadata.Name meta; localMetaPath] err) in
    logf "Local theme.json written." []
  end.

(** [_updateGlobalThemesState]. *)
Definition _updateGlobalThemesState (tm : ThemeManager) (themeID : string)
    (entryData : InstalledThemeEntry.t) : M unit :=
  let* currentThemesState := configuration.LoadThemesState [] iferr err =>
    fail (Wrapf "failed to load themes state before update for theme ID '%s': %w" [themeID] err) in
  let* currentThemesState := mapSet currentThemesState themeID entryData in
  let* _ := configuration.SaveThemesState currentThemesState [] iferr err =>
    (logf "CRITICAL: Failed to save updated themes state for theme ID '%s' (Name: %s): %v. Manual correction may be needed."
          [themeID; InstalledThemeEntry.Name entryData] >>
     fail (Wrapf "failed to save updated themes state for theme ID '%s' (Name: %s): %w"
                 [themeID; InstalledThemeEntry.Name entryData] err)) in
  logf "Global themes state updated for ID '%s'." [themeID].

(** The clean-up of a failed new installation. *)
Definition cleanupNewInstall (action : ActionType) (themePath : string) : M unit :=
  if decide (action = ActionInstallNew) then
    logf "Cleaning up directory '%s'." [themePath] >>
    ignore (os_RemoveAll themePath)
  else ret tt.

(** [Install]. *)
Definition Install (tm : ThemeManager) (source : string) (force : bool)
    : M ThemeMetadata.t :=
  withLock ThemeManager_mu (
    logf "Installing theme from source '%s'..." [source] >>
    let* '(meta, sourceNameForLog, parsedSourceURL, isLocalSource) :=
      _fetchAndValidateDefinition tm source in
    let* themesState := configuration.LoadThemesState [] iferr err =>
      fail (Wrapf "failed to load themes state for theme '%s': %w"
                  [ThemeMetadata.Name meta] err) in
    let* '(action, targetDirName) := _determineInstallAction tm meta force themesState in
    logf "Action determined: %v, Target ID for install: '%s'" [showAction action; targetDirName] >>
    let* currentTime := time_Now in
    let meta := ThemeMetadata.withLastUpdatedAt currentTime meta in
    let* '(themePath, actualTargetDirName, meta) :=
      _prepareDirectoryForInstall tm targetDirName meta action themesState currentTime in
    let* _ := _downloadThemeAssets tm themePath meta parsedSourceURL isLocalSource iferr err =>
      (cleanupNewInstall action themePath >> fail err) in
    logf "Finalizing installation..." [] >>
    let* _ := _writeLocalThemeJSON tm themePath meta iferr err =>
      (cleanupNewInstall action themePath >> fail err) in
    let installedEntry :=
      InstalledThemeEntry.mk actualTargetDirName (ThemeMetadata.Name meta)
        (ThemeMetadata.Version meta) (ThemeMetadata.SourceLink meta)
        (ThemeMetadata.InstalledAt meta) (ThemeMetadata.LastUpdatedAt meta) in
    let* _ := _updateGlobalThemesState tm actualTargetDirName installedEntry iferr err =>
      failWith meta
        (Wrapf "theme '%s' files installed/updated to '%s', but failed to save global state: %w"
               [ThemeMetadata.Name meta; themePath] err) in
    discoverThemesLocked tm >>
    logf "Theme '%s' (v%s) installed to '%s'."
         [ThemeMetadata.Name meta; ThemeMetadata.Version meta; themePath] >>
    ret meta).

(** [_loadLocalThemeJSON]. *)
Definition _loadLocalThemeJSON (tm : ThemeManager) (themePath : string)
    : M ThemeMetadata.t :=
  let metaFilePath := filepath_Join themePath "theme.json" in
  let* statErr := attempt (os_Stat metaFilePath) in
  if from_option os_IsNotExist false statErr then
    fail (Errorf "local theme.json not found at '%s'" [metaFilePath])
  else
    let* metaData := os_ReadFile metaFilePath iferr err =>
      fail (Wrapf "failed to read local theme.json from '%s': %w" [metaFilePath] err) in
    match json_Unmarshal_ThemeMetadata metaData with
    | None =>
      fail (Wrapf "failed to parse local theme.json from '%s': %w" [metaFilePath]
                  (SyntaxError "json"))
    | Some meta => ret meta
    end.

(** [Update]. *)
Definition Update (tm : ThemeManager) (themeID : string) : M ThemeMetadata.t :=
  withLock ThemeManager_mu (
    let* themesState := configuration.LoadThemesState [] iferr err =>
      fail (Wrapf "failed to load themes state for update of theme ID '%s': %w" [themeID] err) in
    match mapGet themesState themeID with
    | None =>
      logf "Theme with ID '%s' not found in state, cannot update." [themeID] >>
      fail (Errorf "theme with ID '%s' not found in state, cannot update" [themeID])
    | Some existingStateEntry =>
      logf "Updating theme '%s' (ID: %s)..." [InstalledThemeEntry.Name existingStateEntry; themeID] >>
      if String.eqb (InstalledThemeEntry.SourceLink existingStateEntry) "" then
        logf "Theme does not have a SourceLink, cannot update." [] >>
        fail (Errorf "theme '%s' (ID: %s) does not have a SourceLink, cannot update"
                     [InstalledThemeEntry.Name existingStateEntry; themeID])
      else
      let* '(latestMeta, _, parsedSourceURL, isLocalSource) :=
        _fetchAndValidateDefinition tm (InstalledThemeEntry.SourceLink existingStateEntry)
        iferr err =>
        fail (Wrapf "failed to fetch/validate definition for theme '%s' (ID: %s): %w"
                    [InstalledThemeEntry.Name existingStateEntry; themeID] err) in
      logf "Comparing versions..." [] >>
      if String.eqb (InstalledThemeEntry.Version existingStateEntry)
                    (ThemeMetadata.Version latestMeta) then
        logf "Theme is already at the latest version ('%s'). No update needed."
             [ThemeMetadata.Version latestMeta] >>
        let* localMeta := _loadLocalThemeJSON tm (filepath_Join (themeDir tm) themeID)
          iferr loadLocalErr =>
          fail (Wrapf "theme is latest, but failed to reload local metadata: %w" [] loadLocalErr) in
        ret localMeta
      else if string_lt (ThemeMetadata.Version latestMeta)
                        (InstalledThemeEntry.Version existingStateEntry) then
        logf "Available version '%s' is older than installed version '%s'. No update performed."
             [ThemeMetadata.Version latestMeta; InstalledThemeEntry.Version existingStateEntry] >>
        let* localMeta := _loadLocalThemeJSON tm (filepath_Join (themeDir tm) themeID)
          iferr loadLocalErr =>
          fail (Wrapf "remote version older, but failed to reload local metadata: %w" []
                      loadLocalErr) in
        ret localMeta
      else
      logf "Newer version '%s' found. Proceeding with update from '%s'."
           [ThemeMetadata.Version latestMeta; InstalledThemeEntry.Version existingStateEntry] >>
      let* currentTime := time_Now in
      let latestMeta := ThemeMetadata.withLastUpdatedAt currentTime latestMeta in
      let latestMeta :=
        if negb (String.eqb (InstalledThemeEntry.InstalledAt existingStateEntry) "")
        then ThemeMetadata.withInstalledAt
               (InstalledThemeEntry.InstalledAt existingStateEntry) latestMeta
        else ThemeMetadata.withInstalledAt currentTime latestMeta in
      let* '(themePath, _, latestMeta) :=
        _prepareDirectoryForInstall tm themeID latestMeta ActionOverwrite themesState currentTime
        iferr err =>
        fail (Wrapf "failed to prepare directory for update of theme '%s' (ID: %s): %w"
                    [ThemeMetadata.Name latestMeta; themeID] err) in
      let* _ := _downloadThemeAssets tm themePath latestMeta parsedSourceURL isLocalSource
        iferr err =>
        fail (Wrapf "failed to download assets for updated theme '%s' (ID: %s, Version: %s): %w"
                    [ThemeMetadata.Name latestMeta; themeID; ThemeMetadata.Version latestMeta] err) in
      logf "Finalizing update:" [] >>
      let* _ := _writeLocalThemeJSON tm themePath latestMeta iferr err =>
        fail (Wrapf "failed to write local theme.json for updated theme '%s' (ID: %s, Version: %s): %w"
                    [ThemeMetadata.Name latestMeta; themeID; ThemeMetadata.Version latestMeta] err) in
      let updatedGlobalEntry :=
        InstalledThemeEntry.mk themeID (ThemeMetadata.Name latestMeta)
          (ThemeMetadata.Version latestMeta) (InstalledThemeEntry.SourceLink existingStateEntry)
          (ThemeMetadata.InstalledAt latestMeta) (ThemeMetadata.LastUpdatedAt latestMeta) in
      let* _ := _updateGlobalThemesState tm themeID updatedGlobalEntry iferr err =>
        failWith latestMeta
          (Wrapf "theme '%s' (ID: %s) files updated to version '%s', but failed to save global state: %w"
                 [ThemeMetadata.Name latestMeta; themeID; ThemeMetadata.Version latestMeta] err) in
      discoverThemesLocked tm >>
      logf "Theme '%s' (ID: %s) updated successfully to version '%s'."
           [ThemeMetadata.Name latestMeta; themeID; ThemeMetadata.Version latestMeta] >>
      ret latestMeta
    end).

(** [_removeEntryFromGlobalState]. *)
Definition _removeEntryFromGlobalState (tm : ThemeManager) (themeID : string) : M string :=
  let* currentThemesState := configuration.LoadThemesState [] iferr loadErr =>
    fail (Wrapf "failed to load themes state before removing entry for theme ID '%s': %w"
                [themeID] loadErr) in
  match mapGet currentThemesState themeID with
  | None =>
    logf "Theme ID '%s' not found in state. Nothing to remove from state file." [themeID] >>
    fail (Errorf "theme with ID '%s' not found in state, cannot remove" [themeID])
  | Some entry =>
    let themeName := InstalledThemeEntry.Name entry in
    let currentThemesState := mapDelete currentThemesState themeID in
    let* _ := configuration.SaveThemesState currentThemesState [] iferr saveErr =>
      (logf "CRITICAL: Failed to save themes state after removing entry for theme ID '%s' (Name: %s): %v. Manual correction may be needed."
            [themeID; themeName] >>
       failWith themeName
         (Wrapf "failed to save updated themes state after removing entry for theme ID '%s' (Name: %s): %w"
                [themeID; themeName] saveErr)) in
    logf "Entry for theme '%s' (ID: %s) removed from state file." [themeName; themeID] >>
    ret themeName
  end.

(** [_deleteThemeDirectory]. *)
Definition _deleteThemeDirectory (tm : ThemeManager) (themeID themeNameForLog : string)
    : M unit :=
  let targetThemePath := filepath_Join (themeDir tm) themeID in
  match filepath_Abs (themeDir tm) with
  | None =>
    fail (Wrapf "could not get absolute path for base theme directory: %w" [] (SyntaxError "path"))
  | Some absThemeDir =>
    match filepath_Abs targetThemePath with
    | None =>
      fail (Wrapf "could not get absolute path for target theme directory '%s': %w"
                  [targetThemePath] (SyntaxError "path"))
    | Some absTargetThemePath =>
      if negb (inside absThemeDir absTargetThemePath) then
        fail (Errorf "security violation: target path for theme directory removal '%s' (abs: '%s') is outside the allowed base directory (abs: '%s')"
                     [targetThemePath; absTargetThemePath; absThemeDir])
      else
        let* _ := os_RemoveAll targetThemePath iferr err =>
          fail (Wrapf "failed to remove theme directory '%s' for theme '%s' (ID: %s): %w"
                      [targetThemePath; themeNameForLog; themeID] err) in
        logf "Directory '%s' deleted." [targetThemePath]
    end
  end.

(** [Remove]. *)
Definition Remove (tm : ThemeManager) (themeID : string) : M unit :=
  withLock ThemeManager_mu (
    logf "Removing theme (ID: %s) from state file..." [themeID] >>
    let* themeNameForLog := _removeEntryFromGlobalState tm themeID in
    logf "Removing theme '%s' (ID: %s)..." [themeNameForLog; themeID] >>
    let* _ := _deleteThemeDirectory tm themeID themeNameForLog iferr err =>
      (logf "Directory deletion failed for theme '%s' (ID: %s). Manual cleanup may be required: %v"
            [themeNameForLog; themeID] >>
       fail (Wrapf "state for theme '%s' (ID: %s) removed, but directory deletion failed: %w"
                   [themeNameForLog; themeID] err)) in
    discoverThemesLocked tm >>
    logf "Theme '%s' (ID: %s) removed." [themeNameForLog; themeID]).


(** *** More of the package's API *)

(** [ThemeMetadata.IsValid]. *)
Definition IsValid (m : ThemeMetadata.t) : bool :=
  negb (String.eqb (ThemeMetadata.Name m) "")
  && (0 <? Z.of_nat (length (ThemeMetadata.Authors m)))
  && negb (String.eqb (ThemeMetadata.Version m) "")
  && negb (String.eqb (ThemeMetadata.Description m) "")
  && negb (String.eqb (ThemeMetadata.SourceLink m) "")
  && (0 <? slen (ThemeMetadata.Structure m)).

(** [List]. *)
Definition List (tm : ThemeManager) : M (GoMap InstalledThemeEntry.t) :=
  let* themesState := configuration.LoadThemesState [] iferr err =>
    (logf "List: Failed to load themes state: %v" [] >>
     fail (Wrapf "failed to load themes state: %w" [] err)) in
  ret themesState.

(** [GetThemeDetails]: (localMeta, globalEntry), either of which can be
    nil. *)
Definition GetThemeDetails (tm : ThemeManager) (themeID : string)
    : M (option ThemeMetadata.t * option InstalledThemeEntry.t) :=
  withLock ThemeManager_mu (
    let* themesState := configuration.LoadThemesState [] iferr err =>
      fail (Wrapf "failed to load global themes state for theme ID '%s': %w" [themeID] err) in
    match mapGet themesState themeID with
    | None => fail (Errorf "theme with ID '%s' not found in global state" [themeID])
    | Some globalEntry =>
      let localThemePath := filepath_Join (themeDir tm) themeID in
      let* localMeta := _loadLocalThemeJSON tm localThemePath iferr err =>
        failWith (None, Some globalEntry)
          (Wrapf "theme ID '%s' found in global state, but failed to load local metadata from '%s': %w"
                 [themeID; localThemePath] err) in
      ret (Some localMeta, Some globalEntry)
    end).

End themes.
End themes.

(* ================================================================== *)
(** ** package plugins *)
(* ================================================================== *)

Module plugins.
Section plugins.
Context `{Externals}.

(** *** types.go *)

Definition invalidName (key : string) : bool :=
  ContainsAny key pathSeparators || String.eqb key "." || String.eqb key "..".

(** [validatePluginStructureContent]; [validateValue] is the body of its
    type switch. *)
Fixpoint validatePluginStructureContent (structure : Structure) : option Error :=
  match structure with
  | SNil => None
  | SCons key value rest =>
    if isBlank key then
      Some (Errorf "file/directory name in structure cannot be empty" [])
    else if invalidName key then
      Some (Errorf "invalid file/directory name in structure: '%s'. It cannot contain path separators or be '.' or '..'" [key])
    else match validateValue key value with
    | Some err => Some err
    | None => validatePluginStructureContent rest
    end
  end
with validateValue (key : string) (value : Value) : option Error :=
  match value with
  | VString v =>
    if isBlank v then
      Some (Errorf "URL for file '%s' in structure cannot be empty" [key])
    else match url_ParseRequestURI v with
    | None => Some (Wrapf "invalid URL format for file '%s': '%s' (%w)" [key; v] (SyntaxError "url"))
    | Some _ => None
    end
  | VMap v =>
    themes.wrap "invalid content in sub-directory '%s': %w" [key]
                (validatePluginStructureContent v)
  | _ =>
    Some (Errorf "invalid type for '%s' in structure: expected string (URL) or map (sub-directory)" [key])
  end.

(** The names of the tree, at every level. *)
Fixpoint names (structure : Structure) : list string :=
  match structure with
  | SNil => []
  | SCons key value rest => key :: namesBelow value ++ names rest
  end
with namesBelow (value : Value) : list string :=
  match value with
  | VMap v => names v
  | _ => []
  end.

Fixpoint checkAuthors (i : Z) (authors : list string) : option Error :=
  match authors with
  | [] => None
  | author :: rest =>
    if isBlank author then Some (Errorf "plugin author at index %d cannot be empty" [pretty i])
    else checkAuthors (i + 1) rest
  end.

Fixpoint checkMethods (path : string) (methods : list string) : option Error :=
  match methods with
  | [] => None
  | method :: rest =>
    if isBlank method then Some (Errorf "endpoint '%s' has an empty HTTP method" [path])
    else checkMethods path rest
  end.

Fixpoint checkEndpoints (endpoints : list (string * EndpointConfig.t)) : option Error :=
  match endpoints with
  | [] => None
  | (path, endpointCfg) :: rest =>
    if isBlank path || negb (HasPrefix path "/") then
      Some (Errorf "invalid endpoint path '%s': must not be empty and must start with '/'" [path])
    else if Z.of_nat (length (EndpointConfig.Methods endpointCfg)) =? 0 then
      Some (Errorf "endpoint '%s' must have at least one HTTP method defined" [path])
    else match checkMethods path (EndpointConfig.Methods endpointCfg) with
    | Some err => Some err
    | None => checkEndpoints rest
    end
  end.

Fixpoint checkDependencies (dependencies : list (string * string)) : option Error :=
  match dependencies with
  | [] => None
  | (modPath, modVersion) :: rest =>
    if isBlank modPath then Some (Errorf "dependency module path cannot be empty" [])
    else if isBlank modVersion then
      Some (Errorf "dependency version for module '%s' cannot be empty" [modPath])
    else checkDependencies rest
  end.

(** [PluginMetadata.Validate]. *)
Definition Validate (m : PluginMetadata.t) : option Error :=
  if isBlank (PluginMetadata.Name m) then
    Some (Errorf "plugin name is required and cannot be empty" [])
  else if Z.of_nat (length (PluginMetadata.Authors m)) =? 0 then
    Some (Errorf "plugin authors are required" [])
  else match checkAuthors 0 (PluginMetadata.Authors m) with
  | Some err => Some err
  | None =>
    if isBlank (PluginMetadata.Version m) then
      Some (Errorf "plugin version is required and cannot be empty" [])
    else if isBlank (PluginMetadata.Description m) then
      Some (Errorf "plugin description is required and cannot be empty" [])
    else if isBlank (PluginMetadata.SourceLink m) then
      Some (Errorf "plugin source_link is required and cannot be empty" [])
    else match url_ParseRequestURI (PluginMetadata.SourceLink m) with
    | None =>
      Some (Wrapf "plugin source_link '%s' is not a valid URL: %w"
                  [PluginMetadata.SourceLink m] (SyntaxError "url"))
    | Some _ =>
      if isBlank (PluginMetadata.APIVersion m) then
        Some (Errorf "plugin api_version is required and cannot be empty" [])
      else if slen (PluginMetadata.Structure m) =? 0 then
        Some (Errorf "plugin structure is required and cannot be empty" [])
      else match themes.wrap "invalid plugin structure: %w" []
                   (validatePluginStructureContent (PluginMetadata.Structure m)) with
      | Some err => Some err
      | None =>
        match checkEndpoints (PluginMetadata.Endpoints m) with
        | Some err => Some err
        | None => checkDependencies (PluginMetadata.Dependencies m)
        end
      end
    end
  end.

(** *** manager.go *)

Definition pluginMetaFile : string := "plugin.yaml".
Definition defaultPluginsDir : string := "ext/plugins".
Definition maxYAMLSize : Z := Z.shiftl 1 20.

Inductive ActionType := ActionInstallNew | ActionOverwrite | ActionErrorExists.

Global Instance ActionType_eq_dec : EqDecision ActionType.
Proof. solve_decision. Defined.

Record PluginManager := { pluginDir : string }.

(** [countFilesInStructure]. *)
Fixpoint countFilesInStructure (structure : Structure) : Z :=
  match structure with
  | SNil => 0
  | SCons _ item rest =>
    (match item with
     | VString _ => 1
     | VMap v => countFilesInStructure v
     | _ => 0
     end) + countFilesInStructure rest
  end.

(** [fetchPluginYAML]: (yamlData, parsedSourceURL, isLocalSource,
    sourceNameForLog). *)
Definition fetchPluginYAML (pm : PluginManager) (source : string)
    : M (string * option URL.t * bool * string) :=
  match url_ParseRequestURI source ≫= (λ u, if themes.isHTTP u then Some u else None) with
  | Some parsedSourceURL =>
    let sourceNameForLog := URL.String parsedSourceURL in
    logf "Fetching plugin definition from URL: %s" [sourceNameForLog] >>
    let* resp := http_Get sourceNameForLog iferr httpErr =>
      fail (Wrapf "failed to fetch plugin definition from '%s': %w" [sourceNameForLog] httpErr) in
    if negb (Response.StatusCode resp =? 200) then
      fail (Errorf "failed to fetch plugin definition from '%s': status %s"
                   [sourceNameForLog; Response.Status resp])
    else
      let limitedReader := LimitedReader.mk (Response.Body resp) maxYAMLSize in
      let* '(yamlData, limitedReader) := io_ReadAll_limited sourceNameForLog limitedReader
        iferr err =>
        fail (Wrapf "failed to read plugin definition from '%s': %w" [sourceNameForLog] err) in
      if LimitedReader.N limitedReader =? 0 then
        fail (Errorf "plugin definition file from '%s' exceeds maximum allowed size of %d bytes"
                     [sourceNameForLog; pretty maxYAMLSize])
      else ret (yamlData, Some parsedSourceURL, false, sourceNameForLog)
  | None =>
    let sourcePath := filepath_Clean source in
    logf "Reading plugin definition from local path: %s" [sourcePath] >>
    let* statErr := attempt (os_Stat sourcePath) in
    match statErr with
    | Some err =>
      if os_IsNotExist err then
        fail (Errorf "source '%s' is not a valid URL and file not found at local path" [source])
      else fail (Wrapf "error checking local path '%s': %w" [sourcePath] err)
    | None =>
      let* yamlData := os_ReadFile sourcePath iferr err =>
        fail (Wrapf "failed to read plugin definition from local path '%s': %w" [sourcePath] err) in
      ret (themes.textOf yamlData, url_ParseRequestURI source, true, sourcePath)
    end
  end.

(** The download of one file of a plugin: every failure is logged and the
    file skipped. *)
Definition downloadFile (currentLocalItemSavePath itemPathForLogAndURL fileURLString : string)
    (baseURL : option URL.t) (isLocalSource : bool) : M unit :=
  logf "  [%d/%d] Downloading '%s'..." [itemPathForLogAndURL] >>
  let finalFileURL :=
    match baseURL with
    | Some base => url_ResolveReference base <$> url_Parse fileURLString
    | None => url_ParseRequestURI fileURLString
    end in
  match finalFileURL with
  | None =>
    logf "  [%d/%d] Downloading '%s'... Error parsing URL. Skipping." [itemPathForLogAndURL]
  | Some finalFileURL =>
    let* resp := http_Get (URL.String finalFileURL) iferr err =>
      logf "  [%d/%d] Downloading '%s'... Error: %v" [itemPathForLogAndURL] in
    if negb (Response.StatusCode resp =? 200) then
      logf "  [%d/%d] Downloading '%s'... Error: status %s"
           [itemPathForLogAndURL; Response.Status resp]
    else
    let dirPath := filepath_Dir currentLocalItemSavePath in
    let* _ := os_MkdirAll dirPath iferr err =>
      logf "  [%d/%d] Downloading '%s'... Error creating directory %s: %v"
           [itemPathForLogAndURL; dirPath] in
    let* _ := os_Create currentLocalItemSavePath iferr err =>
      logf "  [%d/%d] Downloading '%s'... Error creating file %s: %v"
           [itemPathForLogAndURL; currentLocalItemSavePath] in
    let* copyErr := attempt (io_Copy currentLocalItemSavePath (Response.Body resp)) in
    let* closeErr := attempt (file_Close currentLocalItemSavePath) in
    match copyErr with
    | Some err =>
      logf "  [%d/%d] Downloading '%s'... Error saving file: %v" [itemPathForLogAndURL] >>
      ignore (os_Remove currentLocalItemSavePath)
    | None =>
      (match closeErr with
       | Some err => logf "  [%d/%d] Downloading '%s'... Error closing file: %v" [itemPathForLogAndURL]
       | None => ret tt
       end) >>
      logf "  [%d/%d] Downloading '%s'... Done." [itemPathForLogAndURL]
    end
  end.

(** [downloadAndSavePluginStructure]; [downloadItem] is the body of its
    type switch, [absBaseSavePath] the absolute path computed on entry. *)
Fixpoint downloadItems (baseSavePath absBaseSavePath currentRelativePath : string)
    (structure : Structure) (baseURL : option URL.t) (isLocalSource : bool)
    {struct structure} : M unit :=
  match structure with
  | SNil => ret tt
  | SCons name item rest =>
    downloadItem baseSavePath absBaseSavePath currentRelativePath name item baseURL isLocalSource >>
    downloadItems baseSavePath absBaseSavePath currentRelativePath rest baseURL isLocalSource
  end
with downloadItem (baseSavePath absBaseSavePath currentRelativePath name : string)
    (item : Value) (baseURL : option URL.t) (isLocalSource : bool) {struct item} : M unit :=
  let currentLocalItemSavePath :=
    filepath_Join (filepath_Join baseSavePath currentRelativePath) name in
  let itemPathForLogAndURL := filepath_Join currentRelativePath name in
  match item with
  | VString v =>
    downloadFile currentLocalItemSavePath itemPathForLogAndURL v baseURL isLocalSource
  | VMap v =>
    match filepath_Abs currentLocalItemSavePath with
    | None =>
      logf "Warning: Could not get absolute path for subdirectory '%s': %v. Skipping."
           [currentLocalItemSavePath]
    | Some absSubDirPath =>
      if negb (inside absBaseSavePath absSubDirPath) then
        logf "Warning: Subdirectory path '%s' resolves outside base directory '%s'. Skipping."
             [currentLocalItemSavePath; absBaseSavePath]
      else
        let* _ := os_MkdirAll currentLocalItemSavePath iferr err =>
          fail (Wrapf "failed to create sub-directory '%s': %w" [currentLocalItemSavePath] err) in
        match filepath_Abs baseSavePath with
        | None =>
          fail (Wrapf "failed to get absolute path for base save directory '%s': %w"
                      [baseSavePath] (SyntaxError "path"))
        | Some absBaseSavePath' =>
          downloadItems baseSavePath absBaseSavePath' itemPathForLogAndURL v baseURL isLocalSource
        end
    end
  | _ =>
    fail (Errorf "invalid type for '%s' in plugin structure: expected string (URL/path) or map (sub-directory)" [name])
  end.

Definition downloadAndSavePluginStructure (pm : PluginManager)
    (baseSavePath currentRelativePath : string) (structure : Structure)
    (baseURL : option URL.t) (isLocalSource : bool) : M unit :=
  match filepath_Abs baseSavePath with
  | None =>
    fail (Wrapf "failed to get absolute path for base save directory '%s': %w"
                [baseSavePath] (SyntaxError "path"))
  | Some absBaseSavePath =>
    downloadItems baseSavePath absBaseSavePath currentRelativePath structure baseURL isLocalSource
  end.

Definition exactMatch (meta : PluginMetadata.t) (entry : InstalledPluginEntry.t) : bool :=
  String.eqb (InstalledPluginEntry.SourceLink entry) (PluginMetadata.SourceLink meta)
  && String.eqb (InstalledPluginEntry.Version entry) (PluginMetadata.Version meta).

(** The test made on the target directory before it is touched. *)
Definition checkTarget (pm : PluginManager) (targetPluginPath : string)
    (outside : Error) : M unit :=
  match filepath_Abs (pluginDir pm) with
  | None =>
    fail (Wrapf "could not get absolute path for base plugin directory: %w" [] (SyntaxError "path"))
  | Some absPluginDir =>
    match filepath_Abs targetPluginPath with
    | None =>
      fail (Wrapf "could not get absolute path for target plugin directory: %w" []
                  (SyntaxError "path"))
    | Some absTargetPluginPath =>
      if negb (inside absPluginDir absTargetPluginPath) then fail outside else ret tt
    end
  end.

(** [InstallPlugin]. *)
Definition InstallPlugin (pm : PluginManager) (source : string) (force : bool)
    : M PluginMetadata.t :=
  withLock PluginManager_mu (
    logf "Fetching definition from source." [] >>
    let* '(yamlData, parsedSourceURL, isLocalSource, sourceNameForLog) :=
      fetchPluginYAML pm source iferr err =>
      fail (Wrapf "failed to fetch plugin definition: %w" [] err) in
    logf "Processing definition." [] >>
    match yaml_Unmarshal_PluginMetadata yamlData with
    | None =>
      logf "Installation failed for plugin from source '%s'." [sourceNameForLog] >>
      fail (Wrapf "failed to parse plugin YAML from '%s': %w" [sourceNameForLog]
                  (SyntaxError "yaml"))
    | Some meta =>
    match Validate meta with
    | Some err =>
      logf "Installation failed for plugin '%s'." [PluginMetadata.Name meta] >>
      fail (Wrapf "invalid plugin metadata from '%s': %w" [sourceNameForLog] err)
    | None =>
    logf "Starting installation for plugin '%s' (v%s)."
         [PluginMetadata.Name meta; PluginMetadata.Version meta] >>
    let* pluginsState := configuration.LoadPluginsState [] iferr err =>
      (logf "Installation failed for plugin '%s'." [PluginMetadata.Name meta] >>
       fail (Wrapf "failed to load plugins state: %w" [] err)) in
    let canonicalSourceLink := PluginMetadata.SourceLink meta in
    if String.eqb canonicalSourceLink "" then
      logf "Installation failed for plugin '%s'." [PluginMetadata.Name meta] >>
      fail (Errorf "critical error: plugin metadata SourceLink is empty after validation (source: %s)"
                   [sourceNameForLog])
    else
    let existingLocalDirForExactMatch :=
      match list_find (λ kv, exactMatch meta kv.2 = true) (rangeMap pluginsState) with
      | Some (_, (localDir, _)) => localDir
      | None => ""
      end in
    let* '(action, targetDirName) :=
      if negb (String.eqb existingLocalDirForExactMatch "") then
        if negb force then
          logf "Checking local status: Plugin '%s' (v%s) already exists at '%s'. Installation aborted. To re-install this version, use --force."
               [PluginMetadata.Name meta; PluginMetadata.Version meta;
                filepath_Join (pluginDir pm) existingLocalDirForExactMatch] >>
          ret (ActionErrorExists, "")
        else
          logf "Checking local status: Plugin '%s' (v%s) already exists. Force mode enabled. Proceeding with re-installation."
               [PluginMetadata.Name meta; PluginMetadata.Version meta] >>
          ret (ActionOverwrite, existingLocalDirForExactMatch)
      else
        (match list_find (λ kv, String.eqb (InstalledPluginEntry.SourceLink kv.2)
                                           canonicalSourceLink = true)
                         (rangeMap pluginsState) with
         | Some _ =>
           logf "Checking local status: Other versions of plugin '%s' found. Installing specified version '%s'."
                [PluginMetadata.Name meta; PluginMetadata.Version meta]
         | None =>
           logf "Checking local status: Plugin '%s' (v%s) not found locally. Proceeding with new installation."
                [PluginMetadata.Name meta; PluginMetadata.Version meta]
         end) >>
        ret (ActionInstallNew, "") in
    if decide (action = ActionErrorExists) then
      fail (Errorf "plugin '%s' version '%s' already exists. Use --force to re-install this version"
                   [PluginMetadata.Name meta; PluginMetadata.Version meta])
    else
    let* targetDirName :=
      if decide (action = ActionInstallNew) then
        let* newDirID := PluginID iferr idErr =>
          (logf "Installation failed for plugin '%s'." [PluginMetadata.Name meta] >>
           fail (Wrapf "failed to generate unique directory name for plugin '%s': %w"
                       [PluginMetadata.Name meta] idErr)) in
        ret newDirID
      else ret targetDirName in
    let targetPluginPath := filepath_Join (pluginDir pm) targetDirName in
    checkTarget pm targetPluginPath
      (Errorf "generated target directory '%s' resolves outside of base plugin directory"
              [targetDirName]) >>
    (if decide (action = ActionOverwrite) then
       logf "Removing existing plugin directory '%s' for overwrite." [targetPluginPath] >>
       let* _ := os_RemoveAll targetPluginPath iferr err =>
         fail (Wrapf "failed to remove existing plugin directory '%s' for force reinstall: %w"
                     [targetPluginPath] err) in
       ret tt
     else ret tt) >>
    logf "Creating plugin directory: %s" [targetPluginPath] >>
    let* _ := os_MkdirAll targetPluginPath iferr err =>
      fail (Wrapf "failed to create plugin directory '%s': %w" [targetPluginPath] err) in
    let baseURLForStructure := if negb isLocalSource then parsedSourceURL else None in
    logf "Downloading %d assets:" [pretty (countFilesInStructure (PluginMetadata.Structure meta))] >>
    let* _ := downloadAndSavePluginStructure pm targetPluginPath ""
                (PluginMetadata.Structure meta) baseURLForStructure isLocalSource iferr err =>
      ((if decide (action = ActionInstallNew) then ignore (os_RemoveAll targetPluginPath)
        else ret tt) >>
       logf "Installation failed for plugin '%s'." [PluginMetadata.Name meta] >>
       fail (Wrapf "failed to download plugin structure for '%s': %w"
                   [PluginMetadata.Name meta] err)) in
    logf "All assets downloaded successfully." [] >>
    let localMetaPath := filepath_Join targetPluginPath pluginMetaFile in
    let* _ := os_WriteFile localMetaPath (Bytes yamlData) iferr err =>
      ((if decide (action = ActionInstallNew) then ignore (os_RemoveAll targetPluginPath)
        else ret tt) >>
       logf "Installation failed for plugin '%s'." [PluginMetadata.Name meta] >>
       fail (Wrapf "failed to write local %s for plugin '%s': %w"
                   [pluginMetaFile; PluginMetadata.Name meta] err)) in
    let* pluginsState :=
      mapSet pluginsState targetDirName
        (InstalledPluginEntry.mk targetDirName (PluginMetadata.Name meta)
           (PluginMetadata.Version meta) canonicalSourceLink) in
    let* _ := configuration.SavePluginsState pluginsState [] iferr err =>
      (logf "CRITICAL: Plugin '%s' files installed to '%s', but FAILED TO SAVE STATE to plugins.json: %v. Manual correction may be needed."
            [PluginMetadata.Name meta; targetPluginPath] >>
       failWith meta (Wrapf "plugin installed but failed to save state: %w" [] err)) in
    (if decide (action = ActionOverwrite) then
       logf "Plugin '%s' (v%s) (re-)installed to '%s'."
            [PluginMetadata.Name meta; PluginMetadata.Version meta; targetPluginPath]
     else
       logf "Plugin '%s' (v%s) installed to '%s'."
            [PluginMetadata.Name meta; PluginMetadata.Version meta; targetPluginPath]) >>
    ret meta
    end end).

(** [UpdatePlugin].  A call that finds nothing to do returns no manifest. *)
Definition UpdatePlugin (pm : PluginManager) (pluginID : string)
    : M (option PluginMetadata.t) :=
  withLock PluginManager_mu (
    logf "Attempting to update plugin with ID: %s" [pluginID] >>
    let* pluginsState := configuration.LoadPluginsState [] iferr err =>
      (logf "Update failed for plugin ID '%s'." [pluginID] >>
       fail (Wrapf "failed to load plugins state: %w" [] err)) in
    match mapGet pluginsState pluginID with
    | None =>
      logf "No versions of plugin with ID '%s' found locally. Cannot update. To install, use the install command."
           [pluginID] >>
      fail (Errorf "plugin with ID '%s' not found in installed state" [pluginID])
    | Some currentEntry =>
    logf "Latest local version of plugin '%s' is '%s' at '%s'."
         [InstalledPluginEntry.Name currentEntry; InstalledPluginEntry.Version currentEntry;
          filepath_Join (pluginDir pm) pluginID] >>
    let* '(latestYAMLData, latestParsedSourceURL, latestIsLocalSource, latestSourceNameForLog) :=
      fetchPluginYAML pm (InstalledPluginEntry.SourceLink currentEntry) iferr fetchErr =>
      (logf "Update failed for plugin '%s'." [InstalledPluginEntry.Name currentEntry] >>
       fail (Wrapf "failed to fetch latest plugin definition from '%s' for update: %w"
                   [InstalledPluginEntry.SourceLink currentEntry] fetchErr)) in
    match yaml_Unmarshal_PluginMetadata latestYAMLData with
    | None =>
      logf "Update failed for plugin '%s'." [InstalledPluginEntry.Name currentEntry] >>
      fail (Wrapf "failed to parse latest plugin YAML from '%s' for update: %w"
                  [latestSourceNameForLog] (SyntaxError "yaml"))
    | Some latestMeta =>
    match Validate latestMeta with
    | Some err =>
      logf "Update failed for plugin '%s'." [InstalledPluginEntry.Name currentEntry] >>
      fail (Wrapf "invalid latest plugin metadata from '%s' for update: %w"
                  [latestSourceNameForLog] err)
    | None =>
    logf "  Remote version: '%s'." [PluginMetadata.Version latestMeta] >>
    if String.eqb (InstalledPluginEntry.Version currentEntry) (PluginMetadata.Version latestMeta)
    then
      logf "Plugin '%s' (v%s) is already the latest version. No update performed."
           [InstalledPluginEntry.Name currentEntry; InstalledPluginEntry.Version currentEntry] >>
      ret None
    else
    logf "New version '%s' available for plugin '%s'. Current latest is '%s'."
         [PluginMetadata.Version latestMeta; PluginMetadata.Name latestMeta;
          InstalledPluginEntry.Version currentEntry] >>
    let targetPluginPath := filepath_Join (pluginDir pm) pluginID in
    checkTarget pm targetPluginPath
      (Errorf "target directory '%s' for update resolves outside of base plugin directory"
              [pluginID]) >>
    logf "Removing existing plugin directory '%s' for update." [targetPluginPath] >>
    let* _ := os_RemoveAll targetPluginPath iferr err =>
      fail (Wrapf "failed to remove existing plugin directory '%s' for update: %w"
                  [targetPluginPath] err) in
    logf "Creating plugin directory: %s" [targetPluginPath] >>
    let* _ := os_MkdirAll targetPluginPath iferr err =>
      fail (Wrapf "failed to re-create plugin directory '%s' for update: %w"
                  [targetPluginPath] err) in
    let baseURLForStructure := if negb latestIsLocalSource then latestParsedSourceURL else None in
    logf "Downloading assets for plugin '%s' (v%s):"
         [PluginMetadata.Name latestMeta; PluginMetadata.Version latestMeta] >>
    let* _ := downloadAndSavePluginStructure pm targetPluginPath ""
                (PluginMetadata.Structure latestMeta) baseURLForStructure latestIsLocalSource
      iferr err =>
      (logf "Update failed for plugin '%s'." [InstalledPluginEntry.Name currentEntry] >>
       fail (Wrapf "failed to download updated plugin structure for '%s': %w. Plugin may be in a broken state."
                   [PluginMetadata.Name latestMeta] err)) in
    let localMetaPath := filepath_Join targetPluginPath pluginMetaFile in
    let* _ := os_WriteFile localMetaPath (Bytes latestYAMLData) iferr err =>
      (logf "Update failed for plugin '%s'." [InstalledPluginEntry.Name currentEntry] >>
       fail (Wrapf "failed to write updated local %s for plugin '%s': %w"
                   [pluginMetaFile; PluginMetadata.Name latestMeta] err)) in
    let* pluginsState :=
      mapSet pluginsState pluginID
        (InstalledPluginEntry.mk pluginID (PluginMetadata.Name latestMeta)
           (PluginMetadata.Version latestMeta) (InstalledPluginEntry.SourceLink currentEntry)) in
    let* saveErr := attempt (configuration.SavePluginsState pluginsState []) in
    (match saveErr with
     | Some err =>
       logf "Warning: Failed to save updated plugins state after update for plugin ID '%s': %v"
            [pluginID]
     | None => ret tt
     end) >>
    logf "Plugin '%s' updated to v%s, installed to '%s'."
         [PluginMetadata.Name latestMeta; PluginMetadata.Version latestMeta; targetPluginPath] >>
    ret (Some latestMeta)
    end end end).

(** [RemovePlugin]. *)
Definition RemovePlugin (pm : PluginManager) (pluginID : string) : M unit :=
  withLock PluginManager_mu (
    logf "Attempting to remove plugin with ID: %s" [pluginID] >>
    let* pluginsState := configuration.LoadPluginsState [] iferr err =>
      (logf "Removal failed for plugin ID '%s'." [pluginID] >>
       fail (Wrapf "failed to load plugins state: %w" [] err)) in
    match mapGet pluginsState pluginID with
    | None =>
      logf "Plugin with ID '%s' not found. No action taken." [pluginID] >>
      fail (Errorf "plugin with ID '%s' not found in installed state" [pluginID])
    | Some entry =>
    let pluginName := InstalledPluginEntry.Name entry in
    let pluginVersion := InstalledPluginEntry.Version entry in
    let targetPluginPath := filepath_Join (pluginDir pm) pluginID in
    checkTarget pm targetPluginPath
      (Errorf "target directory '%s' for removal resolves outside of base plugin directory"
              [pluginID]) >>
    logf "Removing plugin '%s' (v%s) from '%s'." [pluginName; pluginVersion; targetPluginPath] >>
    let* rmErr := attempt (os_RemoveAll targetPluginPath) in
    (match rmErr with
     | Some err =>
       if os_IsNotExist err then
         logf "Plugin directory '%s' did not exist." [targetPluginPath]
       else
         logf "Removal failed for plugin '%s'." [pluginName] >>
         fail (Wrapf "failed to remove plugin directory '%s': %w" [targetPluginPath] err)
     | None => ret tt
     end) >>
    let pluginsState := mapDelete pluginsState pluginID in
    let* _ := configuration.SavePluginsState pluginsState [] iferr err =>
      (logf "Warning: Plugin directory for '%s' (ID: %s) removed, but failed to save updated plugins state: %v"
            [pluginName; pluginID] >>
       fail (Wrapf "plugin directory removed, but failed to save state: %w" [] err)) in
    logf "Plugin '%s' (v%s) removed." [pluginName; pluginVersion]
    end).


(** *** More of the package's API *)

(** [PluginMetadata.IsValid]. *)
Definition IsValid (m : PluginMetadata.t) : bool :=
  negb (String.eqb (PluginMetadata.Name m) "")
  && (0 <? Z.of_nat (length (PluginMetadata.Authors m)))
  && negb (String.eqb (PluginMetadata.Version m) "")
  && negb (String.eqb (PluginMetadata.Description m) "")
  && negb (String.eqb (PluginMetadata.SourceLink m) "")
  && negb (String.eqb (PluginMetadata.APIVersion m) "")
  && (0 <? slen (PluginMetadata.Structure m)).

(** [ListInstalledPlugins]: the entries in the order in which the map is
    visited; on an error the list is empty, not nil. *)
Definition ListInstalledPlugins (pm : PluginManager) : M (list InstalledPluginEntry.t) :=
  logf "Listing installed plugins from state file..." [] >>
  let* pluginsState := configuration.LoadPluginsState [] iferr err =>
    (logf "Error loading plugins state for listing: %v" [] >>
     failWith [] (Wrapf "failed to load plugins state: %w" [] err)) in
  let list := snd <$> rangeMap pluginsState in
  logf "Found %d installed plugins in state." [pretty (Z.of_nat (length list))] >>
  ret list.

End plugins.
End plugins.

(* ================================================================== *)
(** ** package commands *)
(* ================================================================== *)

Module commands.
Section commands.
Context `{Externals}.

Inductive ActionType :=
  ActionInstallNew | ActionOverwrite | ActionErrorExists | ActionErrorConflict.

Global Instance ActionType_eq_dec : EqDecision ActionType.
Proof. solve_decision. Defined.

Definition defaultCommandDir : string := "ext/commands".

Record CommandManager := { commandDir : string }.

(** One turn of the loop of [discoverCommands]: the entry is skipped when
    its script is missing or unreadable, has no metadata, is not valid, or
    repeats a command name. *)
Definition discoverEntry (cm : CommandManager) (filename : string)
    (entry : InstalledCommandEntry.t) : M unit :=
  let filePath := filepath_Join (commandDir cm) filename in
  let* _ := os_Stat filePath iferr statErr =>
    logf "Warning: Command script file '%s' referenced in state does not exist or cannot be checked. Skipping."
         [filePath] in
  let* data := os_ReadFile filePath iferr err =>
    logf "Warning: Failed to parse metadata from command script '%s': %v. Skipping." [filePath] in
  match parseCommandMetadata filePath data with
  | inl parseErr =>
    logf "Warning: Failed to parse metadata from command script '%s': %v. Skipping." [filePath]
  | inr meta =>
    let meta := CommandMetadata.withFilePath filePath meta in
    if negb (CommandMetadata.IsValid meta) then
      logf "Warning: Command script '%s' has invalid metadata according to IsValid(). Skipping."
           [filePath]
    else
      let* w := get in
      match commandsCache w !! CommandMetadata.Command meta with
      | Some existingMeta =>
        logf "Warning: Duplicate command name '%s' defined in script '%s'. It conflicts with script '%s'. Skipping '%s'."
             [CommandMetadata.Command meta; filename; CommandMetadata.FilePath existingMeta; filename]
      | None =>
        modify (λ w, setCommandsCache (<[CommandMetadata.Command meta := meta]> (commandsCache w)) w)
      end
  end.

Fixpoint discoverEntries (cm : CommandManager)
    (entries : list (string * InstalledCommandEntry.t)) : M unit :=
  match entries with
  | [] => ret tt
  | (filename, entry) :: rest => discoverEntry cm filename entry >> discoverEntries cm rest
  end.

(** [discoverCommands].  It takes the manager's mutex itself. *)
Definition discoverCommands (cm : CommandManager) : M unit :=
  withLock CommandManager_mu (
    modify (setCommandsCache ∅) >>
    let* commandsState :=
      try (configuration.LoadCommandsState [])
          (λ err, logf "Error loading commands state: %v. Command discovery will be incomplete." [] >>
                  ret (Some ∅)) in
    logf "Discovering commands based on state file..." [] >>
    discoverEntries cm (rangeMap commandsState) >>
    logf "Finished command discovery. Found %d valid commands." []).

(** [cm.mu.RLock()] ... [cm.mu.RUnlock()] around a read of the cache. *)
Definition lookupCommand (name : string) : M (option CommandMetadata.t) :=
  withLock CommandManager_mu (let* w := get in ret (commandsCache w !! name)).

(** The fetch at the head of [InstallCommand]: (scriptData,
    sourceNameForLog). *)
Definition fetchForInstall (source : string) : M (string * string) :=
  match url_ParseRequestURI source ≫= (λ u, if themes.isHTTP u then Some u else None) with
  | Some parsedSourceURL =>
    let sourceNameForLog := URL.String parsedSourceURL in
    logf "Fetching definition from source." [] >>
    let* resp := http_Get sourceNameForLog iferr httpErr =>
      fail (Wrapf "failed to fetch command script from '%s': %w" [sourceNameForLog] httpErr) in
    if negb (Response.StatusCode resp =? 200) then
      fail (Errorf "failed to fetch command script from '%s': status %s"
                   [sourceNameForLog; Response.Status resp])
    else
      let* scriptData := io_ReadAll sourceNameForLog (Response.Body resp) iferr err =>
        fail (Wrapf "failed to read command script from '%s': %w" [sourceNameForLog] err) in
      ret (scriptData, sourceNameForLog)
  | None =>
    let sourceNameForLog := filepath_Clean source in
    logf "Fetching definition from source." [] >>
    let* statErr := attempt (os_Stat sourceNameForLog) in
    match statErr with
    | Some err =>
      if os_IsNotExist err then
        fail (Errorf "source '%s' is not a valid URL and file not found at local path" [source])
      else fail (Wrapf "error checking local path '%s': %w" [sourceNameForLog] err)
    | None =>
      let* scriptData := os_ReadFile sourceNameForLog iferr err =>
        fail (Wrapf "failed to read command script from local path '%s': %w"
                    [sourceNameForLog] err) in
      ret (themes.textOf scriptData, sourceNameForLog)
    end
  end.

(** The decision of [InstallCommand] once the state is loaded. *)
Definition determineAction (meta : CommandMetadata.t) (force : bool)
    (targetFilename : string) (commandsState : GoMap InstalledCommandEntry.t)
    : M ActionType :=
  match mapGet commandsState targetFilename with
  | Some existingEntry =>
    if String.eqb (InstalledCommandEntry.SourceLink existingEntry) (CommandMetadata.SourceLink meta)
       && String.eqb (InstalledCommandEntry.Version existingEntry) (CommandMetadata.Version meta)
    then
      if negb force then
        logf "Checking local status: Command '%s' (v%s) already exists as '%s'. Installation aborted. To re-install this version, use --force."
             [CommandMetadata.Command meta; CommandMetadata.Version meta; targetFilename] >>
        ret ActionErrorExists
      else
        logf "Checking local status: Command '%s' (v%s) already exists as '%s'. Force mode enabled. Proceeding with re-installation."
             [CommandMetadata.Command meta; CommandMetadata.Version meta; targetFilename] >>
        ret ActionOverwrite
    else if String.eqb (InstalledCommandEntry.SourceLink existingEntry)
                       (CommandMetadata.SourceLink meta) then
      logf "Checking local status: Conflict - Command '%s' (SourceLink: '%s') version '%s' is installed as '%s'. Cannot install version '%s' with the same filename."
           [InstalledCommandEntry.Name existingEntry; InstalledCommandEntry.SourceLink existingEntry;
            InstalledCommandEntry.Version existingEntry; targetFilename;
            CommandMetadata.Version meta] >>
      ret ActionErrorConflict
    else
      logf "Checking local status: Conflict - File '%s' is already used by command '%s' (SourceLink: '%s'). Cannot install command '%s' (SourceLink: '%s') with the same filename."
           [targetFilename; InstalledCommandEntry.Name existingEntry;
            InstalledCommandEntry.SourceLink existingEntry; CommandMetadata.Command meta;
            CommandMetadata.SourceLink meta] >>
      ret ActionErrorConflict
  | None =>
    logf "Checking local status: Command '%s' (v%s) not found locally. Proceeding with new installation."
         [CommandMetadata.Command meta; CommandMetadata.Version meta] >>
    ret ActionInstallNew
  end.

Definition checkTarget (cm : CommandManager) (targetFilePath : string)
    (outside : Error) : M unit :=
  match filepath_Abs (commandDir cm) with
  | None =>
    fail (Wrapf "could not get absolute path for base command directory: %w" [] (SyntaxError "path"))
  | Some absCommandDir =>
    match filepath_Abs targetFilePath with
    | None =>
      fail (Wrapf "could not get absolute path for target command file: %w" []
                  (SyntaxError "path"))
    | Some absTargetFilePath =>
      if negb (inside absCommandDir absTargetFilePath) then fail outside else ret tt
    end
  end.

(** [InstallCommand]. *)
Definition InstallCommand (cm : CommandManager) (source : string) (force : bool)
    : M CommandMetadata.t :=
  withLock CommandManager_mu (
    let* '(scriptData, sourceNameForLog) := fetchForInstall source in
    logf "Processing definition." [] >>
    match parseCommandMetadataFromBytes scriptData with
    | inl err =>
      logf "Installation failed for command from source '%s'." [sourceNameForLog] >>
      fail (Wrapf "failed to parse command metadata from source '%s': %w" [sourceNameForLog] err)
    | inr meta =>
    logf "Starting installation for command '%s' (v%s)."
         [CommandMetadata.Command meta; CommandMetadata.Version meta] >>
    let* commandsState := configuration.LoadCommandsState [] iferr err =>
      fail (Wrapf "failed to load commands state: %w" [] err) in
    let targetFilename := CommandMetadata.Command meta +:+ ".sh" in
    if ContainsAny targetFilename pathSeparators then
      fail (Errorf "invalid command name '%s': cannot contain path separators"
                   [CommandMetadata.Command meta])
    else
    let* action := determineAction meta force targetFilename commandsState in
    if decide (action = ActionErrorExists) then
      fail (Errorf "command '%s' version '%s' already exists. Use --force to overwrite"
                   [CommandMetadata.Command meta; CommandMetadata.Version meta])
    else if decide (action = ActionErrorConflict) then
      fail (Errorf "filename conflict for '%s'. See logs for details" [targetFilename])
    else
    let targetFilePath := filepath_Join (commandDir cm) targetFilename in
    let meta := CommandMetadata.withFilePath targetFilePath meta in
    if negb (CommandMetadata.IsValid meta) then
      fail (Errorf "invalid command metadata from source '%s' after setting FilePath (check mandatory fields)"
                   [sourceNameForLog])
    else
    checkTarget cm targetFilePath
      (Errorf "generated target file path '%s' resolves outside of base command directory '%s'"
              [targetFilename; commandDir cm]) >>
    logf "Writing command script to: %s" [targetFilePath] >>
    let* _ := os_WriteFile targetFilePath (Bytes scriptData) iferr err =>
      (logf "Installation failed for command '%s'." [CommandMetadata.Command meta] >>
       fail (Wrapf "failed to write command script file '%s': %w" [targetFilePath] err)) in
    let* commandsState :=
      mapSet commandsState targetFilename
        (InstalledCommandEntry.mk targetFilename (CommandMetadata.Command meta)
           (CommandMetadata.Version meta) (CommandMetadata.SourceLink meta)) in
    let* _ := configuration.SaveCommandsState commandsState [] iferr err =>
      (logf "CRITICAL: Command script '%s' installed, but FAILED TO SAVE STATE to commands.json: %v. Manual correction may be needed."
            [targetFilename] >>
       failWith meta (Wrapf "command installed but failed to save state: %w" [] err)) in
    (if decide (action = ActionOverwrite) then
       logf "Command '%s' re-installed to '%s'." [CommandMetadata.Command meta; targetFilePath]
     else
       logf "Command '%s' installed to '%s'." [CommandMetadata.Command meta; targetFilePath]) >>
    discoverCommands cm >>
    let* finalMeta := lookupCommand (CommandMetadata.Command meta) in
    match finalMeta with
    | None =>
      fail (Errorf "internal error: command '%s' installed but not found in manager after discovery"
                   [CommandMetadata.Command meta])
    | Some finalMeta => ret finalMeta
    end
    end).

(** [RemoveCommand]. *)
Definition RemoveCommand (cm : CommandManager) (commandName : string) : M unit :=
  withLock CommandManager_mu (
    logf "Attempting to remove command '%s'." [commandName] >>
    let* w := get in
    match commandsCache w !! commandName with
    | None =>
      logf "Command '%s' not found. No action taken." [commandName] >>
      fail (Errorf "command '%s' not found or not currently managed" [commandName])
    | Some currentMeta =>
    let targetFilePath := CommandMetadata.FilePath currentMeta in
    let targetFilename := filepath_Base targetFilePath in
    let* commandsState := configuration.LoadCommandsState [] iferr err =>
      (logf "Removal failed for command '%s'." [commandName] >>
       fail (Wrapf "failed to load commands state: %w" [] err)) in
    let stateExists := bool_decide (is_Some (mapGet commandsState targetFilename)) in
    (if negb stateExists then
       logf "Warning: Command '%s' found in manager (file: %s), but its filename '%s' not found in state file."
            [commandName; targetFilePath; targetFilename]
     else ret tt) >>
    checkTarget cm targetFilePath
      (Errorf "target file path '%s' for removal resolves outside of base command directory '%s'"
              [targetFilePath; commandDir cm]) >>
    logf "Removing command '%s' from '%s'." [commandName; targetFilePath] >>
    let* rmErr := attempt (os_Remove targetFilePath) in
    (match rmErr with
     | Some err =>
       if os_IsNotExist err then
         logf "Command file '%s' did not exist." [targetFilePath]
       else
         logf "Removal failed for command '%s'." [commandName] >>
         fail (Wrapf "failed to remove command script file '%s': %w" [targetFilePath] err)
     | None => ret tt
     end) >>
    (if stateExists then
       let commandsState := mapDelete commandsState targetFilename in
       let* _ := configuration.SaveCommandsState commandsState [] iferr err =>
         (logf "Warning: Command file for '%s' removed, but failed to save updated commands state: %v"
               [commandName] >>
          fail (Wrapf "command file removed, but failed to save state: %w" [] err)) in
       ret tt
     else
       logf "Command file '%s' removed (or did not exist), state file was not modified as entry was missing."
            [targetFilePath]) >>
    logf "Command '%s' removed." [commandName] >>
    discoverCommands cm
    end).


(** *** The rest of the manager *)

(** [GetCommandCount]. *)
Definition GetCommandCount (cm : CommandManager) : M Z :=
  withLock CommandManager_mu (let* w := get in ret (Z.of_nat (size (commandsCache w)))).

(** [ListInstalledCommands]. *)
Definition ListInstalledCommands (cm : CommandManager) : M (list CommandMetadata.t) :=
  withLock CommandManager_mu (
    logf "Listing installed commands from internal map..." [] >>
    let* w := get in
    let list := snd <$> range (commandsCache w) in
    logf "Found %d installed commands." [pretty (Z.of_nat (length list))] >>
    ret list).

(** [fetchCommandScript]: (scriptData, parsedSourceURL, isLocalSource,
    sourceNameForLog). *)
Definition fetchCommandScript (cm : CommandManager) (source : string)
    : M (string * option URL.t * bool * string) :=
  match url_ParseRequestURI source ≫= (λ u, if themes.isHTTP u then Some u else None) with
  | Some parsedSourceURL =>
    let sourceNameForLog := URL.String parsedSourceURL in
    logf "Fetching command script from URL: %s" [sourceNameForLog] >>
    let* resp := http_Get sourceNameForLog iferr httpErr =>
      fail (Wrapf "failed to fetch command script from '%s': %w" [sourceNameForLog] httpErr) in
    if negb (Response.StatusCode resp =? 200) then
      fail (Errorf "failed to fetch command script from '%s': status %s"
                   [sourceNameForLog; Response.Status resp])
    else
      let* scriptData := io_ReadAll sourceNameForLog (Response.Body resp) iferr err =>
        fail (Wrapf "failed to read command script from '%s': %w" [sourceNameForLog] err) in
      ret (scriptData, Some parsedSourceURL, false, sourceNameForLog)
  | None =>
    let sourcePath := filepath_Clean source in
    logf "Reading command script from local path: %s" [sourcePath] >>
    let* statErr := attempt (os_Stat sourcePath) in
    match statErr with
    | Some err =>
      if os_IsNotExist err then
        fail (Errorf "source '%s' is not a valid URL and file not found at local path" [source])
      else fail (Wrapf "error checking local path '%s': %w" [sourcePath] err)
    | None =>
      let* scriptData := os_ReadFile sourcePath iferr err =>
        fail (Wrapf "failed to read command script from local path '%s': %w" [sourcePath] err) in
      ret (themes.textOf scriptData, url_ParseRequestURI source, true, sourcePath)
    end
  end.

(** [UpdateCommand]. *)
Definition UpdateCommand (cm : CommandManager) (commandName : string)
    : M CommandMetadata.t :=
  withLock CommandManager_mu (
    logf "Attempting to update command '%s'." [commandName] >>
    let* w := get in
    match commandsCache w !! commandName with
    | None =>
      logf "Command '%s' not found locally. Cannot update. To install, use the install command."
           [commandName] >>
      fail (Errorf "command '%s' is not currently installed or managed" [commandName])
    | Some currentMeta =>
    logf "  Source: '%s'" [CommandMetadata.SourceLink currentMeta] >>
    logf "Checking local status for command '%s'." [commandName] >>
    if String.eqb (CommandMetadata.SourceLink currentMeta) "" then
      logf "Update failed for command '%s'." [commandName] >>
      fail (Errorf "command '%s' (file: %s) does not have a SourceLink defined in its metadata, cannot update"
                   [commandName; CommandMetadata.FilePath currentMeta])
    else
    let currentVersion := CommandMetadata.Version currentMeta in
    let currentFilePath := CommandMetadata.FilePath currentMeta in
    let currentFilename := filepath_Base currentFilePath in
    logf "Command '%s' found locally. Checking for updates from source." [commandName] >>
    let* '(latestScriptData, _, _, latestSourceNameForLog) :=
      fetchCommandScript cm (CommandMetadata.SourceLink currentMeta) iferr fetchErr =>
      (logf "Update failed for command '%s'." [commandName] >>
       fail (Wrapf "failed to fetch latest command script from '%s' for update: %w"
                   [CommandMetadata.SourceLink currentMeta] fetchErr)) in
    match parseCommandMetadataFromBytes latestScriptData with
    | inl parseErr =>
      logf "Update failed for command '%s'." [commandName] >>
      fail (Wrapf "failed to parse metadata from latest command script fetched from '%s': %w"
                  [latestSourceNameForLog] parseErr)
    | inr latestMeta =>
    if negb (String.eqb (CommandMetadata.Command latestMeta) commandName) then
      logf "Update failed for command '%s'." [commandName] >>
      fail (Errorf "metadata mismatch: latest script from '%s' defines command '%s', expected '%s'"
                   [latestSourceNameForLog; CommandMetadata.Command latestMeta; commandName])
    else
    logf "Installed version: %s, Latest available version: %s for command '%s'"
         [currentVersion; CommandMetadata.Version latestMeta; commandName] >>
    if String.eqb currentVersion (CommandMetadata.Version latestMeta) then
      logf "Command '%s' is already up-to-date. No update performed." [commandName] >>
      ret currentMeta
    else
    logf "New version or different file found for command '%s'." [commandName] >>
    logf "Downloading update for command '%s' from '%s'." [commandName; latestSourceNameForLog] >>
    logf "Download complete for command '%s' update." [commandName] >>
    let targetFilePath := currentFilePath in
    let latestMeta := CommandMetadata.withFilePath targetFilePath latestMeta in
    if negb (CommandMetadata.IsValid latestMeta) then
      logf "Update failed for command '%s'." [commandName] >>
      fail (Errorf "invalid metadata in latest command script from '%s' after setting FilePath"
                   [latestSourceNameForLog])
    else
    match filepath_Abs (commandDir cm) with
    | None =>
      fail (Wrapf "could not get absolute path for base command directory: %w" []
                  (SyntaxError "path"))
    | Some absCommandDir =>
    match filepath_Abs targetFilePath with
    | None =>
      fail (Wrapf "could not get absolute path for target command file: %w" []
                  (SyntaxError "path"))
    | Some absTargetFilePath =>
    if negb (inside absCommandDir absTargetFilePath) then
      logf "Update failed for command '%s'." [commandName] >>
      fail (Errorf "target file path '%s' for update resolves outside of base command directory '%s'"
                   [targetFilePath; commandDir cm])
    else
    logf "Overwriting command script '%s' with new version." [targetFilePath] >>
    let* _ := os_WriteFile targetFilePath (Bytes latestScriptData) iferr err =>
      (logf "Update failed for command '%s'." [commandName] >>
       fail (Wrapf "failed to write updated command script file '%s': %w. Command may be broken."
                   [targetFilePath] err)) in
    let* commandsState :=
      try (configuration.LoadCommandsState [])
          (λ err, logf "Warning: Failed to load commands state before updating version for '%s': %v. State file may become inconsistent."
                       [commandName] >>
                  ret (Some ∅)) in
    (match mapGet commandsState currentFilename with
     | Some entry =>
       let entry :=
         InstalledCommandEntry.mk (InstalledCommandEntry.Filename entry)
           (InstalledCommandEntry.Name entry) (CommandMetadata.Version latestMeta)
           (InstalledCommandEntry.SourceLink entry) in
       let* commandsState := mapSet commandsState currentFilename entry in
       let* saveErr := attempt (configuration.SaveCommandsState commandsState []) in
       match saveErr with
       | Some _ =>
         logf "Warning: Failed to save updated commands state after update for command '%s' (file: %s): %v"
              [commandName; currentFilename]
       | None => logf "Command state for '%s' updated successfully." [commandName]
       end
     | None =>
       logf "Warning: Command '%s' (file: %s) was found in manager but not in state file during update. State file not updated."
            [commandName; currentFilename]
     end) >>
    logf "Command '%s' updated at '%s'." [commandName; targetFilePath] >>
    discoverCommands cm >>
    let* finalMeta := lookupCommand commandName in
    match finalMeta with
    | None =>
      fail (Errorf "internal error: command '%s' updated but not found in manager after rediscovery"
                   [commandName])
    | Some finalMeta => ret finalMeta
    end
    end
    end
    end
    end).

(** *** The metadata lines of a script *)

Definition metadataPrefix : string := "# @@".
Definition maxMetadataLines : Z := 20.

(** [splitAndTrim]; the result is never the nil slice. *)
Definition splitAndTrim (s : string) : list string :=
  if String.eqb s "" then []
  else filter (λ trimmed, trimmed ≠ "") (TrimSpace <$> Split "," s).

(** [parseMetadataLine]: whether the line was taken, and the metadata
    after it. *)
Definition parseMetadataLine (line : string) (meta : CommandMetadata.t)
    : bool * CommandMetadata.t :=
  let line := TrimSpace line in
  if negb (HasPrefix line metadataPrefix) then (false, meta)
  else
    let line := TrimPrefix line metadataPrefix in
    match SplitN2 ":" line with
    | [k; v] =>
      let key := TrimSpace k in
      let value := TrimSpace v in
      let '(CommandMetadata.mk command pkgManagers dependencies authors version description
                               sourceLink filePath) := meta in
      if String.eqb key "command" then
        (true, CommandMetadata.mk value pkgManagers dependencies authors version description
                                  sourceLink filePath)
      else if String.eqb key "pkg_managers" then
        (true, CommandMetadata.mk command (splitAndTrim value) dependencies authors version
                                  description sourceLink filePath)
      else if String.eqb key "dependencies" then
        (true, CommandMetadata.mk command pkgManagers (splitAndTrim value) authors version
                                  description sourceLink filePath)
      else if String.eqb key "authors" then
        (true, CommandMetadata.mk command pkgManagers dependencies (Some (splitAndTrim value))
                                  version description sourceLink filePath)
      else if String.eqb key "version" then
        (true, CommandMetadata.mk command pkgManagers dependencies authors value description
                                  sourceLink filePath)
      else if String.eqb key "description" then
        (true, CommandMetadata.mk command pkgManagers dependencies authors version value
                                  sourceLink filePath)
      else if String.eqb key "source_link" then
        (true, CommandMetadata.mk command pkgManagers dependencies authors version description
                                  value filePath)
      else (false, meta)
    | _ => (false, meta)
    end.

(** The body of the loop over the lines of a script. *)
Fixpoint parseLines (lines : list string) (meta : CommandMetadata.t) (foundAnyMeta : bool)
    : CommandMetadata.t * bool :=
  match lines with
  | [] => (meta, foundAnyMeta)
  | line :: rest =>
    if HasPrefix (TrimSpace line) metadataPrefix then
      let '(taken, meta') := parseMetadataLine line meta in
      parseLines rest meta' (taken || foundAnyMeta)
    else parseLines rest meta foundAnyMeta
  end.

Section scanning.

(** [bufio.Scanner] on the script: the lines [Scan] yields one after the
    other, and the error, if any, on which it stops. *)
Variable bufio_Scan : string → list string * option Error.

(** [parseCommandMetadataFromBytes], the function for which the field of
    that name in [Externals] stands, written out.  The loop asks for a
    line before it tests the count, so a scanner that stops with an error
    after twenty lines or fewer makes the call fail, and one that yields a
    twenty-first line does not. *)
Definition parseCommandMetadataFromBytes (data : string) : Error + CommandMetadata.t :=
  let meta := CommandMetadata.mk "" [] [] (Some []) "" "" "" "" in
  let '(scanned, scanErr) := bufio_Scan data in
  let '(meta, foundAnyMeta) :=
    parseLines (take (Z.to_nat maxMetadataLines) scanned) meta false in
  match (if maxMetadataLines <? Z.of_nat (length scanned) then None else scanErr) with
  | Some err => inl (Wrapf "error scanning script content: %w" [] err)
  | None =>
    if negb foundAnyMeta then
      inl (Errorf "no '@@' metadata found in the first %d lines of script content"
                  [pretty maxMetadataLines])
    else if String.eqb (CommandMetadata.Command meta) "" then
      inl (Errorf "mandatory 'command' metadata field is missing" [])
    else inr meta
  end.

End scanning.

End commands.
End commands.

(* ================================================================== *)
(** ** A small instance of the externals, and sample data *)
(* ================================================================== *)

(** The instance below stands in for the Go libraries on the inputs of the
    examples: clean relative paths, [http]/[https] URLs without query or
    fragment, and a handful of documents. *)

Module sample.

Fixpoint upTo (stop : ascii) (s : string) : string :=
  match s with
  | EmptyString => EmptyString
  | String c r => if Ascii.eqb c stop then EmptyString else String c (upTo stop r)
  end.

(** [(dir, base)] at the last ['/'], if there is one. *)
Fixpoint splitLast (s : string) : option (string * string) :=
  match s with
  | EmptyString => None
  | String c r =>
    match splitLast r with
    | Some (d, b) => Some (String c d, b)
    | None => if Ascii.eqb c "/" then Some (EmptyString, r) else None
    end
  end.

Definition dir (p : string) : string :=
  match splitLast p with Some (d, _) => d | None => "." end.

Definition base (p : string) : string :=
  match splitLast p with Some (_, b) => b | None => p end.

Definition stripPrefix (p s : string) : option string :=
  if String.prefix p s
  then Some (String.substring (String.length p) (String.length s - String.length p) s)
  else None.

Definition parseURL (requestURI : bool) (s : string) : option URL.t :=
  match stripPrefix "https://" s, stripPrefix "http://" s, stripPrefix "file://" s with
  | Some rest, _, _ => Some (URL.mk "https" (upTo "/" rest) s)
  | _, Some rest, _ => Some (URL.mk "http" (upTo "/" rest) s)
  | _, _, Some rest => Some (URL.mk "file" (upTo "/" rest) s)
  | None, None, None =>
    if String.prefix "/" s then Some (URL.mk "" "" s)
    else if requestURI then None else Some (URL.mk "" "" s)
  end.

Definition dirURL (s : string) : string := dir s +:+ "/".

Definition join (a b : string) : string :=
  if String.eqb b "" then a else if String.eqb a "" then b else a +:+ "/" +:+ b.

Definition helloSum : string :=
  "2cf24dba5fb0a30e26e83b2ac5b9e29e1b161e5c1fa7425e73043362938b9824".
Definition emptySum : string :=
  "e3b0c44298fc1c149afbf4c8996fb92427ae41e4649b934ca495991b7852b855".
Definition helloSumUpper : string :=
  "2CF24DBA5FB0A30E26E83B2AC5B9E29E1B161E5C1FA7425E73043362938B9824".

Definition themeLink : string := "https://example.org/aurora/theme.yaml".
Definition assetLink : string := "https://example.org/aurora/index.html".

Definition aurora (version sum : string) : ThemeMetadata.t :=
  ThemeMetadata.mk "Aurora" [AuthorDetail.mk "Ada" "" ""] version "A light theme" themeLink
    (SCons "index.html" (VAsset (AssetDetail.mk assetLink sum)) SNil) "" "".

Definition pluginLink : string := "https://example.org/metrics/plugin.yaml".

Definition metrics (version : string) : PluginMetadata.t :=
  PluginMetadata.mk "Metrics" ["Ada"] version "Counts things" pluginLink "v1"
    (SCons "main.go" (VString "https://example.org/metrics/main.go") SNil) [] [].

Definition backupLink : string := "https://example.org/backup.sh".

Definition backup (version link : string) : CommandMetadata.t :=
  CommandMetadata.mk "backup" ["apt"] [] (Some ["Ada"]) version "Makes a backup" link "".

(** A theme whose structure names a file outside its directory. *)
Definition climbing (name : string) : ThemeMetadata.t :=
  ThemeMetadata.mk "Aurora" [AuthorDetail.mk "Ada" "" ""] "1.0.0" "A light theme" themeLink
    (SCons "assets"
       (VMap (SCons name (VAsset (AssetDetail.mk assetLink helloSum)) SNil)) SNil) "" "".

(** The documents the sample decoders know. *)
Definition themeDocs : list (string * ThemeMetadata.t) :=
  [ ("aurora 1.0.0", aurora "1.0.0" helloSum);
    ("aurora climbing", climbing "..");
    ("aurora 0.9.0", aurora "0.9.0" helloSum);
    ("aurora 2.0.0", aurora "2.0.0" helloSum);
    ("aurora 1.0.0 wrong sum", aurora "1.0.0" emptySum);
    ("aurora 1.0.0 upper sum", aurora "1.0.0" helloSumUpper) ].

Definition pluginDocs : list (string * PluginMetadata.t) :=
  [ ("metrics 1.0.0", metrics "1.0.0");
    ("metrics 0.9.0", metrics "0.9.0") ].

(** A command whose name has a path separator in it. *)
Definition opsBackup : CommandMetadata.t :=
  CommandMetadata.mk "ops/backup" ["apt"] [] (Some ["Ada"]) "1.0.0" "Makes a backup"
    backupLink "".

Definition commandDocs : list (string * CommandMetadata.t) :=
  [ ("backup 1.0.0", backup "1.0.0" backupLink);
    ("backup 1.0.0 fork", backup "1.0.0" "https://example.net/backup.sh");
    ("ops/backup 1.0.0", opsBackup) ].

Definition assoc {A} (l : list (string * A)) (k : string) : option A :=
  match list_find (λ kv, kv.1 = k) l with
  | Some (_, (_, v)) => Some v
  | None => None
  end.

#[global, refine]
Instance externals : Externals := {|
  url_Parse := parseURL false;
  url_ParseRequestURI := parseURL true;
  url_ResolveReference := λ base ref,
    if URL.IsAbs ref then ref
    else URL.mk (URL.Scheme base) (URL.Host base) (dirURL (URL.String base) +:+ URL.String ref);
  yaml_Unmarshal_ThemeMetadata := assoc themeDocs;
  yaml_Unmarshal_PluginMetadata := assoc pluginDocs;
  json_Unmarshal_ThemeMetadata := λ d,
    match d with
    | JsonText _ _ (JObject [("name", JString n); ("version", JString v)]) =>
      Some (aurora v helloSum)
    | _ => None
    end;
  json_Marshal_ThemeMetadata := λ m,
    Some (JObject [("name", JString (ThemeMetadata.Name m));
                   ("version", JString (ThemeMetadata.Version m))]);
  json_Parse := λ _, None;
  json_Text := λ _ _ _, "{}";
  sha256_hex := λ b, if String.eqb b "hello" then helloSum else emptySum;
  strings_EqualFold := λ a b, String.eqb (ToLower a) (ToLower b);
  filepath_Join := join;
  filepath_Abs := λ p, Some (if String.prefix "/" p then p else "/srv/panelbase/" +:+ p);
  filepath_Dir := dir;
  filepath_Base := base;
  filepath_Clean := λ p, p;
  parseCommandMetadataFromBytes := λ b,
    match assoc commandDocs b with
    | Some m => inr m
    | None => inl (Errorf "no '@@' metadata found in the first %d lines of script content" ["20"])
    end;
  parseCommandMetadata := λ path d,
    match d with
    | Bytes b =>
      match assoc commandDocs b with
      | Some m => inr (CommandMetadata.withFilePath path m)
      | None => inl (Errorf "no '@@' metadata found in the first %d lines" ["20"])
      end
    | _ => inl (Errorf "no '@@' metadata found in the first %d lines" ["20"])
    end;
  range := λ V m, map_to_list m
|}.
Proof. reflexivity. Defined.

Definition tm : themes.ThemeManager := {| themes.themeDir := themes.defaultThemeDir |}.
Definition pm : plugins.PluginManager := {| plugins.pluginDir := plugins.defaultPluginsDir |}.
Definition cm : commands.CommandManager := {| commands.commandDir := commands.defaultCommandDir |}.

Definition ok (body : string) : Response.t := Response.mk 200 "200 OK" body.

(** A world with nothing installed. *)
Definition fresh (net : gmap string Response.t) : World :=
  mkWorld ∅ ∅ net [] [Some "k3x9"; Some "p7q2"] "2025-05-01T10:00:00Z" ∅ [] [].

End sample.

(* ================================================================== *)
(** ** Reading a run *)
(* ================================================================== *)

(** The definitions below say what a run did; the theorems are stated with
    them. *)

Definition succeeded {A} (r : Res A) : bool :=
  match r with Ok _ => true | _ => false end.

(** The error of a result. *)
Definition errorOf {A} (r : Res A) : option Error :=
  match r with Err _ e => Some e | _ => None end.

Definition setNet (x : gmap string Response.t) (w : World) : World :=
  mkWorld (disk w) (stateFiles w) x (faults w) (entropy w) (now w)
          (commandsCache w) (held w) (trace w).

Global Instance Op_eq_dec : EqDecision Op.
Proof. solve_decision. Defined.
Global Instance Event_eq_dec : EqDecision Event.
Proof. solve_decision. Defined.

(** What a computation can depend on besides the trace and the locks. *)
Definition core (w : World) :=
  (disk w, stateFiles w, net w, faults w, entropy w, now w, commandsCache w).

(** [m] looks neither at the trace nor at the locks. *)
Definition blind {A} (m : M A) : Prop :=
  ∀ w w', core w = core w' → (m w).1 = (m w').1 ∧ core (m w).2 = core (m w').2.

(** Events that change nothing on disk and report no digest. *)
Definition isRead (e : Event) : bool :=
  match e with
  | Hashed _ _ _ => false
  | _ => negb (isMutation e)
  end.

(** The world [w] after faults were consumed and events recorded. *)
Definition after (f : list bool) (t : list Event) (w : World) : World :=
  mkWorld (disk w) (stateFiles w) (net w) f (entropy w) (now w) (commandsCache w)
          (held w) (trace w ++ t)%list.

(** [m] only consumes faults and adds events that are reads. *)
Definition quiet {A} (m : M A) : Prop :=
  ∀ w, ∃ f t, (m w).2 = after f t w ∧ forallb isRead t = true.

(** The world after a call of the operating system. *)
Definition called (op : Op) (w : World) : World :=
  setFaults (tail (faults w)) (record (Call op) w).

(** [m] leaves the state documents and the locks alone, consumes no fault
    that is not there, and reports no digest. *)
Definition plain {A} (m : M A) : Prop :=
  ∀ w, stateFiles (m w).2 = stateFiles w ∧ held (m w).2 = held w
       ∧ (faults w = [] → faults (m w).2 = [])
       ∧ ∃ t, trace (m w).2 = (trace w ++ t)%list ∧ ∀ p x a, Hashed p x a ∉ t.

(** The error of [downloadAsset] for a digest that differs. *)
Definition mismatch (name expected actual : string) : Error :=
  Errorf "checksum mismatch for file '%s': expected %s, got %s" [name; expected; actual].

(** [m] is plain but for the digests it reports; when no call fails, a
    digest that differs from the one expected ends [m] with the mismatch
    error and without the file. *)
Definition checks `{Externals} {A} (m : M A) : Prop :=
  ∀ w, stateFiles (m w).2 = stateFiles w ∧ held (m w).2 = held w
       ∧ (faults w = [] → faults (m w).2 = [])
       ∧ ∃ t, trace (m w).2 = (trace w ++ t)%list
              ∧ (faults w = [] → ∀ p x a, Hashed p x a ∈ t →
                 strings_EqualFold a x = false →
                 (∃ name, errorOf (m w).1 = Some (mismatch name x a))
                 ∧ disk (m w).2 !! p = None).


(** The time stamps an overwriting install gives a manifest. *)
Definition stamped (nw : string) (existing : InstalledThemeEntry.t) (meta : ThemeMetadata.t)
    : ThemeMetadata.t :=
  ThemeMetadata.withInstalledAt
    (if String.eqb (InstalledThemeEntry.InstalledAt existing) ""
     then nw else InstalledThemeEntry.InstalledAt existing)
    (ThemeMetadata.withLastUpdatedAt nw meta).

(** The line [Update] logs when nothing is to be done. *)
Definition noUpdateLine (installed latest : string) : Event :=
  if String.eqb installed latest
  then Logf "Theme is already at the latest version ('%s'). No update needed." [latest]
  else Logf "Available version '%s' is older than installed version '%s'. No update performed."
            [latest; installed].

(** Entries all of whose strings are valid UTF-8. *)
Definition validThemeEntry (e : InstalledThemeEntry.t) : Prop :=
  ValidUTF8 (InstalledThemeEntry.ThmID e) ∧ ValidUTF8 (InstalledThemeEntry.Name e)
  ∧ ValidUTF8 (InstalledThemeEntry.Version e) ∧ ValidUTF8 (InstalledThemeEntry.SourceLink e)
  ∧ ValidUTF8 (InstalledThemeEntry.InstalledAt e)
  ∧ ValidUTF8 (InstalledThemeEntry.LastUpdatedAt e).

Definition validPluginEntry (e : InstalledPluginEntry.t) : Prop :=
  ValidUTF8 (InstalledPluginEntry.PlgID e) ∧ ValidUTF8 (InstalledPluginEntry.Name e)
  ∧ ValidUTF8 (InstalledPluginEntry.Version e) ∧ ValidUTF8 (InstalledPluginEntry.SourceLink e).

Definition validCommandEntry (e : InstalledCommandEntry.t) : Prop :=
  ValidUTF8 (InstalledCommandEntry.Filename e) ∧ ValidUTF8 (InstalledCommandEntry.Name e)
  ∧ ValidUTF8 (InstalledCommandEntry.Version e) ∧ ValidUTF8 (InstalledCommandEntry.SourceLink e).

(** A map all of whose keys and entries are valid. *)
Definition validMap {V} (P : V → Prop) (g : gmap string V) : Prop :=
  ∀ k v, g !! k = Some v → ValidUTF8 k ∧ P v.

(* ================================================================== *)
(** ** Sample worlds *)
(* ================================================================== *)

(** [m] leaves the locks as they are. *)
Definition keeps {A} (m : M A) : Prop := ∀ w, held (m w).2 = held w.

(** [m] does not succeed when it is run with [mu] held. *)
Definition barred {A} (mu : Mutex) (m : M A) : Prop :=
  ∀ w, mu ∈ held w → succeeded (m w).1 = false.

(** A configuration in which nothing is missing. *)
Definition complete (cfg : configuration.Config) : Prop :=
  configuration.Version cfg ≠ ""
  ∧ configuration.Host (configuration.Server cfg) ≠ ""
  ∧ configuration.minPort <= configuration.Port (configuration.Server cfg)
    <= configuration.maxPort
  ∧ configuration.Alphabet (configuration.Secrets (configuration.Security cfg)) ≠ ""
  ∧ 0 < configuration.Length (configuration.Secrets (configuration.Security cfg)).


(** A string that [strings.TrimSpace] leaves as it is. *)
Definition trimmed (s : string) : Prop := TrimSpace s = s.

(** The manager's map as a discovery leaves it over the disk [d]: every
    command is valid and stands under its own name, its script is a file of
    the command directory, and its metadata is what the script's header
    gives, with the path of the script. *)
Definition discovered `{Externals} (cm : commands.CommandManager) (d : gmap string Node)
    (c : gmap string CommandMetadata.t) : Prop :=
  ∀ name meta, c !! name = Some meta →
    CommandMetadata.Command meta = name
    ∧ CommandMetadata.IsValid meta = true
    ∧ ∃ filename data parsed,
        CommandMetadata.FilePath meta = filepath_Join (commands.commandDir cm) filename
        ∧ d !! CommandMetadata.FilePath meta = Some (File data)
        ∧ parseCommandMetadata (CommandMetadata.FilePath meta) data = inr parsed
        ∧ meta = CommandMetadata.withFilePath (CommandMetadata.FilePath meta) parsed.
Module examples.
Import sample.

Definition themeURL : URL.t := URL.mk "https" "example.org" themeLink.
Definition mainLink : string := "https://example.org/metrics/main.go".

(** What the network serves: a manifest and the one file it lists. *)
Definition themeNet (doc body : string) : gmap string Response.t :=
  {[ themeLink := ok doc; assetLink := ok body ]}.
Definition pluginNet (doc : string) : gmap string Response.t :=
  {[ pluginLink := ok doc; mainLink := ok "package main" ]}.

Definition commandsDocument (g : gmap string InstalledCommandEntry.t) : FileData :=
  JsonText "" "  "
    (toJSON ({[ "commands" := Some g ]} : gmap string (GoMap InstalledCommandEntry.t))).

(** The world after ["aurora 1.0.0"] was installed in an empty one. *)
Definition themeInstalled : World :=
  (themes.Install tm themeLink false (fresh (themeNet "aurora 1.0.0" "hello"))).2.

Definition auroraEntry : InstalledThemeEntry.t :=
  InstalledThemeEntry.mk "thm_k3x9" "Aurora" "1.0.0" themeLink
    "2025-05-01T10:00:00Z" "2025-05-01T10:00:00Z".

(** The same world a while later. *)
Definition later (w : World) : World :=
  mkWorld (disk w) (stateFiles w) (net w) (faults w) (entropy w) "2025-06-01T08:30:00Z"
          (commandsCache w) (held w) (trace w).



(** The world after ["metrics 1.0.0"] was installed in an empty one. *)
Definition pluginInstalled : World :=
  (plugins.InstallPlugin pm pluginLink false (fresh (pluginNet "metrics 1.0.0"))).2.

Definition metricsEntry : InstalledPluginEntry.t :=
  InstalledPluginEntry.mk "plg_k3x9" "Metrics" "1.0.0" pluginLink.

(** A world in which the plugin's source serves another manifest. *)
Definition pluginServed (doc : string) : World := setNet (pluginNet doc) pluginInstalled.

(** A world in which the theme's source serves another manifest. *)
Definition themeServed (doc : string) : World :=
  later (setNet (themeNet doc "hello") themeInstalled).

(** A world with one command installed: its script, its state entry and the
    manager's cache. *)
Definition backupPath : string := "ext/commands/backup.sh".

Definition backupEntry (link : string) : InstalledCommandEntry.t :=
  InstalledCommandEntry.mk "backup.sh" "backup" "1.0.0" link.

Definition commandInstalled : World :=
  mkWorld {[ backupPath := File (Bytes "backup 1.0.0") ]}
          {[ configuration.defaultCommandsStatePath :=
               commandsDocument {[ "backup.sh" := backupEntry backupLink ]} ]}
          {[ backupLink := ok "backup 1.0.0" ]} [] [] "2025-05-01T10:00:00Z"
          {[ "backup" := CommandMetadata.withFilePath backupPath (backup "1.0.0" backupLink) ]}
          [] [].








(** A world that serves [body] at [link] and nothing else. *)
Definition serving (link body : string) : World := fresh {[ link := ok body ]}.

(** An entry whose name is the single byte 0xFF, which is not UTF-8. *)
Definition badName : string := String (ascii_of_N 255) EmptyString.

Definition badEntry : InstalledThemeEntry.t :=
  InstalledThemeEntry.mk "thm_k3x9" badName "1.0.0" themeLink "" "".

Definition coercedEntry : InstalledThemeEntry.t :=
  InstalledThemeEntry.mk "thm_k3x9" replacement "1.0.0" themeLink "" "".

(** A scanner for scripts with short lines and no carriage return. *)
Definition scanLines (data : string) : list string * option Error :=
  (if String.eqb data "" then [] else Split "010" data, None).

Definition backupScript : string :=
  "#!/bin/sh" +:+ String "010" (
  "# @@command: backup" +:+ String "010" (
  "# @@pkg_managers: apt, dnf" +:+ String "010" (
  "# @@authors: Ada" +:+ String "010" (
  "# @@version: 1.0.0" +:+ String "010" (
  "# @@description: Makes a backup" +:+ String "010" (
  "# @@source_link: https://example.org/backup.sh" +:+ String "010" "tar czf /tmp/b.tgz /etc"
  )))))).

(** The configuration a file without a port gives. *)
Definition partialConfig : configuration.Config :=
  {| configuration.Version := "v2";
     configuration.Server := {| configuration.Host := "127.0.0.1"; configuration.Port := 80 |};
     configuration.Security :=
       {| configuration.Secrets :=
            {| configuration.Alphabet := "abc"; configuration.Length := 4 |} |} |}.


(** A world in which the manager knows an older version of the command than
    the one its source serves. *)
Definition commandStale : World :=
  setCommandsCache
    {[ "backup" := CommandMetadata.withFilePath backupPath (backup "0.9.0" backupLink) ]}
    commandInstalled.

(** Stand-ins for the YAML encoder and decoder at the type [Config]. *)
Definition marshalConfig (cfg : configuration.Config) : option string :=
  Some ("version: " +:+ configuration.Version cfg).

Definition unmarshalConfig (text : string) : option configuration.Config :=
  if String.eqb text "port: 80" then Some partialConfig else None.

End examples.

(* ================================================================== *)
(** * Theorems *)
(* ================================================================== *)

Local Open Scope list_scope.

(** ** Byte strings *)

Lemma len_ToLower s : len (ToLower s) = len s.
Proof. unfold len. f_equal. induction s; simpl; congruence. Qed.

Lemma isLowerHex_lowerByte c : isLowerHex (lowerByte c) = isHex c.
Proof. destruct c as [[] [] [] [] [] [] [] []]; reflexivity. Qed.

Lemma allBytes_ToLower s : allBytes isLowerHex (ToLower s) = allBytes isHex s.
Proof. induction s; simpl; [done|]. by rewrite isLowerHex_lowerByte, IHs. Qed.

Lemma matchSHA256Pattern_ToLower s : matchSHA256Pattern (ToLower s) = isHex64 s.
Proof. unfold matchSHA256Pattern, isHex64. by rewrite len_ToLower, allBytes_ToLower. Qed.

Section validation.
Context `{Externals}.

Lemma validateAsset_checksum key url sum :
  isHex64 sum = false → is_Some (themes.validateAsset key url sum).
Proof.
  intros Hbad. unfold themes.validateAsset.
  rewrite matchSHA256Pattern_ToLower, Hbad. simpl.
  repeat case_match; eauto.
Qed.

Lemma themes_wrap_is_Some f a e : is_Some e → is_Some (themes.wrap f a e).
Proof. intros [x ->]. simpl. eauto. Qed.

Lemma validateStructureContent_checksum sum :
  isHex64 sum = false →
  (∀ value, sum ∈ themes.checksumsBelow value →
            ∀ key, is_Some (themes.validateValue key value)) ∧
  (∀ structure, sum ∈ themes.checksums structure →
                is_Some (themes.validateStructureContent structure)).
Proof.
  intros Hbad. apply Value_Structure_ind.
  - intros a Hin key. simpl in *. apply list_elem_of_singleton in Hin as ->.
    by apply validateAsset_checksum.
  - intros m IH Hin key. simpl in *.
    destruct (sget m "url") as [[]|]; destruct (sget m "sum") as [[]|];
      try (apply themes_wrap_is_Some; by apply IH).
    apply list_elem_of_singleton in Hin as ->. by apply validateAsset_checksum.
  - intros s Hin. simpl in Hin. by apply elem_of_nil in Hin.
  - intros Hin. simpl in Hin. by apply elem_of_nil in Hin.
  - intros Hin. simpl in Hin. by apply elem_of_nil in Hin.
  - intros name item IHitem rest IHrest Hin. simpl in *.
    destruct (isBlank name); [eauto|].
    destruct (themes.invalidName name); [eauto|].
    apply elem_of_app in Hin as [Hin|Hin].
    + destruct (IHitem Hin name) as [e ->]. eauto.
    + destruct (themes.validateValue name item); [eauto|]. by apply IHrest.
Qed.

Lemma Validate_structure m :
  is_Some (themes.validateStructureContent (ThemeMetadata.Structure m)) →
  is_Some (themes.Validate m).
Proof.
  intros Hs. unfold themes.Validate.
  repeat case_match; eauto. by apply themes_wrap_is_Some.
Qed.




End validation.

(** ** The monad *)

Lemma isRead_not_mutation t :
  forallb isRead t = true → forallb (λ e, negb (isMutation e)) t = true.
Proof.
  induction t as [|e t IH]; simpl; [done|]. intros [He Ht]%andb_true_iff.
  rewrite IH by done. destruct e; simpl in *; by rewrite ?He.
Qed.


Lemma after_id w : after (faults w) [] w = w.
Proof. destruct w. unfold after. simpl. by rewrite app_nil_r. Qed.

Lemma after_after f t f' t' w : after f' t' (after f t w) = after f' (t ++ t') w.
Proof. unfold after. simpl. by rewrite app_assoc. Qed.

Lemma core_eq w w' :
  core w = core w' ↔
  disk w = disk w' ∧ stateFiles w = stateFiles w' ∧ net w = net w' ∧ faults w = faults w'
  ∧ entropy w = entropy w' ∧ now w = now w' ∧ commandsCache w = commandsCache w'.
Proof. unfold core. split; [intros [=]; repeat split; assumption | intros (?&?&?&?&?&?&?); congruence]. Qed.

Section rules.
Context {A B : Type}.

Lemma quiet_ret (a : A) : quiet (ret a).
Proof. intros w. exists (faults w), []. by rewrite after_id. Qed.

Lemma quiet_fail (e : Error) : quiet (fail (A := A) e).
Proof. intros w. exists (faults w), []. by rewrite after_id. Qed.

Lemma quiet_failWith (a : A) (e : Error) : quiet (failWith a e).
Proof. intros w. exists (faults w), []. by rewrite after_id. Qed.

Lemma quiet_bind (m : M A) (k : A → M B) :
  quiet m → (∀ a, quiet (k a)) → quiet (bind m k).
Proof.
  intros Hm Hk w. unfold bind. destruct (Hm w) as (f & t & Hw & Ht).
  destruct (m w) as [[a| |] w1]; simpl in *; subst; eauto.
  destruct (Hk a (after f t w)) as (f' & t' & Hw' & Ht').
  exists f', (t ++ t'). rewrite Hw', after_after. split; [done|].
  rewrite forallb_app. by rewrite Ht, Ht'.
Qed.

Lemma quiet_bindOr (m : M A) (h : Error → M B) (k : A → M B) :
  quiet m → (∀ e, quiet (h e)) → (∀ a, quiet (k a)) → quiet (bindOr m h k).
Proof.
  intros Hm Hh Hk w. unfold bindOr. destruct (Hm w) as (f & t & Hw & Ht).
  destruct (m w) as [[a|p e|] w1]; simpl in *; subst; eauto.
  - destruct (Hk a (after f t w)) as (f' & t' & Hw' & Ht').
    exists f', (t ++ t'). rewrite Hw', after_after. split; [done|].
    rewrite forallb_app. by rewrite Ht, Ht'.
  - destruct (Hh e (after f t w)) as (f' & t' & Hw' & Ht').
    exists f', (t ++ t'). rewrite Hw', after_after. split; [done|].
    rewrite forallb_app. by rewrite Ht, Ht'.
Qed.

Lemma quiet_try (m : M A) (h : Error → M A) :
  quiet m → (∀ e, quiet (h e)) → quiet (try m h).
Proof.
  intros Hm Hh w. unfold try. destruct (Hm w) as (f & t & Hw & Ht).
  destruct (m w) as [[a|p e|] w1]; simpl in *; subst; eauto.
  destruct (Hh e (after f t w)) as (f' & t' & Hw' & Ht').
  exists f', (t ++ t'). rewrite Hw', after_after. split; [done|].
  rewrite forallb_app. by rewrite Ht, Ht'.
Qed.

Lemma quiet_attempt (m : M A) : quiet m → quiet (attempt m).
Proof.
  intros Hm w. unfold attempt. destruct (Hm w) as (f & t & Hw & Ht).
  destruct (m w) as [[a|p e|] w1]; simpl in *; subst; eauto.
Qed.

Lemma blind_ret (a : A) : blind (ret a).
Proof. by intros w w' Hc. Qed.

Lemma blind_fail (e : Error) : blind (fail (A := A) e).
Proof. by intros w w' Hc. Qed.

Lemma blind_failWith (a : A) (e : Error) : blind (failWith a e).
Proof. by intros w w' Hc. Qed.

Lemma blind_bind (m : M A) (k : A → M B) :
  blind m → (∀ a, blind (k a)) → blind (bind m k).
Proof.
  intros Hm Hk w w' Hc. unfold bind. destruct (Hm w w' Hc) as [Hr Hw].
  destruct (m w) as [r1 w1], (m w') as [r2 w2]; simpl in *; subst.
  destruct r2; simpl; auto. by apply Hk.
Qed.

Lemma blind_bindOr (m : M A) (h : Error → M B) (k : A → M B) :
  blind m → (∀ e, blind (h e)) → (∀ a, blind (k a)) → blind (bindOr m h k).
Proof.
  intros Hm Hh Hk w w' Hc. unfold bindOr. destruct (Hm w w' Hc) as [Hr Hw].
  destruct (m w) as [r1 w1], (m w') as [r2 w2]; simpl in *; subst.
  destruct r2; simpl; auto. by apply Hk. by apply Hh.
Qed.

Lemma blind_try (m : M A) (h : Error → M A) :
  blind m → (∀ e, blind (h e)) → blind (try m h).
Proof.
  intros Hm Hh w w' Hc. unfold try. destruct (Hm w w' Hc) as [Hr Hw].
  destruct (m w) as [r1 w1], (m w') as [r2 w2]; simpl in *; subst.
  destruct r2; simpl; auto. by apply Hh.
Qed.

Lemma blind_attempt (m : M A) : blind m → blind (attempt m).
Proof.
  intros Hm w w' Hc. unfold attempt. destruct (Hm w w' Hc) as [Hr Hw].
  destruct (m w) as [r1 w1], (m w') as [r2 w2]; simpl in *; subst.
  destruct r2; simpl; auto.
Qed.

End rules.

Lemma quiet_get : quiet get.
Proof. intros w. exists (faults w), []. by rewrite after_id. Qed.

Lemma quiet_emit e : isRead e = true → quiet (emit e).
Proof. intros He w. exists (faults w), [e]. simpl. by rewrite He. Qed.

Lemma quiet_logf f a : quiet (logf f a).
Proof. by apply quiet_emit. Qed.

Lemma quiet_oscall op : isMutation (Call op) = false → quiet (oscall op).
Proof.
  intros He w. exists (tail (faults w)), [Call op]. unfold oscall.
  split; [by destruct (hd false (faults w))|]. simpl in *. by rewrite He.
Qed.

Lemma blind_emit e : blind (emit e).
Proof. intros w w' Hc. apply core_eq in Hc. split; [done|]. apply core_eq. simpl. tauto. Qed.

Lemma blind_logf f a : blind (logf f a).
Proof. apply blind_emit. Qed.

Lemma blind_oscall op : blind (oscall op).
Proof.
  intros w w' Hc. apply core_eq in Hc as (?&?&?&Hf&?&?&?). unfold oscall. rewrite Hf.
  destruct (hd false (faults w')); (split; [done|]); apply core_eq; simpl; tauto.
Qed.

Ltac quiet :=
  repeat first
    [ apply quiet_ret | apply quiet_fail | apply quiet_failWith | apply quiet_logf
    | apply quiet_get
    | apply quiet_oscall; reflexivity | apply quiet_emit; reflexivity
    | apply quiet_bind | apply quiet_bindOr | apply quiet_try | apply quiet_attempt
    | progress cbv beta zeta | case_match
    | match goal with |- ∀ _, _ => intros ? end ].

Lemma quiet_os_Stat p : quiet (os_Stat p).
Proof. unfold os_Stat. quiet. Qed.

Lemma quiet_os_ReadFile p : quiet (os_ReadFile p).
Proof. unfold os_ReadFile. quiet. Qed.

Lemma quiet_cfg_ReadFile p : quiet (cfg_ReadFile p).
Proof. unfold cfg_ReadFile. quiet. Qed.

Lemma quiet_http_Get u : quiet (http_Get u).
Proof. unfold http_Get. quiet. Qed.

Lemma quiet_io_ReadAll u b : quiet (io_ReadAll u b).
Proof. unfold io_ReadAll. quiet. Qed.

Lemma quiet_io_ReadAll_limited u l : quiet (io_ReadAll_limited u l).
Proof. unfold io_ReadAll_limited. quiet. Qed.

Lemma quiet_time_Now : quiet time_Now.
Proof. unfold time_Now. quiet. Qed.

Ltac blind_read :=
  apply blind_bind; [apply blind_oscall|]; intros _;
  intros w w' Hc; unfold bind, get; simpl;
  pose proof Hc as Hc'; apply core_eq in Hc' as (Hd&Hs&Hn&_);
  rewrite ?Hd, ?Hs, ?Hn; repeat case_match; done.

Lemma blind_os_Stat p : blind (os_Stat p).
Proof. unfold os_Stat. blind_read. Qed.

Lemma blind_os_ReadFile p : blind (os_ReadFile p).
Proof. unfold os_ReadFile. blind_read. Qed.

Lemma blind_cfg_ReadFile p : blind (cfg_ReadFile p).
Proof. unfold cfg_ReadFile. blind_read. Qed.

Lemma blind_http_Get u : blind (http_Get u).
Proof.
  unfold http_Get. apply blind_bind; [apply blind_emit|]. intros _.
  intros w w' Hc; unfold bind, get; simpl;
  pose proof Hc as Hc'; apply core_eq in Hc' as (Hd&Hs&Hn&_);
  rewrite ?Hd, ?Hs, ?Hn; repeat case_match; done.
Qed.

Lemma blind_io_ReadAll u b : blind (io_ReadAll u b).
Proof. unfold io_ReadAll. apply blind_bind; [apply blind_oscall|]. intros. apply blind_ret. Qed.

Lemma blind_io_ReadAll_limited u l : blind (io_ReadAll_limited u l).
Proof.
  unfold io_ReadAll_limited. apply blind_bind; [apply blind_oscall|]. intros. apply blind_ret.
Qed.

Ltac blind :=
  repeat first
    [ apply blind_ret | apply blind_fail | apply blind_failWith | apply blind_logf
    | apply blind_oscall | apply blind_emit
    | apply blind_os_Stat | apply blind_os_ReadFile | apply blind_cfg_ReadFile
    | apply blind_http_Get | apply blind_io_ReadAll | apply blind_io_ReadAll_limited
    | apply blind_bind | apply blind_bindOr | apply blind_try | apply blind_attempt
    | progress cbv beta zeta | case_match
    | match goal with |- ∀ _, _ => intros ? end ].

Ltac quiet' :=
  repeat first
    [ apply quiet_os_Stat | apply quiet_os_ReadFile | apply quiet_cfg_ReadFile
    | apply quiet_http_Get | apply quiet_io_ReadAll | apply quiet_io_ReadAll_limited
    | apply quiet_time_Now
    | apply quiet_ret | apply quiet_fail | apply quiet_failWith | apply quiet_logf
    | apply quiet_get
    | apply quiet_oscall; reflexivity | apply quiet_emit; reflexivity
    | apply quiet_bind | apply quiet_bindOr | apply quiet_try | apply quiet_attempt
    | progress cbv beta zeta | case_match
    | match goal with |- ∀ _, _ => intros ? end ].

Section readers.
Context `{Externals}.

Lemma quiet_loadState {T} `{FromJSON T} path : quiet (configuration.loadState (T := T) path).
Proof. unfold configuration.loadState. quiet'. Qed.

Lemma blind_loadState {T} `{FromJSON T} path : blind (configuration.loadState (T := T) path).
Proof. unfold configuration.loadState. blind. Qed.

Lemma quiet_fetchThemeYAML tm source : quiet (themes.fetchThemeYAML tm source).
Proof. unfold themes.fetchThemeYAML. quiet'. Qed.

Lemma blind_fetchThemeYAML tm source : blind (themes.fetchThemeYAML tm source).
Proof. unfold themes.fetchThemeYAML. blind. Qed.

Lemma quiet_fetchAndValidateDefinition tm source :
  quiet (themes._fetchAndValidateDefinition tm source).
Proof.
  unfold themes._fetchAndValidateDefinition.
  apply quiet_bind; [apply quiet_logf|]. intros _.
  apply quiet_bind; [apply quiet_fetchThemeYAML|]. intros [[[? ?] ?] ?]. quiet'.
Qed.

Lemma blind_fetchAndValidateDefinition tm source :
  blind (themes._fetchAndValidateDefinition tm source).
Proof.
  unfold themes._fetchAndValidateDefinition.
  apply blind_bind; [apply blind_logf|]. intros _.
  apply blind_bind; [apply blind_fetchThemeYAML|]. intros [[[? ?] ?] ?]. blind.
Qed.

Lemma quiet_fetchPluginYAML pm source : quiet (plugins.fetchPluginYAML pm source).
Proof. unfold plugins.fetchPluginYAML. quiet'. Qed.

Lemma blind_fetchPluginYAML pm source : blind (plugins.fetchPluginYAML pm source).
Proof. unfold plugins.fetchPluginYAML. blind. Qed.

Lemma quiet_fetchForInstall source : quiet (commands.fetchForInstall source).
Proof. unfold commands.fetchForInstall. quiet'. Qed.


End readers.

(** Running a blind, quiet computation from a world that differs only in
    its trace and locks. *)
Lemma run_at {A} (m : M A) w r w1 w0 :
  blind m → quiet m → m w = (r, w1) → core w0 = core w →
  ∃ t, m w0 = (r, after (faults w1) t w0)
       ∧ core (after (faults w1) t w0) = core w1
       ∧ forallb (λ e, negb (isMutation e)) t = true.
Proof.
  intros Hb Hq Hm Hc. destruct (Hb w0 w Hc) as [Hr Hw]. rewrite Hm in Hr, Hw. simpl in *.
  destruct (Hq w0) as (f & t & Hw0 & Ht).
  destruct (m w0) as [r0 w0']. simpl in *. subst.
  assert (f = faults w1) as -> by (apply core_eq in Hw; simpl in Hw; tauto).
  apply isRead_not_mutation in Ht. eauto.
Qed.

Lemma run_at_read {A} (m : M A) w r w1 w0 :
  blind m → quiet m → m w = (r, w1) → core w0 = core w →
  ∃ t, m w0 = (r, after (faults w1) t w0)
       ∧ core (after (faults w1) t w0) = core w1
       ∧ forallb isRead t = true.
Proof.
  intros Hb Hq Hm Hc. destruct (Hb w0 w Hc) as [Hr Hw]. rewrite Hm in Hr, Hw. simpl in *.
  destruct (Hq w0) as (f & t & Hw0 & Ht).
  destruct (m w0) as [r0 w0']. simpl in *. subst.
  assert (f = faults w1) as -> by (apply core_eq in Hw; simpl in Hw; tauto).
  eauto.
Qed.

Lemma quiet_run {A} (m : M A) w r w1 :
  quiet m → m w = (r, w1) →
  disk w1 = disk w ∧ stateFiles w1 = stateFiles w ∧ held w1 = held w.
Proof. intros Hq Hm. destruct (Hq w) as (f & t & Hw & _). rewrite Hm in Hw. simpl in Hw. by subst. Qed.

Lemma since_app w w' t : trace w' = trace w ++ t → since w w' = t.
Proof. intros Ht. unfold since. rewrite Ht. by rewrite drop_app_length. Qed.

Lemma bind_logf {A} f a (k : unit → M A) w :
  bind (logf f a) k w = k tt (record (Logf f a) w).
Proof. reflexivity. Qed.

Lemma bind_Ok {A B} (m : M A) (k : A → M B) w a w1 :
  m w = (Ok a, w1) → bind m k w = k a w1.
Proof. intros Hm. unfold bind. by rewrite Hm. Qed.


Lemma bindOr_Ok {A B} (m : M A) h (k : A → M B) w a w1 :
  m w = (Ok a, w1) → bindOr m h k w = k a w1.
Proof. intros Hm. unfold bindOr. by rewrite Hm. Qed.

Lemma bindOr_Err {A B} (m : M A) h (k : A → M B) w p e w1 :
  m w = (Err p e, w1) → bindOr m h k w = h e w1.
Proof. intros Hm. unfold bindOr. by rewrite Hm. Qed.

Section scans.
Context `{Externals}.

Lemma rangeMap_elem {V} (st : GoMap V) k v :
  (k, v) ∈ rangeMap st ↔ mapGet st k = Some v.
Proof.
  destruct st as [g|]; simpl.
  - rewrite (range_Permutation _ g). apply elem_of_map_to_list.
  - split; [by intros ?%elem_of_nil | done].
Qed.


Lemma scan_misses {V} (P : string * V → Prop) `{∀ x, Decision (P x)} (st : GoMap V) :
  (∀ k v, mapGet st k = Some v → ¬ P (k, v)) →
  list_find P (rangeMap st) = None.
Proof.
  intros Hno. apply list_find_None, Forall_forall. intros [k v] Hin.
  apply Hno. by apply rangeMap_elem.
Qed.

End scans.

Section install_exists.
Context `{Externals}.



End install_exists.

Lemma bind_ret {A B} (a : A) (k : A → M B) w : bind (ret a) k w = k a w.
Proof. reflexivity. Qed.

Lemma bind_bind {A B C} (m : M A) (k1 : A → M B) (k2 : B → M C) w :
  bind (bind m k1) k2 w = bind m (λ a, bind (k1 a) k2) w.
Proof. unfold bind. by destruct (m w) as [[] ?]. Qed.

Section plugin_exists.
Context `{Externals}.



End plugin_exists.

Section command_conflict.
Context `{Externals}.


End command_conflict.

Lemma since_self w : since w w = [].
Proof. unfold since. apply drop_all. Qed.

Lemma writtenBeforeDeleted_skip p t r :
  forallb (λ e, negb (isMutation e)) t = true →
  writtenBeforeDeleted p (t ++ r) = writtenBeforeDeleted p r.
Proof.
  induction t as [|e t IH]; simpl; [done|].
  intros [He Ht]%andb_true_iff. rewrite IH by done.
  destruct e as [[]| |]; simpl in *; done.
Qed.

Lemma deletedBeforeWritten_skip p t r :
  forallb (λ e, negb (isMutation e)) t = true →
  deletedBeforeWritten p (t ++ r) = deletedBeforeWritten p r.
Proof.
  induction t as [|e t IH]; simpl; [done|].
  intros [He Ht]%andb_true_iff. rewrite IH by done.
  destruct e as [[]| |]; simpl in *; done.
Qed.

Lemma writtenBeforeDeleted_quiet p t :
  forallb (λ e, negb (isMutation e)) t = true → writtenBeforeDeleted p t = true.
Proof. intros Ht. rewrite <- (app_nil_r t). by rewrite writtenBeforeDeleted_skip. Qed.

Lemma deletedBeforeWritten_quiet p t :
  forallb (λ e, negb (isMutation e)) t = true → deletedBeforeWritten p t = true.
Proof. intros Ht. rewrite <- (app_nil_r t). by rewrite deletedBeforeWritten_skip. Qed.

(** *** Running a computation one step at a time *)

Section steps.
Context {A B C : Type}.

Lemma bind_oscall op (k : unit → M A) w :
  bind (oscall op) k w =
  if hd false (faults w) then (Err None (IOError op), called op w) else k tt (called op w).
Proof. unfold bind, oscall, called. by destruct (hd false (faults w)). Qed.

Lemma bindOr_oscall op h (k : unit → M A) w :
  bindOr (oscall op) h k w =
  if hd false (faults w) then h (IOError op) (called op w) else k tt (called op w).
Proof. unfold bindOr, oscall, called. by destruct (hd false (faults w)). Qed.

Lemma bind_modify f (k : unit → M A) w : bind (modify f) k w = k tt (f w).
Proof. reflexivity. Qed.

Lemma bindOr_modify f h (k : unit → M A) w : bindOr (modify f) h k w = k tt (f w).
Proof. reflexivity. Qed.

Lemma bind_get (k : World → M A) w : bind get k w = k w w.
Proof. reflexivity. Qed.

Lemma bindOr_get h (k : World → M A) w : bindOr get h k w = k w w.
Proof. reflexivity. Qed.

Lemma bind_fail e (k : A → M B) w : bind (fail e) k w = (Err None e, w).
Proof. reflexivity. Qed.

Lemma bind_failWith a e (k : A → M B) w : bind (failWith a e) k w = (Err None e, w).
Proof. reflexivity. Qed.

Lemma bind_halt s (k : A → M B) w : bind (halt s) k w = (Halt s, w).
Proof. reflexivity. Qed.

Lemma bindOr_ret (a : A) h (k : A → M B) w : bindOr (ret a) h k w = k a w.
Proof. reflexivity. Qed.

Lemma bindOr_fail e h (k : A → M B) w : bindOr (fail e) h k w = h e w.
Proof. reflexivity. Qed.

Lemma bindOr_failWith a e h (k : A → M B) w : bindOr (failWith a e) h k w = h e w.
Proof. reflexivity. Qed.

Lemma bindOr_logf f a h (k : unit → M A) w :
  bindOr (logf f a) h k w = k tt (record (Logf f a) w).
Proof. reflexivity. Qed.

Lemma bind_emit e (k : unit → M A) w : bind (emit e) k w = k tt (record e w).
Proof. reflexivity. Qed.

Lemma bindOr_emit e h (k : unit → M A) w : bindOr (emit e) h k w = k tt (record e w).
Proof. reflexivity. Qed.

Lemma bindOr_bind (m : M A) (k1 : A → M B) h (k2 : B → M C) w :
  bindOr (bind m k1) h k2 w = bindOr m h (λ a, bindOr (k1 a) h k2) w.
Proof. unfold bind, bindOr. by destruct (m w) as [[] ?]. Qed.

Lemma bind_bindOr (m : M A) h (k1 : A → M B) (k2 : B → M C) w :
  bind (bindOr m h k1) k2 w = bindOr m (λ e, bind (h e) k2) (λ a, bind (k1 a) k2) w.
Proof. unfold bind, bindOr. by destruct (m w) as [[] ?]. Qed.

Lemma bindOr_bindOr (m : M A) h1 (k1 : A → M B) h2 (k2 : B → M C) w :
  bindOr (bindOr m h1 k1) h2 k2 w =
  bindOr m (λ e, bindOr (h1 e) h2 k2) (λ a, bindOr (k1 a) h2 k2) w.
Proof. unfold bindOr. by destruct (m w) as [[] ?]. Qed.

Lemma bind_attempt (m : M A) (k : option Error → M B) w :
  bind (attempt m) k w = bindOr m (λ e, k (Some e)) (λ _, k None) w.
Proof. unfold bind, bindOr, attempt. by destruct (m w) as [[] ?]. Qed.

Lemma bind_ignore (m : M A) (k : unit → M B) w :
  bind (ignore m) k w = bindOr m (λ _, k tt) (λ _, k tt) w.
Proof. unfold bind, bindOr, ignore. by destruct (m w) as [[] ?]. Qed.

Lemma bind_try (m : M A) h (k : A → M B) w :
  bind (try m h) k w = bindOr m (λ e, bind (h e) k) k w.
Proof. unfold bind, bindOr, try. by destruct (m w) as [[] ?]. Qed.

Lemma ret_run (a : A) w : ret a w = (Ok a, w).
Proof. reflexivity. Qed.

Lemma fail_run e w : fail (A := A) e w = (Err None e, w).
Proof. reflexivity. Qed.

Lemma failWith_run (a : A) e w : failWith a e w = (Err (Some a) e, w).
Proof. reflexivity. Qed.

Lemma halt_run s w : halt (A := A) s w = (Halt s, w).
Proof. reflexivity. Qed.

End steps.

Lemma logf_run f a w : logf f a w = (Ok tt, record (Logf f a) w).
Proof. reflexivity. Qed.

Lemma modify_run f w : modify f w = (Ok tt, f w).
Proof. reflexivity. Qed.

Lemma oscall_run op w :
  oscall op w =
  (if hd false (faults w) then Err None (IOError op) else Ok tt, called op w).
Proof. unfold oscall, called. by destruct (hd false (faults w)). Qed.

Create Rewrite HintDb run.
#[global] Hint Rewrite @bind_bind @bind_bindOr @bindOr_bind @bindOr_bindOr
  @bind_attempt @bind_ignore @bind_try
  @bind_logf @bindOr_logf @bind_emit @bindOr_emit @bind_ret @bindOr_ret
  @bind_fail @bindOr_fail @bind_failWith @bindOr_failWith @bind_halt
  @bind_modify @bindOr_modify @bind_get @bindOr_get
  @bind_oscall @bindOr_oscall
  @ret_run @fail_run @failWith_run @halt_run logf_run modify_run oscall_run : run.

(** One step of a run: rewrite to the next call that can go two ways, and
    follow both. *)
Lemma bool_decide_head {A} `{EqDecision A} (x : A) l : bool_decide (x ∈ x :: l) = true.
Proof. apply bool_decide_eq_true_2. left. Qed.

Ltac step :=
  autorewrite with run; cbv beta iota;
  try match goal with
  | |- context [held ?W] =>
    progress (let h := eval simpl in (held W) in change (held W) with h);
    rewrite ?bool_decide_head
  | |- context [if hd false ?f then _ else _] => destruct (hd false f)
  | |- context [match ?x with Some _ => _ | None => _ end] => destruct x eqn:?
  | |- context [if ?b then _ else _] => destruct b eqn:?
  end.

Section removal.
Context `{Externals}.

Ltac settle :=
  cbv beta iota;
  match goal with |- (_, _) = _ → _ => idtac end;
  intros [= <- <-];
  first [ rewrite since_self; repeat split; first [reflexivity | discriminate]
        | erewrite since_app; [|simpl; rewrite <- ?app_assoc; reflexivity];
          simpl;
          rewrite ?writtenBeforeDeleted_skip, ?deletedBeforeWritten_skip,
                  ?writtenBeforeDeleted_quiet, ?deletedBeforeWritten_quiet by assumption;
          simpl; repeat split;
          first [ reflexivity | discriminate
                | intros _; rewrite ?existsb_app; simpl; rewrite ?orb_true_r; reflexivity ] ].

(** Removing a theme: the state document is written before anything is
    deleted, and a removal that succeeds has deleted the directory. *)
Lemma themes_Remove_order tm themeID w r w' :
  themes.Remove tm themeID w = (r, w') →
  writtenBeforeDeleted configuration.defaultThemesStatePath (since w w') = true
  ∧ (r = Ok tt → existsb isDeletion (since w w') = true).
Proof.
  unfold themes.Remove, withLock.
  destruct (bool_decide _); [settle|].
  rewrite bind_logf. unfold themes._removeEntryFromGlobalState.
  unfold configuration.LoadThemesState. simpl configuration.pathOr.
  set (w0 := record _ _).
  destruct (quiet_loadState (T := InstalledThemeEntry.t) configuration.defaultThemesStatePath w0)
    as (f & t & Hw & Ht%isRead_not_mutation).
  rewrite bind_bindOr. unfold bindOr at 1.
  destruct (configuration.loadState _ w0) as [[st|p e|s] w1]; simpl in Hw; subst w1; subst w0.
  2: step; settle.
  2: settle.
  destruct (mapGet st themeID) as [entry|]; [|step; settle].
  unfold configuration.SaveThemesState, configuration.saveState. simpl configuration.pathOr.
  unfold cfg_MkdirAll, cfg_WriteFile, themes._deleteThemeDirectory, themes.discoverThemesLocked,
    os_RemoveAll.
  do 12 (step; try solve [settle]).
Qed.

(** Removing a plugin: the directory is deleted before the state document
    is written, and a removal that succeeds has done both. *)
Lemma plugins_Remove_order pm pluginID w r w' :
  plugins.RemovePlugin pm pluginID w = (r, w') →
  deletedBeforeWritten configuration.defaultPluginsStatePath (since w w') = true
  ∧ (r = Ok tt →
     existsb (isWriteOf configuration.defaultPluginsStatePath) (since w w') = true).
Proof.
  unfold plugins.RemovePlugin, withLock.
  destruct (bool_decide _); [settle|].
  rewrite bind_logf.
  unfold configuration.LoadPluginsState. simpl configuration.pathOr.
  set (w0 := record _ _).
  destruct (quiet_loadState (T := InstalledPluginEntry.t) configuration.defaultPluginsStatePath w0)
    as (f & t & Hw & Ht%isRead_not_mutation).
  unfold bindOr at 1.
  destruct (configuration.loadState _ w0) as [[st|p e|s] w1]; simpl in Hw; subst w1; subst w0.
  2: step; settle.
  2: settle.
  destruct (mapGet st pluginID) as [entry|]; [|step; settle].
  unfold configuration.SavePluginsState, configuration.saveState. simpl configuration.pathOr.
  unfold cfg_MkdirAll, cfg_WriteFile, plugins.checkTarget, os_RemoveAll.
  do 12 (step; try solve [settle]).
Qed.

(** Removing a command: the script is deleted before the state document is
    written. *)
Lemma commands_Remove_order cm commandName w r w' :
  commands.RemoveCommand cm commandName w = (r, w') →
  deletedBeforeWritten configuration.defaultCommandsStatePath (since w w') = true.
Proof.
  unfold commands.RemoveCommand, withLock.
  destruct (bool_decide _); [settle|].
  rewrite bind_logf, bind_get.
  destruct (commandsCache _ !! commandName) as [currentMeta|]; [|step; settle].
  unfold configuration.LoadCommandsState. simpl configuration.pathOr.
  set (w0 := record _ _).
  destruct (quiet_loadState (T := InstalledCommandEntry.t) configuration.defaultCommandsStatePath w0)
    as (f & t & Hw & Ht%isRead_not_mutation).
  unfold bindOr at 1.
  destruct (configuration.loadState _ w0) as [[st|p e|s] w1]; simpl in Hw; subst w1; subst w0.
  2: step; settle.
  2: settle.
  unfold configuration.SaveCommandsState, configuration.saveState. simpl configuration.pathOr.
  unfold cfg_MkdirAll, cfg_WriteFile, commands.checkTarget, os_Remove, commands.discoverCommands,
    withLock.
  do 16 (step; try solve [settle]).
Qed.

End removal.

(** ** The state documents *)

Lemma themeEntry_roundtrip e : validThemeEntry e → fromJSON (toJSON e) = Some e.
Proof.
  destruct e as [i n v s a u]. unfold validThemeEntry, ValidUTF8. simpl.
  intros (Hi & Hn & Hv & Hs & Ha & Hu).
  unfold fromJSON, themeEntry_fromJSON, toJSON, themeEntry_toJSON, unmarshalStruct, omitempty,
    toJSON, string_toJSON.
  simpl. rewrite Hi, Hn, Hv, Hs, Ha, Hu.
  destruct (decide (a = "")) as [->|]; destruct (decide (u = "")) as [->|]; reflexivity.
Qed.

Lemma pluginEntry_roundtrip e : validPluginEntry e → fromJSON (toJSON e) = Some e.
Proof.
  destruct e as [i n v s]. unfold validPluginEntry, ValidUTF8. simpl.
  intros (Hi & Hn & Hv & Hs).
  unfold fromJSON, pluginEntry_fromJSON, toJSON, pluginEntry_toJSON, unmarshalStruct,
    toJSON, string_toJSON.
  simpl. by rewrite Hi, Hn, Hv, Hs.
Qed.

Lemma commandEntry_roundtrip e : validCommandEntry e → fromJSON (toJSON e) = Some e.
Proof.
  destruct e as [i n v s]. unfold validCommandEntry, ValidUTF8. simpl.
  intros (Hi & Hn & Hv & Hs).
  unfold fromJSON, commandEntry_fromJSON, toJSON, commandEntry_toJSON, unmarshalStruct,
    toJSON, string_toJSON.
  simpl. by rewrite Hi, Hn, Hv, Hs.
Qed.

Section roundtrip.
Context {V : Type} `{ToJSON V, FromJSON V} (P : V → Prop).
Hypothesis entry_roundtrip : ∀ v, P v → fromJSON (toJSON v) = Some v.

Lemma decodeMembers_encoded (l : list (string * V)) acc :
  Forall (λ kv, ValidUTF8 kv.1 ∧ P kv.2) l →
  decodeMembers acc ((λ kv, (toValidUTF8 kv.1, toJSON kv.2)) <$> l)
  = Some (foldl (λ m kv, <[kv.1 := kv.2]> m) acc l).
Proof.
  intros Hl. revert acc. induction Hl as [|[k v] l [Hk Hv] _ IH]; intros acc; simpl; [done|].
  simpl in *. rewrite (entry_roundtrip v Hv), Hk. apply IH.
Qed.

Lemma foldl_insert_list_to_map (l : list (string * V)) (acc : gmap string V) :
  NoDup l.*1 →
  foldl (λ m kv, <[kv.1 := kv.2]> m) acc l = list_to_map l ∪ acc.
Proof.
  revert acc. induction l as [|[k v] l IH]; intros acc Hnd; simpl.
  - by rewrite (left_id_L ∅ (∪)).
  - apply NoDup_cons in Hnd as [Hk Hnd]. rewrite IH by done.
    rewrite insert_union_singleton_l, (assoc_L (∪)).
    f_equal. rewrite insert_union_singleton_l. apply map_union_comm.
    apply map_disjoint_singleton_r_2. by apply not_elem_of_list_to_map_1.
Qed.

Lemma map_roundtrip (g : gmap string V) :
  validMap P g → unmarshalMap None (toJSON (Some g : GoMap V)) = Some (Some g).
Proof.
  intros Hg. unfold toJSON, GoMap_toJSON, toJSON, gmap_toJSON, membersOf, unmarshalMap. simpl.
  set (l := merge_sort _ _).
  assert (l ≡ₚ map_to_list g) as Hp by apply merge_sort_Permutation.
  assert (NoDup l.*1) as Hnd by (rewrite Hp; apply NoDup_fst_map_to_list).
  rewrite decodeMembers_encoded.
  - simpl. do 2 f_equal. rewrite foldl_insert_list_to_map by done.
    rewrite (right_id_L ∅ (∪)). rewrite (list_to_map_proper _ _ Hnd Hp).
    apply list_to_map_to_list.
  - rewrite Hp. apply Forall_forall. intros [k v] Hkv. apply elem_of_map_to_list in Hkv.
    simpl. by apply Hg.
Qed.

End roundtrip.

Lemma range_singleton `{Externals} {V} (k : string) (v : V) :
  range ({[k := v]} : gmap string V) = [(k, v)].
Proof.
  apply Permutation_singleton_r. rewrite range_Permutation. by rewrite map_to_list_singleton.
Qed.

Lemma merge_sort_singleton {A} (R : relation A) `{∀ x y, Decision (R x y)} (x : A) :
  merge_sort R [x] = [x].
Proof. apply Permutation_singleton_r. apply merge_sort_Permutation. Qed.

Section save_load.
Context `{Externals} {T : Type} `{ToJSON T, FromJSON T} (P : T → Prop).
Hypothesis entry_roundtrip : ∀ v, P v → fromJSON (toJSON v) = Some v.

(** What [loadState] makes of the document [saveState] writes. *)
Lemma saved_document key (m : GoMap T) :
  ValidUTF8 key → (∀ g, m = Some g → validMap P g) →
  unmarshalMap (V := GoMap T) None (toJSON ({[key := m]} : gmap string (GoMap T)))
  = Some (Some {[key := m]}).
Proof.
  intros Hkey Hm.
  change (toJSON ({[key := m]} : gmap string (GoMap T)))
    with (JObject (membersOf ({[key := m]} : gmap string (GoMap T)))).
  unfold membersOf.
  rewrite map_to_list_singleton, merge_sort_singleton. cbn [fmap list_fmap fst snd].
  unfold unmarshalMap at 1. cbn [default decodeMembers].
  change (fromJSON (toJSON m)) with (unmarshalMap (V := T) None (toJSON m)).
  destruct m as [g|].
  - rewrite (map_roundtrip P entry_roundtrip g) by auto.
    simpl. by rewrite Hkey, insert_empty.
  - simpl. by rewrite Hkey, insert_empty.
Qed.

Lemma saveState_loadState key path (m : GoMap T) w :
  faults w = [] → ValidUTF8 key → (∀ g, m = Some g → validMap P g) →
  ∃ w1 w2,
    configuration.saveState ({[key := m]} : gmap string (GoMap T)) path w = (Ok tt, w1)
    ∧ configuration.loadState path w1 = (Ok (Some (default ∅ m)), w2).
Proof.
  intros Hf Hkey Hm.
  unfold configuration.saveState, cfg_MkdirAll, cfg_WriteFile.
  autorewrite with run. rewrite Hf. cbn [hd].
  autorewrite with run. cbn [called faults setFaults record hd tail]. rewrite Hf. cbn [hd tail].
  autorewrite with run. eexists _, _. split; [reflexivity|].
  unfold configuration.loadState, cfg_ReadFile.
  autorewrite with run. cbn [called faults setFaults setStateFiles record hd tail]. rewrite Hf.
  cbn [hd tail]. autorewrite with run.
  cbn [called stateFiles setFaults setStateFiles record]. rewrite lookup_insert_eq.
  autorewrite with run. cbn [configuration.isEmpty configuration.parse mbind option_bind].
  rewrite (saved_document key m Hkey Hm). cbn [rangeMap]. rewrite range_singleton.
  destruct m as [g|]; reflexivity.
Qed.

(** The loader never hands back a nil map. *)
Lemma loadState_not_nil path w (st : GoMap T) w' :
  configuration.loadState path w = (Ok st, w') → is_Some st.
Proof.
  unfold configuration.loadState, cfg_ReadFile.
  autorewrite with run.
  destruct (hd false (faults w)); cbn [os_IsNotExist]; autorewrite with run.
  { intros [=]. }
  destruct (stateFiles _ !! path) as [data|]; autorewrite with run; cbn [os_IsNotExist];
    autorewrite with run.
  2: { intros [= <- _]. eauto. }
  destruct (configuration.isEmpty data); autorewrite with run.
  { intros [= <- _]. eauto. }
  destruct (configuration.parse data) as [j|]; cbn [mbind option_bind].
  2: { autorewrite with run. intros [=]. }
  destruct j; cbn [unmarshalMap]; autorewrite with run; try (intros [=]; fail).
  - intros [= <- _]. simpl. eauto.
  - destruct (Some <$> decodeMembers (V := GoMap T) (default ∅ None) members) as [tempStore|].
    + autorewrite with run. intros [= <- _]. by repeat case_match.
    + destruct (decodeMembers (V := T) (default ∅ (Some ∅)) members); simpl;
        autorewrite with run; intros [= <- _]; eauto.
Qed.

End save_load.

(** ** Fetching a manifest *)





Section fetch.
Context `{Externals}.




End fetch.

(** ** A manifest that does not validate is not installed *)

Section install_invalid.
Context `{Externals}.




End install_invalid.

(** ** Downloading the files of a theme *)

Section checks.
Context `{Externals}.

Lemma plain_checks {A} (m : M A) : plain m → checks m.
Proof.
  intros Hm w. destruct (Hm w) as (Hs & Hh & Hf & t & Ht & Hno).
  repeat split; try done. exists t. split; [done|]. intros _ p x a Hin. by destruct (Hno p x a).
Qed.

Lemma checks_bind {A B} (m : M A) (k : A → M B) :
  checks m → (∀ a, checks (k a)) → checks (bind m k).
Proof.
  intros Hm Hk w. unfold bind.
  destruct (Hm w) as (Hs & Hh & Hf & t & Ht & Hbad).
  destruct (m w) as [[a|p e|s] w1]; simpl in *.
  - destruct (Hk a w1) as (Hs' & Hh' & Hf' & t' & Ht' & Hbad').
    destruct (k a w1) as [r w2]; simpl in *.
    split; [congruence|]. split; [congruence|]. split; [auto|].
    exists (t ++ t'). split; [by rewrite Ht', Ht, app_assoc|].
    intros Hw q x b [Hin|Hin]%elem_of_app Hne.
    + by destruct (Hbad Hw q x b Hin Hne) as [[? [=]] _].
    + by apply Hbad'; auto.
  - repeat split; try done. exists t. split; [done|]. intros Hw q x b Hin Hne.
    by apply Hbad.
  - repeat split; try done. exists t. split; [done|]. intros Hw q x b Hin Hne.
    by destruct (Hbad Hw q x b Hin Hne) as [[? [=]] _].
Qed.

Lemma checks_bindOr {A B} (m : M A) (h : Error → M B) (k : A → M B) :
  plain m → (∀ e, plain (h e)) → (∀ a, checks (k a)) → checks (bindOr m h k).
Proof.
  intros Hm Hh Hk w. unfold bindOr.
  destruct (Hm w) as (Hs & Hl & Hf & t & Ht & Hno).
  destruct (m w) as [[a|p e|s] w1]; simpl in *.
  - destruct (Hk a w1) as (Hs' & Hh' & Hf' & t' & Ht' & Hbad').
    destruct (k a w1) as [r w2]; simpl in *.
    split; [congruence|]. split; [congruence|]. split; [auto|].
    exists (t ++ t'). split; [by rewrite Ht', Ht, app_assoc|].
    intros Hw q x b [Hin|Hin]%elem_of_app Hne.
    + by destruct (Hno q x b).
    + by apply Hbad'; auto.
  - destruct (Hh e w1) as (Hs' & Hh' & Hf' & t' & Ht' & Hno').
    destruct (h e w1) as [r w2]; simpl in *.
    split; [congruence|]. split; [congruence|]. split; [auto|].
    exists (t ++ t'). split; [by rewrite Ht', Ht, app_assoc|].
    intros Hw q x b [Hin|Hin]%elem_of_app Hne.
    + by destruct (Hno q x b).
    + by destruct (Hno' q x b).
  - repeat split; try done. exists t. split; [done|]. intros Hw q x b Hin Hne.
    by destruct (Hno q x b).
Qed.

End checks.

Lemma plain_ret {A} (a : A) : plain (ret a).
Proof.
  intros w. simpl. repeat split; try done. exists []. split; [by rewrite app_nil_r|].
  intros ???. apply not_elem_of_nil.
Qed.

Lemma plain_fail {A} (e : Error) : plain (fail (A := A) e).
Proof.
  intros w. simpl. repeat split; try done. exists []. split; [by rewrite app_nil_r|].
  intros ???. apply not_elem_of_nil.
Qed.

Lemma plain_failWith {A} (a : A) (e : Error) : plain (failWith a e).
Proof.
  intros w. simpl. repeat split; try done. exists []. split; [by rewrite app_nil_r|].
  intros ???. apply not_elem_of_nil.
Qed.

Section plain_rules.
Context {A B : Type}.

Lemma plain_bindOr (m : M A) (h : Error → M B) (k : A → M B) :
  plain m → (∀ e, plain (h e)) → (∀ a, plain (k a)) → plain (bindOr m h k).
Proof.
  intros Hm Hh Hk w. unfold bindOr.
  destruct (Hm w) as (Hs & Hl & Hf & t & Ht & Hno).
  destruct (m w) as [[a|p e|s] w1]; simpl in *.
  - destruct (Hk a w1) as (Hs' & Hh' & Hf' & t' & Ht' & Hno').
    destruct (k a w1) as [r w2]; simpl in *.
    split; [congruence|]. split; [congruence|]. split; [auto|].
    exists (t ++ t'). split; [by rewrite Ht', Ht, app_assoc|].
    intros q x b [Hin|Hin]%elem_of_app; [by destruct (Hno q x b)|by destruct (Hno' q x b)].
  - destruct (Hh e w1) as (Hs' & Hh' & Hf' & t' & Ht' & Hno').
    destruct (h e w1) as [r w2]; simpl in *.
    split; [congruence|]. split; [congruence|]. split; [auto|].
    exists (t ++ t'). split; [by rewrite Ht', Ht, app_assoc|].
    intros q x b [Hin|Hin]%elem_of_app; [by destruct (Hno q x b)|by destruct (Hno' q x b)].
  - repeat split; try done. eauto.
Qed.

Lemma plain_bind (m : M A) (k : A → M B) :
  plain m → (∀ a, plain (k a)) → plain (bind m k).
Proof.
  intros Hm Hk.
  assert (bind m k = bindOr m (λ e, fail e) k) as ->.
  { unfold bind, bindOr, fail. reflexivity. }
  apply plain_bindOr; auto. intros e. apply plain_fail.
Qed.

Lemma plain_attempt (m : M A) : plain m → plain (attempt m).
Proof.
  intros Hm w. unfold attempt. destruct (Hm w) as (Hs & Hl & Hf & t & Ht & Hno).
  destruct (m w) as [[a|p e|s] w1]; simpl in *; repeat split; eauto.
Qed.

Lemma plain_ignore (m : M A) : plain m → plain (ignore m).
Proof.
  intros Hm w. unfold ignore. destruct (Hm w) as (Hs & Hl & Hf & t & Ht & Hno).
  destruct (m w) as [[a|p e|s] w1]; simpl in *; repeat split; eauto.
Qed.

End plain_rules.

Lemma plain_get : plain get.
Proof.
  intros w. simpl. repeat split; try done. exists []. split; [by rewrite app_nil_r|].
  intros ???. apply not_elem_of_nil.
Qed.

Lemma plain_logf f a : plain (logf f a).
Proof.
  intros w. simpl. repeat split; try done. exists [Logf f a]. split; [done|].
  intros ??? Hin. apply list_elem_of_singleton in Hin. discriminate.
Qed.

Lemma plain_oscall op : plain (oscall op).
Proof.
  intros w. unfold oscall. destruct (hd false (faults w)); simpl.
  all: repeat split; try done; try (by intros ->).
  all: exists [Call op]; split; [done|].
  all: intros ??? Hin; apply list_elem_of_singleton in Hin; discriminate.
Qed.

Lemma plain_setDisk f : plain (modify (setDisk f)).
Proof.
  intros w. simpl. repeat split; try done. exists []. split; [by rewrite app_nil_r|].
  intros ???. apply not_elem_of_nil.
Qed.

Ltac plain :=
  repeat first
    [ apply plain_ret | apply plain_fail | apply plain_failWith | apply plain_logf
    | apply plain_get | apply plain_oscall | apply plain_setDisk
    | apply plain_bind | apply plain_bindOr | apply plain_attempt | apply plain_ignore
    | progress cbv beta zeta | case_match
    | match goal with |- ∀ _, _ => intros ? end ].

Lemma plain_os_MkdirAll p : plain (os_MkdirAll p).
Proof. unfold os_MkdirAll. plain. Qed.

Lemma plain_os_Create p : plain (os_Create p).
Proof. unfold os_Create. plain. Qed.

Lemma plain_io_Copy p b : plain (io_Copy p b).
Proof. unfold io_Copy. plain. Qed.

Lemma plain_file_Close p : plain (file_Close p).
Proof. unfold file_Close. plain. Qed.

Lemma plain_os_Open p : plain (os_Open p).
Proof. unfold os_Open. plain. Qed.

Lemma plain_file_ReadAll p : plain (file_ReadAll p).
Proof. unfold file_ReadAll. plain. Qed.

Lemma plain_os_Remove p : plain (os_Remove p).
Proof. unfold os_Remove. plain. Qed.

Lemma plain_os_RemoveAll p : plain (os_RemoveAll p).
Proof. unfold os_RemoveAll. plain. Qed.

Lemma plain_http_Get u : plain (http_Get u).
Proof.
  unfold http_Get. apply plain_bind.
  - intros w. simpl. repeat split; try done. exists [Call (HttpGet u)]. split; [done|].
    intros ??? Hin. apply list_elem_of_singleton in Hin. discriminate.
  - plain.
Qed.

Ltac plain' :=
  repeat first
    [ apply plain_os_MkdirAll | apply plain_os_Create | apply plain_io_Copy
    | apply plain_file_Close | apply plain_os_Open | apply plain_file_ReadAll
    | apply plain_os_Remove | apply plain_os_RemoveAll | apply plain_http_Get
    | apply plain_ret | apply plain_fail | apply plain_failWith | apply plain_logf
    | apply plain_get | apply plain_oscall | apply plain_setDisk
    | apply plain_bind | apply plain_bindOr | apply plain_attempt | apply plain_ignore
    | progress cbv beta zeta | case_match
    | match goal with |- ∀ _, _ => intros ? end ].

Section download.
Context `{Externals}.

(** The comparison of the digests, at the end of [downloadAsset]. *)
Lemma checks_verify p name sum calc (ok : M unit) :
  plain ok →
  checks (emit (Hashed p sum calc) >>
          if negb (strings_EqualFold calc sum) then
            logf "[%d/%d] Checksum mismatch for '%s'. Expected: %s, Got: %s" [name; sum; calc] >>
            ignore (os_Remove p) >>
            fail (Errorf "checksum mismatch for file '%s': expected %s, got %s"
                         [name; sum; calc])
          else ok).
Proof.
  intros Hok w. rewrite bind_emit.
  destruct (strings_EqualFold calc sum) eqn:Heq; cbn [negb].
  - destruct (Hok (record (Hashed p sum calc) w)) as (Hs & Hl & Hf & t & Ht & Hno).
    split; [done|]. split; [done|]. split; [done|].
    exists (Hashed p sum calc :: t). split; [by rewrite Ht; simpl; rewrite <- app_assoc|].
    intros _ q x a [[= -> -> ->]|Hin]%elem_of_cons Hne; [congruence|by destruct (Hno q x a)].
  - unfold os_Remove. autorewrite with run.
    destruct (hd false (faults _)) eqn:Hhd.
    + cbn in Hhd. cbn. repeat split; try done; try (intros Hw; by rewrite Hw in Hhd).
      eexists. split; [by rewrite <- !app_assoc|]. intros Hw. by rewrite Hw in Hhd.
    + destruct (disk _ !! p) eqn:Hp; autorewrite with run; cbn.
      * repeat split; try done; try (by intros ->).
        eexists. split; [by rewrite <- !app_assoc|].
        intros _ q x a Hin Hne. simpl in Hin.
        repeat (apply elem_of_cons in Hin as [Hin|Hin]; try discriminate).
        -- injection Hin as -> -> ->. split; [by exists name|]. apply lookup_delete_eq.
        -- by apply elem_of_nil in Hin.
      * repeat split; try done; try (by intros ->).
        eexists. split; [by rewrite <- !app_assoc|].
        intros _ q x a Hin Hne. simpl in Hin.
        repeat (apply elem_of_cons in Hin as [Hin|Hin]; try discriminate).
        -- injection Hin as -> -> ->. split; [by exists name|]. done.
        -- by apply elem_of_nil in Hin.
Qed.

Ltac checks :=
  repeat first
    [ apply checks_verify; solve [plain']
    | apply plain_checks; solve [plain']
    | apply checks_bindOr; [solve [plain'] | solve [plain'] | intros ?]
    | apply checks_bind; [apply plain_checks; solve [plain'] | intros ?]
    | progress cbv beta zeta | case_match ].

Lemma checks_downloadAsset currentSavePath name url sum baseURL :
  checks (themes.downloadAsset currentSavePath name url sum baseURL).
Proof. unfold themes.downloadAsset. checks. Qed.

Lemma checks_download :
  (∀ item currentSavePath name baseURL,
     checks (themes.downloadItem currentSavePath name item baseURL))
  ∧ (∀ structure baseSavePath baseURL,
       checks (themes.downloadAndSaveStructure baseSavePath structure baseURL)).
Proof.
  apply Value_Structure_ind.
  - intros a p n bu. simpl. apply checks_downloadAsset.
  - intros m IH p n bu. simpl.
    repeat case_match; try apply checks_downloadAsset;
      (apply checks_bindOr; [solve [plain'] | solve [plain'] | intros ?; apply IH]).
  - intros s p n bu. simpl. apply plain_checks. plain'.
  - intros p n bu. simpl. apply plain_checks. plain'.
  - intros b bu. simpl. apply plain_checks. plain'.
  - intros name item IHi rest IHr b bu. simpl.
    apply checks_bind; [apply IHi | intros ?; apply IHr].
Qed.

Lemma checks_downloadThemeAssets tm themePath meta parsedSourceURL isLocalSource :
  ∀ w r w', themes._downloadThemeAssets tm themePath meta parsedSourceURL isLocalSource w
            = (r, w') →
  stateFiles w' = stateFiles w ∧ held w' = held w ∧ (faults w = [] → faults w' = [])
  ∧ ∃ t, trace w' = trace w ++ t
         ∧ (faults w = [] → ∀ p x a, Hashed p x a ∈ t → strings_EqualFold a x = false →
            (∃ name,
               r = Err None (Wrapf "failed to download theme structure for '%s': %w"
                                   [ThemeMetadata.Name meta] (mismatch name x a)))
            ∧ disk w' !! p = None).
Proof.
  intros w r w'. unfold themes._downloadThemeAssets. rewrite bind_logf.
  set (w0 := record _ w). set (bu := if negb isLocalSource then _ else _).
  destruct (proj2 checks_download (ThemeMetadata.Structure meta) themePath bu w0)
    as (Hs & Hl & Hf & t & Ht & Hbad).
  unfold bindOr.
  destruct (themes.downloadAndSaveStructure _ _ _ w0) as [[[]|p e|s] w1]; simpl in *;
    autorewrite with run; intros [= <- <-]; simpl.
  - repeat split; try done.
    exists (Logf "Downloading %d assets for theme '%s' (v%s):"
              [pretty (themes.countFilesInStructure (ThemeMetadata.Structure meta));
               ThemeMetadata.Name meta; ThemeMetadata.Version meta] :: t ++
            [Logf "All %d assets downloaded."
               [pretty (themes.countFilesInStructure (ThemeMetadata.Structure meta))]]).
    split; [by rewrite Ht; simpl; rewrite <- !app_assoc|].
    intros Hw q x a Hin Hne.
    apply elem_of_cons in Hin as [[=]|Hin]. apply elem_of_app in Hin as [Hin|Hin].
    + by destruct (Hbad Hw q x a Hin Hne) as [[? [=]] _].
    + apply list_elem_of_singleton in Hin. discriminate.
  - repeat split; try done.
    exists (Logf "Downloading %d assets for theme '%s' (v%s):"
              [pretty (themes.countFilesInStructure (ThemeMetadata.Structure meta));
               ThemeMetadata.Name meta; ThemeMetadata.Version meta] :: t ++
            [Logf "Asset download failed for theme '%s' (v%s)."
               [ThemeMetadata.Name meta; ThemeMetadata.Version meta]]).
    split; [by rewrite Ht; simpl; rewrite <- !app_assoc|].
    intros Hw q x a Hin Hne.
    apply elem_of_cons in Hin as [[=]|Hin]. apply elem_of_app in Hin as [Hin|Hin].
    + destruct (Hbad Hw q x a Hin Hne) as [[name [= ->]] Hd]. split; [|done].
      eexists. reflexivity.
    + apply list_elem_of_singleton in Hin. discriminate.
  - repeat split; try done.
    exists (Logf "Downloading %d assets for theme '%s' (v%s):"
              [pretty (themes.countFilesInStructure (ThemeMetadata.Structure meta));
               ThemeMetadata.Name meta; ThemeMetadata.Version meta] :: t).
    split; [by rewrite Ht; simpl; rewrite <- !app_assoc|].
    intros Hw q x a Hin Hne.
    apply elem_of_cons in Hin as [[=]|Hin].
    by destruct (Hbad Hw q x a Hin Hne) as [[? [=]] _].
Qed.

End download.

(** ** Installing a theme *)

Lemma bindOr_Generate {A} prefix h (k : string → M A) w :
  bindOr (Generate prefix) h k w =
  match entropy w with
  | Some randomPart :: rest =>
    k (prefix +:+ "_" +:+ randomPart) (setEntropy rest (record (Call RandRead) w))
  | None :: rest =>
    h (Wrapf "failed to generate random number for ID: %w" [] (IOError RandRead))
      (setEntropy rest (record (Call RandRead) w))
  | [] =>
    h (Wrapf "failed to generate random number for ID: %w" [] (IOError RandRead))
      (record (Call RandRead) w)
  end.
Proof. unfold bindOr, Generate. cbn [entropy record]. by destruct (entropy w) as [|[]]. Qed.

#[global] Hint Rewrite @bindOr_Generate : run.


(** Finding an event in a trace that is written out. *)
Ltac find_event :=
  repeat first
    [ apply list_elem_of_here
    | apply list_elem_of_further
    | apply elem_of_app; right ].

(** Under [faults = []] no call fails. *)
Ltac nofault :=
  match goal with
  | |- context [hd false (faults ?W)] =>
    replace (hd false (faults W)) with false
      by (cbn; repeat match goal with H : faults _ = [] |- _ => rewrite H end; reflexivity)
  end.


Ltac go := repeat (autorewrite with run; cbv beta iota; try nofault).

(** Running by computation: the monad, the calls and the world are
    unfolded, everything else is left as it is. *)
Ltac run :=
  cbv beta iota zeta delta
    [bind bindOr ret fail failWith halt try attempt ignore get modify emit logf oscall
     called record after setDisk setStateFiles setFaults setEntropy setCommandsCache setHeld
     disk stateFiles net faults entropy now commandsCache held trace
     os_Stat os_ReadFile os_WriteFile os_MkdirAll os_Remove os_RemoveAll os_Create io_Copy
     file_Close os_Open file_ReadAll cfg_ReadFile cfg_MkdirAll cfg_WriteFile http_Get
     io_ReadAll time_Now Generate ThemeID PluginID mapSet fst snd];
  cbn [hd tail].


(** The next test on which the run depends. *)
Ltac split_head :=
  match goal with
  | |- context [match ?x with Some _ => _ | None => _ end] => destruct x eqn:?
  | |- context [if ?b then _ else _] => destruct b eqn:?
  | |- context [match ?x with [] => _ | _ :: _ => _ end] => destruct x eqn:?
  | |- context [match ?x with Dir => _ | File _ => _ end] => destruct x eqn:?
  | |- context [match ?x with inl _ => _ | inr _ => _ end] => destruct x eqn:?
  end; cbv beta iota; cbn [hd tail];
  try match goal with
      | H : ?a = ?b |- _ => is_constructor a; is_constructor b; discriminate H
      | H : ?a ≠ ?a |- _ => destruct (H eq_refl)
      end.

(** Reading the state document in the middle of a run. *)
Ltac load_step T :=
  match goal with
  | |- context [configuration.loadState ?path ?W3] =>
    let f3 := fresh "f" in
    let t3 := fresh "t" in
    let Hw3 := fresh "Hw" in
    let Ht3 := fresh "Ht" in
    let r3 := fresh "r" in
    let W3' := fresh "W" in
    destruct (quiet_loadState (T := T) path W3) as (f3 & t3 & Hw3 & Ht3);
    destruct (configuration.loadState (T := T) path W3) as [r3 W3'];
    cbn [snd] in Hw3; subst W3'; destruct r3; run
  end.

(** Downloading the files in the middle of a run. *)
Ltac download_step :=
  match goal with
  | |- context [themes._downloadThemeAssets ?tm ?path ?m ?u ?l ?W0] =>
    let rd := fresh "rd" in
    let Wd := fresh "Wd" in
    let Hd := fresh "Hd" in
    let Hsd := fresh "Hsd" in
    let Hhd := fresh "Hhd" in
    let Hfd := fresh "Hfd" in
    let td := fresh "td" in
    let Htd := fresh "Htd" in
    let Hbad := fresh "Hbad" in
    let dd := fresh "dd" in
    let sd := fresh "sd" in
    let nd := fresh "nd" in
    let fd := fresh "fd" in
    let ed := fresh "ed" in
    let nwd := fresh "nwd" in
    let cd := fresh "cd" in
    let hd' := fresh "hd" in
    let trd := fresh "trd" in
    destruct (themes._downloadThemeAssets tm path m u l W0) as [rd Wd] eqn:Hd;
    destruct (checks_downloadThemeAssets tm path m u l W0 rd Wd Hd)
      as (Hsd & Hhd & Hfd & td & Htd & Hbad);
    clear Hd; destruct Wd as [dd sd nd fd ed nwd cd hd' trd];
    cbn [stateFiles held faults trace disk] in Hsd, Hhd, Hfd, Htd, Hbad;
    subst sd hd' trd; try (specialize (Hfd eq_refl); subst fd);
    destruct rd as [[]| |]; cbv beta iota
  end.


Section install_action.
Context `{Externals}.


End install_action.

Section install_mismatch.
Context `{Externals}.


End install_mismatch.

(** ** Installing over an installed theme *)

(** A run that did not succeed. *)
Ltac failed := cbv beta iota; intros [=].

Section install_overwrite.
Context `{Externals}.


End install_overwrite.

(** ** Updating a theme *)

Section update.
Context `{Externals}.

Lemma quiet_loadLocalThemeJSON tm themePath : quiet (themes._loadLocalThemeJSON tm themePath).
Proof. unfold themes._loadLocalThemeJSON. quiet'. Qed.

Lemma blind_loadLocalThemeJSON tm themePath : blind (themes._loadLocalThemeJSON tm themePath).
Proof. unfold themes._loadLocalThemeJSON. blind. Qed.

Lemma themes_Update_noop tm themeID w st w1 e latest n u l w2 rl w3 :
  ThemeManager_mu ∉ held w →
  configuration.LoadThemesState [] w = (Ok st, w1) →
  mapGet st themeID = Some e →
  String.eqb (InstalledThemeEntry.SourceLink e) "" = false →
  themes._fetchAndValidateDefinition tm (InstalledThemeEntry.SourceLink e) w1
    = (Ok (latest, n, u, l), w2) →
  themes._loadLocalThemeJSON tm (filepath_Join (themes.themeDir tm) themeID) w2 = (rl, w3) →
  String.eqb (InstalledThemeEntry.Version e) (ThemeMetadata.Version latest) = true
  ∨ string_lt (ThemeMetadata.Version latest) (InstalledThemeEntry.Version e) = true →
  ∃ r w', themes.Update tm themeID w = (r, w')
    ∧ disk w' = disk w ∧ stateFiles w' = stateFiles w
    ∧ forallb (λ ev, negb (isMutation ev)) (since w w') = true
    ∧ noUpdateLine (InstalledThemeEntry.Version e) (ThemeMetadata.Version latest) ∈ since w w'
    ∧ (∀ m, rl = Ok m → r = Ok m)
    ∧ (∀ p err, rl = Err p err → ∃ err', r = Err None err').
Proof.
  intros Hheld Hload Hk Hsrc Hfetch Hlocal Hcase.
  unfold themes.Update, withLock. rewrite bool_decide_eq_false_2 by done.
  set (w0 := setHeld _ w).
  destruct (run_at _ _ _ _ w0 (blind_loadState _) (quiet_loadState _) Hload eq_refl)
    as (t1 & Hrun1 & Hc1 & Ht1).
  unfold configuration.LoadThemesState in *. simpl configuration.pathOr in *.
  rewrite (bindOr_Ok _ _ _ _ _ _ Hrun1). cbv beta iota. rewrite Hk, bind_logf, Hsrc.
  match goal with |- context [bindOr _ _ _ ?W] =>
    destruct (run_at _ _ _ _ W (blind_fetchAndValidateDefinition tm _)
                (quiet_fetchAndValidateDefinition tm _) Hfetch)
      as (t2 & Hrun2 & Hc2 & Ht2); [rewrite <- Hc1; apply core_eq; simpl; tauto|]
  end.
  rewrite (bindOr_Ok _ _ _ _ _ _ Hrun2). cbv beta iota. rewrite bind_logf.
  unfold noUpdateLine.
  destruct (String.eqb (InstalledThemeEntry.Version e) (ThemeMetadata.Version latest)) eqn:Heq.
  - rewrite bind_logf.
    match goal with |- context [bindOr _ _ _ ?W] =>
      destruct (run_at _ _ _ _ W (blind_loadLocalThemeJSON tm _)
                  (quiet_loadLocalThemeJSON tm _) Hlocal)
        as (t3 & Hrun3 & Hc3 & Ht3); [rewrite <- Hc2; apply core_eq; simpl; tauto|]
    end.
    unfold bindOr at 1. rewrite Hrun3.
    destruct rl as [m|p err|s]; autorewrite with run; cbv beta iota.
    all: do 2 eexists; split; [reflexivity|]; simpl.
    all: split; [done|]; split; [done|].
    all: erewrite since_app by (simpl; rewrite <- ?app_assoc; reflexivity).
    all: split; [rewrite !forallb_app, Ht1, Ht2, Ht3; done|].
    all: split; [find_event|].
    all: split; [intros ? [=]; congruence | intros ? ? [=]; eauto].
  - destruct Hcase as [[=]|Hlt]. rewrite Hlt, bind_logf.
    match goal with |- context [bindOr _ _ _ ?W] =>
      destruct (run_at _ _ _ _ W (blind_loadLocalThemeJSON tm _)
                  (quiet_loadLocalThemeJSON tm _) Hlocal)
        as (t3 & Hrun3 & Hc3 & Ht3); [rewrite <- Hc2; apply core_eq; simpl; tauto|]
    end.
    unfold bindOr at 1. rewrite Hrun3.
    destruct rl as [m|p err|s]; autorewrite with run; cbv beta iota.
    all: do 2 eexists; split; [reflexivity|]; simpl.
    all: split; [done|]; split; [done|].
    all: erewrite since_app by (simpl; rewrite <- ?app_assoc; reflexivity).
    all: split; [rewrite !forallb_app, Ht1, Ht2, Ht3; done|].
    all: split; [find_event|].
    all: split; [intros ? [=]; congruence | intros ? ? [=]; eauto].
Qed.

Lemma themes_Update_newer tm themeID w st w1 e latest n u l w2 m w' :
  ThemeManager_mu ∉ held w →
  configuration.LoadThemesState [] w = (Ok st, w1) →
  mapGet st themeID = Some e →
  String.eqb (InstalledThemeEntry.SourceLink e) "" = false →
  themes._fetchAndValidateDefinition tm (InstalledThemeEntry.SourceLink e) w1
    = (Ok (latest, n, u, l), w2) →
  String.eqb (InstalledThemeEntry.Version e) (ThemeMetadata.Version latest) = false →
  string_lt (ThemeMetadata.Version latest) (InstalledThemeEntry.Version e) = false →
  themes.Update tm themeID w = (Ok m, w') →
  Call (OsRemoveAll (filepath_Join (themes.themeDir tm) themeID)) ∈ since w w'
  ∧ Call (OsMkdirAll (filepath_Join (themes.themeDir tm) themeID)) ∈ since w w'
  ∧ m = stamped (now w) e latest
  ∧ ∃ g, stateFiles w' !! configuration.defaultThemesStatePath
         = Some (JsonText "" "  "
                   (toJSON ({[ "themes" :=
                      Some (<[themeID :=
                              InstalledThemeEntry.mk themeID (ThemeMetadata.Name latest)
                                (ThemeMetadata.Version latest) (InstalledThemeEntry.SourceLink e)
                                (ThemeMetadata.InstalledAt m) (now w)]> g) ]}
                            : gmap string (GoMap InstalledThemeEntry.t)))).
Proof.
  intros Hheld Hload Hk Hsrc Hfetch Hneq Hnlt.
  unfold themes.Update, withLock. rewrite bool_decide_eq_false_2 by done.
  set (w0 := setHeld _ w).
  destruct (run_at _ _ _ _ w0 (blind_loadState _) (quiet_loadState _) Hload eq_refl)
    as (t1 & Hrun1 & Hc1 & Ht1).
  unfold configuration.LoadThemesState in *. simpl configuration.pathOr in *.
  rewrite (bindOr_Ok _ _ _ _ _ _ Hrun1). cbv beta iota. rewrite Hk, bind_logf, Hsrc.
  match goal with |- context [bindOr _ _ _ ?W] =>
    destruct (run_at _ _ _ _ W (blind_fetchAndValidateDefinition tm _)
                (quiet_fetchAndValidateDefinition tm _) Hfetch)
      as (t2 & Hrun2 & Hc2 & Ht2); [rewrite <- Hc1; apply core_eq; simpl; tauto|]
  end.
  rewrite (bindOr_Ok _ _ _ _ _ _ Hrun2). cbv beta iota. rewrite bind_logf, Hneq, Hnlt, bind_logf.
  clear Hrun1 Hrun2 Hc1 Hc2 Hfetch Hload.
  subst w0. generalize (faults w2), (faults w1). intros f2 f1.
  destruct w as [d s n0 f0 en nw c h t].
  unfold themes._prepareDirectoryForInstall, time_Now. cbv beta zeta iota.
  rewrite bind_bind, bind_get, bind_ret.
  cbn [now record after setHeld].
  match goal with
  | |- context [match mapGet st themeID with Some x => @?a x | None => ?b end] =>
    set (meta0 := match mapGet st themeID with Some x => a x | None => b end)
  end.
  assert (meta0 = stamped nw e latest) as Hmeta0.
  { subst meta0. rewrite Hk. unfold stamped.
    destruct (String.eqb (InstalledThemeEntry.InstalledAt e) ""); reflexivity. }
  clearbody meta0.
  match goal with
  | |- context [Wrapf _ [ThemeMetadata.Name ?x; _] _] => generalize x; intros metaLog
  end.
  run.
  repeat (split_head; try solve [failed]).
  all: download_step; try solve [failed].
  all: unfold themes._writeLocalThemeJSON, themes._updateGlobalThemesState,
         themes.discoverThemesLocked, configuration.LoadThemesState,
         configuration.SaveThemesState, configuration.saveState;
       simpl configuration.pathOr; run.
  all: repeat (first [split_head | load_step InstalledThemeEntry.t]; try solve [failed]).
  all: intros [= <- <-].
  all: split;
       [ erewrite since_app by (cbn [trace]; rewrite <- ?app_assoc; reflexivity); find_event |].
  all: split;
       [ erewrite since_app by (cbn [trace]; rewrite <- ?app_assoc; reflexivity); find_event |].
  all: split; [done|].
  all: eexists; cbn [stateFiles now]; rewrite lookup_insert_eq; subst meta0; reflexivity.
Qed.

End update.

(** ** Updating a plugin *)

Section update_plugin.
Context `{Externals}.

Lemma plain_downloadFile a b c baseURL isLocalSource :
  plain (plugins.downloadFile a b c baseURL isLocalSource).
Proof. unfold plugins.downloadFile. plain'. Qed.

Lemma plain_downloadItems :
  (∀ item a b c name baseURL isLocalSource,
     plain (plugins.downloadItem a b c name item baseURL isLocalSource))
  ∧ (∀ structure a b c baseURL isLocalSource,
       plain (plugins.downloadItems a b c structure baseURL isLocalSource)).
Proof.
  apply Value_Structure_ind.
  - intros ? a b c name bu il. simpl. plain'.
  - intros m IH a b c name bu il. simpl.
    repeat case_match; try solve [plain'].
    apply plain_bindOr; [solve [plain'] | solve [plain'] | intros ?].
    repeat case_match; try solve [plain']. apply IH.
  - intros s a b c name bu il. simpl. apply plain_downloadFile.
  - intros a b c name bu il. simpl. plain'.
  - intros a b c bu il. simpl. plain'.
  - intros name item IHi rest IHr a b c bu il. simpl.
    apply plain_bind; [apply IHi | intros ?; apply IHr].
Qed.

Lemma plain_downloadAndSavePluginStructure pm a b structure baseURL isLocalSource :
  plain (plugins.downloadAndSavePluginStructure pm a b structure baseURL isLocalSource).
Proof.
  unfold plugins.downloadAndSavePluginStructure. case_match; [|plain'].
  apply plain_downloadItems.
Qed.

Lemma plugins_Update_same pm pluginID w st w1 e yaml u l n w2 latest :
  PluginManager_mu ∉ held w →
  configuration.LoadPluginsState [] w = (Ok st, w1) →
  mapGet st pluginID = Some e →
  plugins.fetchPluginYAML pm (InstalledPluginEntry.SourceLink e) w1 = (Ok (yaml, u, l, n), w2) →
  yaml_Unmarshal_PluginMetadata yaml = Some latest →
  plugins.Validate latest = None →
  String.eqb (InstalledPluginEntry.Version e) (PluginMetadata.Version latest) = true →
  ∃ w', plugins.UpdatePlugin pm pluginID w = (Ok None, w')
        ∧ disk w' = disk w ∧ stateFiles w' = stateFiles w
        ∧ forallb (λ ev, negb (isMutation ev)) (since w w') = true.
Proof.
  intros Hheld Hload Hk Hfetch Hyaml Hval Heq.
  unfold plugins.UpdatePlugin, withLock. rewrite bool_decide_eq_false_2 by done.
  rewrite bind_logf. set (w0 := record _ (setHeld _ w)).
  destruct (run_at _ _ _ _ w0 (blind_loadState _) (quiet_loadState _) Hload eq_refl)
    as (t1 & Hrun1 & Hc1 & Ht1).
  unfold configuration.LoadPluginsState in *. simpl configuration.pathOr in *.
  rewrite (bindOr_Ok _ _ _ _ _ _ Hrun1). cbv beta iota. rewrite Hk, bind_logf.
  match goal with |- context [bindOr _ _ _ ?W] =>
    destruct (run_at _ _ _ _ W (blind_fetchPluginYAML pm _)
                (quiet_fetchPluginYAML pm _) Hfetch)
      as (t2 & Hrun2 & Hc2 & Ht2); [rewrite <- Hc1; apply core_eq; simpl; tauto|]
  end.
  rewrite (bindOr_Ok _ _ _ _ _ _ Hrun2). cbv beta iota.
  rewrite Hyaml, Hval, bind_logf, Heq, bind_logf.
  eexists. split; [reflexivity|]. simpl.
  split; [done|]. split; [done|].
  erewrite since_app by (simpl; rewrite <- ?app_assoc; reflexivity).
  rewrite !forallb_app, Ht1, Ht2. done.
Qed.

(** Downloading the files of a plugin in the middle of a run. *)
Ltac plugin_download_step :=
  match goal with
  | |- context [plugins.downloadAndSavePluginStructure ?pm ?a ?b ?m ?u ?l ?W0] =>
    let rd := fresh "rd" in
    let Wd := fresh "Wd" in
    let Hsd := fresh "Hsd" in
    let Hhd := fresh "Hhd" in
    let td := fresh "td" in
    let Htd := fresh "Htd" in
    let dd := fresh "dd" in
    let sd := fresh "sd" in
    let nd := fresh "nd" in
    let fd := fresh "fd" in
    let ed := fresh "ed" in
    let nwd := fresh "nwd" in
    let cd := fresh "cd" in
    let hd' := fresh "hd" in
    let trd := fresh "trd" in
    destruct (plain_downloadAndSavePluginStructure pm a b m u l W0)
      as (Hsd & Hhd & _ & td & Htd & _);
    destruct (plugins.downloadAndSavePluginStructure pm a b m u l W0) as [rd Wd];
    destruct Wd as [dd sd nd fd ed nwd cd hd' trd];
    cbn [stateFiles held faults trace disk fst snd] in Hsd, Hhd, Htd;
    subst sd hd' trd; destruct rd as [[]| |]; cbv beta iota
  end.

Lemma plugins_Update_other pm pluginID w st w1 e yaml u l n w2 latest r w' :
  PluginManager_mu ∉ held w →
  configuration.LoadPluginsState [] w = (Ok st, w1) →
  mapGet st pluginID = Some e →
  plugins.fetchPluginYAML pm (InstalledPluginEntry.SourceLink e) w1 = (Ok (yaml, u, l, n), w2) →
  yaml_Unmarshal_PluginMetadata yaml = Some latest →
  plugins.Validate latest = None →
  String.eqb (InstalledPluginEntry.Version e) (PluginMetadata.Version latest) = false →
  plugins.UpdatePlugin pm pluginID w = (Ok r, w') →
  r = Some latest
  ∧ Call (OsRemoveAll (filepath_Join (plugins.pluginDir pm) pluginID)) ∈ since w w'
  ∧ Call (OsMkdirAll (filepath_Join (plugins.pluginDir pm) pluginID)) ∈ since w w'.
Proof.
  intros Hheld Hload Hk Hfetch Hyaml Hval Hneq.
  unfold plugins.UpdatePlugin, withLock. rewrite bool_decide_eq_false_2 by done.
  rewrite bind_logf. set (w0 := record _ (setHeld _ w)).
  destruct (run_at _ _ _ _ w0 (blind_loadState _) (quiet_loadState _) Hload eq_refl)
    as (t1 & Hrun1 & Hc1 & Ht1).
  unfold configuration.LoadPluginsState in *. simpl configuration.pathOr in *.
  rewrite (bindOr_Ok _ _ _ _ _ _ Hrun1). cbv beta iota. rewrite Hk, bind_logf.
  match goal with |- context [bindOr _ _ _ ?W] =>
    destruct (run_at _ _ _ _ W (blind_fetchPluginYAML pm _)
                (quiet_fetchPluginYAML pm _) Hfetch)
      as (t2 & Hrun2 & Hc2 & Ht2); [rewrite <- Hc1; apply core_eq; simpl; tauto|]
  end.
  rewrite (bindOr_Ok _ _ _ _ _ _ Hrun2). cbv beta iota.
  rewrite Hyaml, Hval, bind_logf, Hneq, bind_logf.
  clear Hrun1 Hrun2 Hc1 Hc2 Hfetch Hload.
  subst w0. generalize (faults w2), (faults w1). intros f2 f1.
  destruct w as [d s n0 f0 en nw c h t].
  unfold plugins.checkTarget, configuration.SavePluginsState, configuration.saveState.
  simpl configuration.pathOr. run.
  repeat (split_head; try solve [failed]).
  all: plugin_download_step; try solve [failed].
  all: repeat (split_head; try solve [failed]).
  all: intros [= <- <-].
  all: split; [done|].
  all: split;
       erewrite since_app by (cbn [trace]; rewrite <- ?app_assoc; reflexivity); find_event.
Qed.

End update_plugin.

Import sample examples.

(** * The claims *)

(** Closed facts are settled by evaluation. *)
Ltac evaluated := vm_compute; reflexivity.
Ltac decided :=
  match goal with |- ?P => apply (bool_decide_unpack P) end; vm_compute; exact I.




(** C2 (amended).  Removing a theme writes the state document before it
    deletes anything, and a removal that succeeds has deleted the
    directory.  Removing a plugin or a command goes the other way round:
    the directory or the script is deleted first and the state document is
    written after it, and a plugin removal that succeeds has written it. *)
Theorem C2_remove_order `{Externals} :
  (∀ tm themeID w,
     writtenBeforeDeleted configuration.defaultThemesStatePath
       (since w (themes.Remove tm themeID w).2) = true
     ∧ ((themes.Remove tm themeID w).1 = Ok tt →
        existsb isDeletion (since w (themes.Remove tm themeID w).2) = true))
  ∧ (∀ pm pluginID w,
       deletedBeforeWritten configuration.defaultPluginsStatePath
         (since w (plugins.RemovePlugin pm pluginID w).2) = true
       ∧ ((plugins.RemovePlugin pm pluginID w).1 = Ok tt →
          existsb (isWriteOf configuration.defaultPluginsStatePath)
            (since w (plugins.RemovePlugin pm pluginID w).2) = true))
  ∧ (∀ cm commandName w,
       deletedBeforeWritten configuration.defaultCommandsStatePath
         (since w (commands.RemoveCommand cm commandName w).2) = true).
Proof.
  split; [|split].
  - intros tm themeID w. destruct (themes.Remove tm themeID w) as [r w'] eqn:Hrun.
    by apply themes_Remove_order in Hrun.
  - intros pm pluginID w. destruct (plugins.RemovePlugin pm pluginID w) as [r w'] eqn:Hrun.
    by apply plugins_Remove_order in Hrun.
  - intros cm commandName w.
    destruct (commands.RemoveCommand cm commandName w) as [r w'] eqn:Hrun.
    by apply commands_Remove_order in Hrun.
Qed.

Lemma C2_witness :
  existsb isDeletion (since themeInstalled (themes.Remove tm "thm_k3x9" themeInstalled).2) = true
  ∧ existsb (isWriteOf configuration.defaultPluginsStatePath)
      (since pluginInstalled (plugins.RemovePlugin pm "plg_k3x9" pluginInstalled).2) = true
  ∧ deletedBeforeWritten configuration.defaultCommandsStatePath
      (since commandInstalled (commands.RemoveCommand cm "backup" commandInstalled).2) = true.
Proof.
  split; [|split].
  - apply (proj1 C2_remove_order tm "thm_k3x9" themeInstalled). evaluated.
  - apply (proj1 (proj2 C2_remove_order) pm "plg_k3x9" pluginInstalled). evaluated.
  - apply (proj2 (proj2 C2_remove_order) cm "backup" commandInstalled).
Defined.

(** Removing a plugin deletes its directory before the state document is
    written, and so does removing a command with its script. *)
Lemma C2_counterexample :
  (plugins.RemovePlugin pm "plg_k3x9" pluginInstalled).1 = Ok tt
  ∧ writtenBeforeDeleted configuration.defaultPluginsStatePath
      (since pluginInstalled (plugins.RemovePlugin pm "plg_k3x9" pluginInstalled).2) = false
  ∧ filter (λ ev, isMutation ev = true)
      (since commandInstalled (commands.RemoveCommand cm "backup" commandInstalled).2)
    = [ Call (OsRemove backupPath); Call (OsMkdirAll "configs");
        Call (OsWriteFile configuration.defaultCommandsStatePath) ].
Proof. vm_compute. repeat split; reflexivity. Qed.

(** C3 (amended).  An update whose remote manifest was fetched and
    validated:
    - for a theme, when the remote version equals the installed one or is
      smaller than it in the string order, nothing on disk and nothing in
      the state files changes, the two cases leave different lines in the
      log, and the call returns the manifest stored in the theme's
      directory, or an error when that manifest cannot be read;
    - for a theme, in every other case a call that succeeds has emptied and
      recreated the directory of the same ID, returns the remote manifest
      stamped with the entry's original installation time, and has written
      the entry with that time and the current time as its last update;
    - for a plugin, an equal version returns no manifest and changes
      nothing;
    - for a plugin, any other version, smaller ones among them, makes a
      call that succeeds empty and recreate the plugin's directory and
      return the remote manifest. *)
Theorem C3_update_versions `{Externals} :
  (∀ tm themeID w st w1 e latest n u l w2 rl w3,
     ThemeManager_mu ∉ held w →
     configuration.LoadThemesState [] w = (Ok st, w1) →
     mapGet st themeID = Some e →
     String.eqb (InstalledThemeEntry.SourceLink e) "" = false →
     themes._fetchAndValidateDefinition tm (InstalledThemeEntry.SourceLink e) w1
       = (Ok (latest, n, u, l), w2) →
     themes._loadLocalThemeJSON tm (filepath_Join (themes.themeDir tm) themeID) w2 = (rl, w3) →
     String.eqb (InstalledThemeEntry.Version e) (ThemeMetadata.Version latest) = true
     ∨ string_lt (ThemeMetadata.Version latest) (InstalledThemeEntry.Version e) = true →
     ∃ r w', themes.Update tm themeID w = (r, w')
       ∧ disk w' = disk w ∧ stateFiles w' = stateFiles w
       ∧ forallb (λ ev, negb (isMutation ev)) (since w w') = true
       ∧ noUpdateLine (InstalledThemeEntry.Version e) (ThemeMetadata.Version latest)
           ∈ since w w'
       ∧ (∀ m, rl = Ok m → r = Ok m)
       ∧ (∀ p err, rl = Err p err → ∃ err', r = Err None err'))
  ∧ (∀ tm themeID w st w1 e latest n u l w2 m w',
       ThemeManager_mu ∉ held w →
       configuration.LoadThemesState [] w = (Ok st, w1) →
       mapGet st themeID = Some e →
       String.eqb (InstalledThemeEntry.SourceLink e) "" = false →
       themes._fetchAndValidateDefinition tm (InstalledThemeEntry.SourceLink e) w1
         = (Ok (latest, n, u, l), w2) →
       String.eqb (InstalledThemeEntry.Version e) (ThemeMetadata.Version latest) = false →
       string_lt (ThemeMetadata.Version latest) (InstalledThemeEntry.Version e) = false →
       themes.Update tm themeID w = (Ok m, w') →
       Call (OsRemoveAll (filepath_Join (themes.themeDir tm) themeID)) ∈ since w w'
       ∧ Call (OsMkdirAll (filepath_Join (themes.themeDir tm) themeID)) ∈ since w w'
       ∧ m = stamped (now w) e latest
       ∧ ∃ g, stateFiles w' !! configuration.defaultThemesStatePath
              = Some (JsonText "" "  "
                        (toJSON ({[ "themes" :=
                           Some (<[themeID :=
                                   InstalledThemeEntry.mk themeID (ThemeMetadata.Name latest)
                                     (ThemeMetadata.Version latest)
                                     (InstalledThemeEntry.SourceLink e)
                                     (ThemeMetadata.InstalledAt m) (now w)]> g) ]}
                                 : gmap string (GoMap InstalledThemeEntry.t)))))
  ∧ (∀ pm pluginID w st w1 e yaml u l n w2 latest,
       PluginManager_mu ∉ held w →
       configuration.LoadPluginsState [] w = (Ok st, w1) →
       mapGet st pluginID = Some e →
       plugins.fetchPluginYAML pm (InstalledPluginEntry.SourceLink e) w1
         = (Ok (yaml, u, l, n), w2) →
       yaml_Unmarshal_PluginMetadata yaml = Some latest →
       plugins.Validate latest = None →
       String.eqb (InstalledPluginEntry.Version e) (PluginMetadata.Version latest) = true →
       ∃ w', plugins.UpdatePlugin pm pluginID w = (Ok None, w')
             ∧ disk w' = disk w ∧ stateFiles w' = stateFiles w
             ∧ forallb (λ ev, negb (isMutation ev)) (since w w') = true)
  ∧ (∀ pm pluginID w st w1 e yaml u l n w2 latest r w',
       PluginManager_mu ∉ held w →
       configuration.LoadPluginsState [] w = (Ok st, w1) →
       mapGet st pluginID = Some e →
       plugins.fetchPluginYAML pm (InstalledPluginEntry.SourceLink e) w1
         = (Ok (yaml, u, l, n), w2) →
       yaml_Unmarshal_PluginMetadata yaml = Some latest →
       plugins.Validate latest = None →
       String.eqb (InstalledPluginEntry.Version e) (PluginMetadata.Version latest) = false →
       plugins.UpdatePlugin pm pluginID w = (Ok r, w') →
       r = Some latest
       ∧ Call (OsRemoveAll (filepath_Join (plugins.pluginDir pm) pluginID)) ∈ since w w'
       ∧ Call (OsMkdirAll (filepath_Join (plugins.pluginDir pm) pluginID)) ∈ since w w').
Proof.
  split; [|split; [|split]].
  - intros. by eapply themes_Update_noop.
  - intros. by eapply themes_Update_newer.
  - intros. by eapply plugins_Update_same.
  - intros. by eapply plugins_Update_other.
Qed.

Lemma C3_witness :
  (∃ r w', themes.Update tm "thm_k3x9" themeInstalled = (r, w')
     ∧ disk w' = disk themeInstalled ∧ stateFiles w' = stateFiles themeInstalled
     ∧ forallb (λ ev, negb (isMutation ev)) (since themeInstalled w') = true
     ∧ noUpdateLine "1.0.0" "1.0.0" ∈ since themeInstalled w')
  ∧ (Call (OsRemoveAll "ext/themes/thm_k3x9")
       ∈ since (themeServed "aurora 2.0.0")
           (themes.Update tm "thm_k3x9" (themeServed "aurora 2.0.0")).2
     ∧ stamped "2025-06-01T08:30:00Z" auroraEntry (aurora "2.0.0" helloSum)
       = ThemeMetadata.withLastUpdatedAt "2025-06-01T08:30:00Z"
           (ThemeMetadata.withInstalledAt "2025-05-01T10:00:00Z" (aurora "2.0.0" helloSum))).
Proof.
  split.
  - destruct (proj1 C3_update_versions tm "thm_k3x9" themeInstalled
                (Some {[ "thm_k3x9" := auroraEntry ]})
                (configuration.LoadThemesState [] themeInstalled).2
                auroraEntry (aurora "1.0.0" helloSum) themeLink (Some themeURL) false
                (themes._fetchAndValidateDefinition tm themeLink
                   (configuration.LoadThemesState [] themeInstalled).2).2
                (themes._loadLocalThemeJSON tm "ext/themes/thm_k3x9"
                   (themes._fetchAndValidateDefinition tm themeLink
                      (configuration.LoadThemesState [] themeInstalled).2).2).1
                (themes._loadLocalThemeJSON tm "ext/themes/thm_k3x9"
                   (themes._fetchAndValidateDefinition tm themeLink
                      (configuration.LoadThemesState [] themeInstalled).2).2).2)
      as (r & w' & Hrun & Hdisk & Hstate & Hquiet & Hline & _).
    + decided.
    + evaluated.
    + evaluated.
    + evaluated.
    + evaluated.
    + evaluated.
    + left. evaluated.
    + exists r, w'. repeat split; assumption.
  - destruct (proj1 (proj2 C3_update_versions) tm "thm_k3x9" (themeServed "aurora 2.0.0")
                (Some {[ "thm_k3x9" := auroraEntry ]})
                (configuration.LoadThemesState [] (themeServed "aurora 2.0.0")).2
                auroraEntry (aurora "2.0.0" helloSum) themeLink (Some themeURL) false
                (themes._fetchAndValidateDefinition tm themeLink
                   (configuration.LoadThemesState [] (themeServed "aurora 2.0.0")).2).2
                (stamped "2025-06-01T08:30:00Z" auroraEntry (aurora "2.0.0" helloSum))
                (themes.Update tm "thm_k3x9" (themeServed "aurora 2.0.0")).2)
      as (Hrm & _ & _ & _).
    + decided.
    + evaluated.
    + evaluated.
    + evaluated.
    + evaluated.
    + evaluated.
    + evaluated.
    + evaluated.
    + split; [exact Hrm | evaluated].
Defined.

(** A plugin whose source serves a smaller version is updated to it: the
    directory is emptied and written again. *)
Lemma C3_counterexample :
  string_lt "0.9.0" "1.0.0" = true
  ∧ (configuration.LoadPluginsState [] (pluginServed "metrics 0.9.0")).1
    = Ok (Some {[ "plg_k3x9" := metricsEntry ]})
  ∧ (plugins.UpdatePlugin pm "plg_k3x9" (pluginServed "metrics 0.9.0")).1
    = Ok (Some (metrics "0.9.0"))
  ∧ existsb isMutation
      (since (pluginServed "metrics 0.9.0")
         (plugins.UpdatePlugin pm "plg_k3x9" (pluginServed "metrics 0.9.0")).2) = true.
Proof. vm_compute. repeat split; reflexivity. Qed.






(** C6 (amended).  The pattern is matched against the checksum in lower
    case, so what it tests is that the checksum is sixty-four hexadecimal
    digits of either case; a theme manifest with a leaf whose checksum is
    not of that shape fails validation. *)
Theorem C6_checksum_shape `{Externals} :
  (∀ sum, matchSHA256Pattern (ToLower sum) = isHex64 sum)
  ∧ (∀ m sum,
       sum ∈ themes.checksums (ThemeMetadata.Structure m) → isHex64 sum = false →
       is_Some (themes.Validate m)).
Proof.
  split.
  - apply matchSHA256Pattern_ToLower.
  - intros m sum Hin Hbad. apply Validate_structure.
    by apply (validateStructureContent_checksum sum Hbad).
Qed.

Lemma C6_witness : is_Some (themes.Validate (aurora "1.0.0" "2cf24dba")).
Proof.
  apply (proj2 C6_checksum_shape (aurora "1.0.0" "2cf24dba") "2cf24dba").
  - decided.
  - reflexivity.
Defined.

(** A checksum written with upper case digits passes validation. *)
Lemma C6_counterexample :
  helloSumUpper ∈ themes.checksums (ThemeMetadata.Structure (aurora "1.0.0" helloSumUpper))
  ∧ matchSHA256Pattern helloSumUpper = false
  ∧ themes.Validate (aurora "1.0.0" helloSumUpper) = None.
Proof. split; [decided | vm_compute; split; reflexivity]. Qed.













(** C10 (amended).  For each kind, when no system call fails and every key
    and every string of every entry is valid UTF-8, saving a map and then
    loading from the same path gives back the map, the empty map and the
    nil map both giving the empty map; and whatever a load returns without
    an error is not the nil map. *)
Theorem C10_state_roundtrip `{Externals} :
  (∀ m statePath w,
     faults w = [] → (∀ g, m = Some g → validMap validThemeEntry g) →
     ∃ w1 w2,
       configuration.SaveThemesState m statePath w = (Ok tt, w1)
       ∧ configuration.LoadThemesState statePath w1 = (Ok (Some (default ∅ m)), w2))
  ∧ (∀ m statePath w,
       faults w = [] → (∀ g, m = Some g → validMap validPluginEntry g) →
       ∃ w1 w2,
         configuration.SavePluginsState m statePath w = (Ok tt, w1)
         ∧ configuration.LoadPluginsState statePath w1 = (Ok (Some (default ∅ m)), w2))
  ∧ (∀ m statePath w,
       faults w = [] → (∀ g, m = Some g → validMap validCommandEntry g) →
       ∃ w1 w2,
         configuration.SaveCommandsState m statePath w = (Ok tt, w1)
         ∧ configuration.LoadCommandsState statePath w1 = (Ok (Some (default ∅ m)), w2))
  ∧ (∀ statePath w st w',
       configuration.LoadThemesState statePath w = (Ok st, w') → is_Some st)
  ∧ (∀ statePath w st w',
       configuration.LoadPluginsState statePath w = (Ok st, w') → is_Some st)
  ∧ (∀ statePath w st w',
       configuration.LoadCommandsState statePath w = (Ok st, w') → is_Some st).
Proof.
  repeat split.
  - intros m statePath w Hf Hm.
    by apply (saveState_loadState validThemeEntry themeEntry_roundtrip).
  - intros m statePath w Hf Hm.
    by apply (saveState_loadState validPluginEntry pluginEntry_roundtrip).
  - intros m statePath w Hf Hm.
    by apply (saveState_loadState validCommandEntry commandEntry_roundtrip).
  - intros statePath w st w'. apply loadState_not_nil.
  - intros statePath w st w'. apply loadState_not_nil.
  - intros statePath w st w'. apply loadState_not_nil.
Qed.

Lemma C10_witness :
  ∃ w1 w2,
    configuration.SaveThemesState (Some {[ "thm_k3x9" := auroraEntry ]}) [] (fresh ∅)
      = (Ok tt, w1)
    ∧ configuration.LoadThemesState [] w1 = (Ok (Some {[ "thm_k3x9" := auroraEntry ]}), w2).
Proof.
  destruct (proj1 C10_state_roundtrip (Some {[ "thm_k3x9" := auroraEntry ]}) [] (fresh ∅))
    as (w1 & w2 & Hsave & Hload).
  - reflexivity.
  - intros g [= <-] k v [<- <-]%lookup_singleton_Some.
    repeat split; vm_compute; reflexivity.
  - exists w1, w2. split; [exact Hsave | exact Hload].
Defined.

(** An entry whose name is not valid UTF-8 comes back with the replacement
    character in its place. *)
Lemma C10_counterexample :
  String.eqb badName replacement = false
  ∧ (configuration.SaveThemesState (Some {[ "thm_k3x9" := badEntry ]}) [] (fresh ∅)).1
    = Ok tt
  ∧ (configuration.LoadThemesState []
       (configuration.SaveThemesState (Some {[ "thm_k3x9" := badEntry ]}) []
          (fresh ∅)).2).1
    = Ok (Some {[ "thm_k3x9" := coercedEntry ]}).
Proof. vm_compute. repeat split; reflexivity. Qed.

(* ================================================================== *)
(** * Further results *)
(* ================================================================== *)

(** ** White space *)

Ltac split_test :=
  match goal with
  | |- context [if ?b then _ else _] => destruct b eqn:?
  | H : context [if ?b then _ else _] |- _ => destruct b eqn:?
  end.

Lemma append_String c r b : String c r +:+ b = String c (r +:+ b).
Proof. reflexivity. Qed.

Lemma append_Empty b : "" +:+ b = b.
Proof. reflexivity. Qed.

(** The next byte of [s], if there is one. *)
Ltac next_byte s :=
  let c := fresh "c" in
  let r := fresh "r" in
  destruct s as [|c r];
  rewrite ?append_String, ?append_Empty in *;
  cbn [TrimLeftSpace isBlank String.length] in *.

(** The cases of [TrimLeftSpace] and [isBlank] on a string [s]: [rec] for
    the three in which a rune of white space was found, [short] for the
    others. *)
Ltac space_cases s rec short :=
  next_byte s; [short|];
  split_test; [rec|];
  match goal with r : string |- _ => next_byte r; [short|] end;
  split_test; [rec|];
  match goal with r : string |- _ => next_byte r; [short|] end;
  split_test; [rec|short].

Lemma length_TrimLeftSpace_aux n :
  ∀ s, (String.length s < n)%nat → (String.length (TrimLeftSpace s) <= String.length s)%nat.
Proof.
  induction n as [|n IH]; intros s Hn; [lia|].
  space_cases s
    ltac:(idtac; match goal with |- (String.length (TrimLeftSpace ?x) <= _)%nat =>
            specialize (IH x); lia end)
    ltac:(cbn [String.length]; lia).
Qed.

Lemma length_TrimLeftSpace s :
  (String.length (TrimLeftSpace s) <= String.length s)%nat.
Proof. apply (length_TrimLeftSpace_aux (S (String.length s))). lia. Qed.

Lemma TrimLeftSpace_idem_aux n :
  ∀ s, (String.length s < n)%nat → TrimLeftSpace (TrimLeftSpace s) = TrimLeftSpace s.
Proof.
  induction n as [|n IH]; intros s Hn; [lia|].
  space_cases s
    ltac:(idtac; apply IH; lia)
    ltac:(idtac; cbn [TrimLeftSpace];
          repeat match goal with H : ?b = _ |- context [?b] => rewrite H end;
          reflexivity).
Qed.

Lemma TrimLeftSpace_idem s : TrimLeftSpace (TrimLeftSpace s) = TrimLeftSpace s.
Proof. apply (TrimLeftSpace_idem_aux (S (String.length s))). lia. Qed.

(** A string is blank when trimming it on the left leaves nothing. *)
Lemma isBlank_TrimLeftSpace_aux n :
  ∀ s, (String.length s < n)%nat → isBlank s = String.eqb (TrimLeftSpace s) "".
Proof.
  induction n as [|n IH]; intros s Hn; [lia|].
  space_cases s ltac:(idtac; apply IH; lia) ltac:(reflexivity).
Qed.

Lemma isBlank_TrimLeftSpace s : isBlank s = String.eqb (TrimLeftSpace s) "".
Proof. apply (isBlank_TrimLeftSpace_aux (S (String.length s))). lia. Qed.

Lemma isBlank_app_aux n :
  ∀ a b, (String.length a < n)%nat →
         isBlank a = true → isBlank b = true → isBlank (a +:+ b) = true.
Proof.
  induction n as [|n IH]; intros a b Hn Ha Hb; [lia|].
  space_cases a ltac:(idtac; apply IH; [lia|done..]) ltac:(done).
Qed.

Lemma isBlank_app a b : isBlank a = true → isBlank b = true → isBlank (a +:+ b) = true.
Proof. apply (isBlank_app_aux (S (String.length a))). lia. Qed.

Lemma TrimRightSpace_app s :
  ∃ t, s = TrimRightSpace s +:+ t ∧ isBlank t = true.
Proof.
  induction s as [|c r [t [Hr Ht]]].
  - by exists "".
  - cbn [TrimRightSpace]. destruct (isBlank (String c r)) eqn:Hb.
    + by exists (String c r).
    + exists t. split; [|done]. rewrite append_String. by rewrite <- Hr.
Qed.

Lemma TrimRightSpace_idem s : TrimRightSpace (TrimRightSpace s) = TrimRightSpace s.
Proof.
  induction s as [|c r IH]; [done|].
  cbn [TrimRightSpace]. destruct (isBlank (String c r)) eqn:Hb; [done|].
  cbn [TrimRightSpace]. rewrite IH.
  destruct (isBlank (String c (TrimRightSpace r))) eqn:Hb'; [|done].
  destruct (TrimRightSpace_app r) as (t & Hr & Ht).
  pose proof (isBlank_app _ _ Hb' Ht) as Hall.
  rewrite append_String, <- Hr in Hall. congruence.
Qed.

Lemma TrimLeftSpace_prefix_aux n :
  ∀ p t, (String.length p < n)%nat →
         TrimLeftSpace (p +:+ t) = p +:+ t → TrimLeftSpace p = p.
Proof.
  induction n as [|n IH]; intros p t Hn Hpt; [lia|].
  assert (Hshort : ∀ x, (String.length x < String.length (p +:+ t))%nat →
                        TrimLeftSpace x ≠ p +:+ t).
  { intros x Hx Heq. pose proof (length_TrimLeftSpace x). rewrite Heq in *. lia. }
  space_cases p
    ltac:(idtac; exfalso; (eapply Hshort; [|exact Hpt]); cbn [String.length]; lia)
    ltac:(reflexivity).
Qed.

Lemma TrimLeftSpace_prefix p t : TrimLeftSpace (p +:+ t) = p +:+ t → TrimLeftSpace p = p.
Proof. apply (TrimLeftSpace_prefix_aux (S (String.length p))). lia. Qed.

Lemma TrimSpace_idem s : TrimSpace (TrimSpace s) = TrimSpace s.
Proof.
  unfold TrimSpace.
  destruct (TrimRightSpace_app (TrimLeftSpace s)) as (t & Hs & _).
  assert (Hleft : TrimLeftSpace (TrimRightSpace (TrimLeftSpace s))
                  = TrimRightSpace (TrimLeftSpace s)).
  { apply (TrimLeftSpace_prefix _ t). rewrite <- Hs. apply TrimLeftSpace_idem. }
  by rewrite Hleft, TrimRightSpace_idem.
Qed.

Lemma isBlank_TrimRightSpace s : isBlank s = String.eqb (TrimRightSpace s) "".
Proof. destruct s as [|c r]; [done|]. cbn [TrimRightSpace]. by destruct (isBlank (String c r)). Qed.

Lemma isBlank_TrimSpace s : isBlank s = String.eqb (TrimSpace s) "".
Proof.
  unfold TrimSpace. rewrite <- isBlank_TrimRightSpace, !isBlank_TrimLeftSpace.
  by rewrite TrimLeftSpace_idem.
Qed.

Lemma TrimLeftSpace_suffix_aux n :
  ∀ s, (String.length s < n)%nat → ∃ a, s = a +:+ TrimLeftSpace s.
Proof.
  induction n as [|n IH]; intros s Hn; [lia|].
  space_cases s
    ltac:(idtac;
          match goal with |- ∃ a, ?x = a +:+ TrimLeftSpace ?r =>
            let a := fresh "a" in
            let Ha := fresh "Ha" in
            destruct (IH r) as [a Ha]; [lia|];
            match x with
            | String ?c0 (String ?c1 (String ?c2 r)) =>
              exists (String c0 (String c1 (String c2 a)))
            | String ?c0 (String ?c1 r) => exists (String c0 (String c1 a))
            | String ?c0 r => exists (String c0 a)
            end;
            rewrite !append_String; by rewrite <- Ha
          end)
    ltac:(by exists "").
Qed.

Lemma TrimLeftSpace_suffix s : ∃ a, s = a +:+ TrimLeftSpace s.
Proof. apply (TrimLeftSpace_suffix_aux (S (String.length s))). lia. Qed.

(** ** Lists written with commas *)

Lemma ContainsAny_app a b chars :
  ContainsAny (a +:+ b) chars = ContainsAny a chars || ContainsAny b chars.
Proof.
  induction a as [|c a IH]; [done|].
  rewrite append_String. cbn [ContainsAny]. rewrite IH. by rewrite orb_assoc.
Qed.

Lemma ContainsAny_TrimSpace s chars :
  ContainsAny s chars = false → ContainsAny (TrimSpace s) chars = false.
Proof.
  intros Hs. unfold TrimSpace.
  destruct (TrimLeftSpace_suffix s) as [a Ha].
  destruct (TrimRightSpace_app (TrimLeftSpace s)) as (t & Ht & _).
  rewrite Ha, Ht, !ContainsAny_app in Hs.
  by apply orb_false_elim in Hs as [_ [? _]%orb_false_elim].
Qed.

Lemma Split_not_nil sep s : Split sep s ≠ [].
Proof. destruct s as [|c r]; cbn [Split]; [done|]. by repeat case_match. Qed.

Lemma Split_free sep s p : p ∈ Split sep s → ContainsAny p [sep] = false.
Proof.
  revert p. induction s as [|c r IH]; intros p Hp; cbn [Split] in Hp.
  - by apply list_elem_of_singleton in Hp as ->.
  - destruct (Ascii.eqb c sep) eqn:Hc.
    + apply elem_of_cons in Hp as [->|Hp]; [done|by apply IH].
    + destruct (Split sep r) as [|h t] eqn:Hr; [by destruct (Split_not_nil sep r)|].
      apply elem_of_cons in Hp as [->|Hp].
      * cbn [ContainsAny]. rewrite (IH h) by apply list_elem_of_here.
        apply Ascii.eqb_neq in Hc. rewrite bool_decide_eq_false_2; [done|].
        by intros ->%list_elem_of_singleton.
      * apply IH. by apply list_elem_of_further.
Qed.

Lemma Split_whole sep s : ContainsAny s [sep] = false → Split sep s = [s].
Proof.
  induction s as [|c r IH]; [done|]. cbn [ContainsAny Split].
  intros [Hc Hr]%orb_false_elim. rewrite (IH Hr).
  destruct (Ascii.eqb c sep) eqn:Heq; [|done].
  apply Ascii.eqb_eq in Heq as ->.
  rewrite bool_decide_eq_true_2 in Hc; [done|apply list_elem_of_here].
Qed.

Lemma Split_app sep a b :
  ContainsAny a [sep] = false → Split sep (a +:+ String sep b) = a :: Split sep b.
Proof.
  induction a as [|c r IH].
  - intros _. rewrite append_Empty. cbn [Split]. by rewrite Ascii.eqb_refl.
  - cbn [ContainsAny]. intros [Hc Hr]%orb_false_elim.
    rewrite append_String. cbn [Split]. rewrite (IH Hr).
    destruct (Ascii.eqb c sep) eqn:Heq; [|done].
    apply Ascii.eqb_eq in Heq as ->.
    rewrite bool_decide_eq_true_2 in Hc; [done|apply list_elem_of_here].
Qed.

Lemma Join_not_empty l sep x : x ≠ "" → Join (x :: l) sep ≠ "".
Proof. destruct x; [done|]. intros _. by destruct l. Qed.

Lemma TrimSpace_Split_space s :
  TrimSpace <$> Split "," (String " " s) = TrimSpace <$> Split "," s.
Proof.
  cbn [Split]. change (Ascii.eqb " " ",") with false. cbv iota.
  destruct (Split "," s) as [|h t] eqn:Hs; [by destruct (Split_not_nil "," s)|].
  done.
Qed.

(** X1.  Every element of the list [splitAndTrim] returns is a piece of
    the input between two commas with the white space around it removed: it
    is not empty, it has no white space at either end and no comma. *)
Theorem splitAndTrim_elements s x :
  x ∈ commands.splitAndTrim s →
  x ≠ "" ∧ trimmed x ∧ isBlank x = false ∧ ContainsAny x [","%char] = false.
Proof.
  unfold commands.splitAndTrim. destruct (String.eqb s ""); [by intros ?%elem_of_nil|].
  intros [Hx (p & -> & Hp)%list_elem_of_fmap]%list_elem_of_filter.
  assert (Htrim : trimmed (TrimSpace p)) by apply TrimSpace_idem.
  split; [done|]. split; [done|]. split.
  - rewrite isBlank_TrimSpace, Htrim. by apply String.eqb_neq.
  - apply ContainsAny_TrimSpace. by eapply Split_free.
Qed.

Lemma splitAndTrim_elements_witness :
  "dnf" ≠ "" ∧ trimmed "dnf" ∧ isBlank "dnf" = false ∧ ContainsAny "dnf" [","%char] = false.
Proof. apply (splitAndTrim_elements " apt , dnf,, "). decided. Defined.

(** X2.  A list of names, none of them empty, with white space at an end or
    with a comma, is read back from its elements written with [", "]
    between them. *)
Theorem splitAndTrim_Join l :
  (∀ x, x ∈ l → x ≠ "" ∧ trimmed x ∧ ContainsAny x [","%char] = false) →
  commands.splitAndTrim (Join l ", ") = l.
Proof.
  assert (Hfilter : ∀ l : list string,
             (∀ x, x ∈ l → x ≠ "" ∧ trimmed x ∧ ContainsAny x [","%char] = false) →
             l ≠ [] →
             filter (λ t, t ≠ "") (TrimSpace <$> Split "," (Join l ", ")) = l).
  { clear l. induction l as [|x l IH]; [done|]. intros Hl _.
    destruct (Hl x) as (Hx & Htx & Hcx); [apply list_elem_of_here|].
    destruct l as [|y l].
    - cbn [Join]. rewrite (Split_whole _ _ Hcx). cbn [fmap list_fmap]. rewrite Htx.
      by rewrite filter_cons_True, filter_nil.
    - change (Join (x :: y :: l) ", ") with (x +:+ String "," (String " " (Join (y :: l) ", "))).
      rewrite (Split_app _ _ _ Hcx), fmap_cons, TrimSpace_Split_space, Htx.
      rewrite filter_cons_True by done. f_equal. apply IH; [|done].
      intros z Hz. apply Hl. by apply list_elem_of_further. }
  intros Hl. destruct l as [|x l]; [done|].
  unfold commands.splitAndTrim.
  destruct (Hl x) as (Hx & _); [apply list_elem_of_here|].
  pose proof (Join_not_empty l ", " x Hx) as Hj.
  apply String.eqb_neq in Hj. rewrite Hj. by apply Hfilter.
Qed.

Lemma splitAndTrim_Join_witness : commands.splitAndTrim (Join ["apt"; "dnf"] ", ") = ["apt"; "dnf"].
Proof.
  apply (splitAndTrim_Join ["apt"; "dnf"]).
  intros x Hx. repeat (apply elem_of_cons in Hx as [->|Hx]; [by vm_compute|]).
  by apply elem_of_nil in Hx.
Defined.

(** ** The metadata lines of a command script *)

Lemma parseMetadataLine_FilePath line meta :
  CommandMetadata.FilePath (commands.parseMetadataLine line meta).2
  = CommandMetadata.FilePath meta.
Proof.
  unfold commands.parseMetadataLine. destruct meta.
  repeat (case_match; try reflexivity).
Qed.

Lemma parseMetadataLine_Authors line meta :
  is_Some (CommandMetadata.Authors meta) →
  is_Some (CommandMetadata.Authors (commands.parseMetadataLine line meta).2).
Proof.
  unfold commands.parseMetadataLine. destruct meta. cbn [CommandMetadata.Authors].
  intros Ha. repeat (case_match; try done); by eexists.
Qed.

(** X3.  A line that [parseMetadataLine] does not take leaves the metadata
    as it was, and no line changes the file path. *)
Theorem parseMetadataLine_rejected line meta :
  ((commands.parseMetadataLine line meta).1 = false →
   (commands.parseMetadataLine line meta).2 = meta)
  ∧ CommandMetadata.FilePath (commands.parseMetadataLine line meta).2
    = CommandMetadata.FilePath meta.
Proof.
  split; [|apply parseMetadataLine_FilePath].
  unfold commands.parseMetadataLine. destruct meta.
  repeat (case_match; try done).
Qed.

Lemma parseMetadataLine_rejected_witness :
  (commands.parseMetadataLine "# @@licence: MIT" (backup "1.0.0" backupLink)).2
  = backup "1.0.0" backupLink.
Proof.
  apply (proj1 (parseMetadataLine_rejected "# @@licence: MIT" (backup "1.0.0" backupLink))).
  reflexivity.
Defined.

(** X4.  A line which, its outer white space removed, is [# @@source_link:]
    followed by a value sets the source link to that value without the
    white space around it, colons and all, and nothing else; a line with
    [# @@authors:] sets the authors to the names of the value. *)
Theorem parseMetadataLine_value line value meta :
  (TrimSpace line = "# @@source_link:" +:+ value →
   commands.parseMetadataLine line meta
   = (true, CommandMetadata.mk (CommandMetadata.Command meta)
              (CommandMetadata.PkgManagers meta) (CommandMetadata.Dependencies meta)
              (CommandMetadata.Authors meta) (CommandMetadata.Version meta)
              (CommandMetadata.Description meta) (TrimSpace value)
              (CommandMetadata.FilePath meta)))
  ∧ (TrimSpace line = "# @@authors:" +:+ value →
     commands.parseMetadataLine line meta
     = (true, CommandMetadata.mk (CommandMetadata.Command meta)
                (CommandMetadata.PkgManagers meta) (CommandMetadata.Dependencies meta)
                (Some (commands.splitAndTrim (TrimSpace value)))
                (CommandMetadata.Version meta) (CommandMetadata.Description meta)
                (CommandMetadata.SourceLink meta) (CommandMetadata.FilePath meta))).
Proof.
  split; intros Hline; unfold commands.parseMetadataLine; rewrite Hline; by destruct meta.
Qed.

Lemma parseMetadataLine_value_witness :
  commands.parseMetadataLine "  # @@source_link: https://example.org/backup.sh "
    (backup "1.0.0" "")
  = (true, backup "1.0.0" "https://example.org/backup.sh").
Proof.
  apply (proj1 (parseMetadataLine_value
                  "  # @@source_link: https://example.org/backup.sh "
                  " https://example.org/backup.sh" (backup "1.0.0" ""))).
  reflexivity.
Defined.

Lemma parseLines_FilePath lines : ∀ meta found,
  CommandMetadata.FilePath (commands.parseLines lines meta found).1
  = CommandMetadata.FilePath meta.
Proof.
  induction lines as [|line rest IH]; intros meta found; cbn [commands.parseLines]; [done|].
  case_match; [|apply IH].
  pose proof (parseMetadataLine_FilePath line meta) as Hp.
  destruct (commands.parseMetadataLine line meta) as [taken meta']. by rewrite IH.
Qed.

Lemma parseLines_Authors lines : ∀ meta found,
  is_Some (CommandMetadata.Authors meta) →
  is_Some (CommandMetadata.Authors (commands.parseLines lines meta found).1).
Proof.
  induction lines as [|line rest IH]; intros meta found Ha; cbn [commands.parseLines]; [done|].
  case_match; [|by apply IH].
  pose proof (parseMetadataLine_Authors line meta Ha) as Hp.
  destruct (commands.parseMetadataLine line meta) as [taken meta']. by apply IH.
Qed.

(** X5.  What [parseCommandMetadataFromBytes] returns has a command name,
    a list of authors that is not nil and no file path, so it is not valid
    until a file path is set; and when the script has more than twenty
    lines, the result depends on the first twenty only. *)
Theorem parseCommandMetadataFromBytes_result scan data :
  (∀ meta,
     commands.parseCommandMetadataFromBytes scan data = inr meta →
     CommandMetadata.Command meta ≠ ""
     ∧ is_Some (CommandMetadata.Authors meta)
     ∧ CommandMetadata.FilePath meta = ""
     ∧ CommandMetadata.IsValid meta = false)
  ∧ (∀ scan',
       20 < Z.of_nat (length (scan data).1) →
       20 < Z.of_nat (length (scan' data).1) →
       take 20 (scan data).1 = take 20 (scan' data).1 →
       commands.parseCommandMetadataFromBytes scan data
       = commands.parseCommandMetadataFromBytes scan' data).
Proof.
  split.
  - intros meta. unfold commands.parseCommandMetadataFromBytes.
    destruct (scan data) as [scanned scanErr].
    pose proof (parseLines_FilePath (take (Z.to_nat commands.maxMetadataLines) scanned)
                  (CommandMetadata.mk "" [] [] (Some []) "" "" "" "") false) as Hpath.
    pose proof (parseLines_Authors (take (Z.to_nat commands.maxMetadataLines) scanned)
                  (CommandMetadata.mk "" [] [] (Some []) "" "" "" "") false) as Hauthors.
    destruct (commands.parseLines _ _ _) as [meta' found]. cbn [fst] in *.
    repeat (case_match; try done); intros [= <-];
      (split; [by apply String.eqb_neq|]); (split; [by apply Hauthors; eexists|]);
      (split; [done|]); unfold CommandMetadata.IsValid; rewrite Hpath; cbn;
      by rewrite !andb_false_r.
  - intros scan' Hn Hn' Htake. unfold commands.parseCommandMetadataFromBytes.
    destruct (scan data) as [scanned scanErr], (scan' data) as [scanned' scanErr'].
    cbn [fst] in *. change (Z.to_nat commands.maxMetadataLines) with 20%nat.
    rewrite Htake. unfold commands.maxMetadataLines.
    by rewrite !(proj2 (Z.ltb_lt _ _)) by done.
Qed.

Lemma parseCommandMetadataFromBytes_result_witness :
  CommandMetadata.Command (backup "1.0.0" backupLink) ≠ ""
  ∧ is_Some (CommandMetadata.Authors (backup "1.0.0" backupLink))
  ∧ CommandMetadata.FilePath (backup "1.0.0" backupLink) = ""
  ∧ CommandMetadata.IsValid (backup "1.0.0" backupLink) = false.
Proof.
  apply (proj1 (parseCommandMetadataFromBytes_result scanLines
                  ("# @@command: backup" +:+ String "010" (
                   "# @@pkg_managers: apt" +:+ String "010" (
                   "# @@authors: Ada" +:+ String "010" (
                   "# @@version: 1.0.0" +:+ String "010" (
                   "# @@description: Makes a backup" +:+ String "010"
                   "# @@source_link: https://example.org/backup.sh"))))))).
  evaluated.
Defined.

(** ** The ID generator *)





(** ** The configuration *)

Lemma applyDefaults_port draw :
  configuration.minPort
  <= draw `mod` (configuration.maxPort - configuration.minPort + 1) + configuration.minPort
  <= configuration.maxPort.
Proof.
  unfold configuration.minPort, configuration.maxPort.
  pose proof (Z.mod_pos_bound draw (49151 - 1024 + 1)). lia.
Qed.

Lemma applyDefaults_filled draw cfg :
  complete (configuration.applyDefaults draw cfg).1
  ∧ ∃ g, utils.NewIDGenerator
           (Some (configuration.Security (configuration.applyDefaults draw cfg).1)) = inr g.
Proof.
  assert (Hc : complete (configuration.applyDefaults draw cfg).1).
  { pose proof (applyDefaults_port draw) as Hport.
    unfold complete, configuration.applyDefaults.
    cbn [fst configuration.Version configuration.Server configuration.Security
         configuration.Host configuration.Port configuration.Secrets
         configuration.Alphabet configuration.Length].
    repeat split.
    - destruct (String.eqb _ "") eqn:He; [done|by apply String.eqb_neq].
    - destruct (String.eqb _ "") eqn:He; [done|by apply String.eqb_neq].
    - destruct (_ || _) eqn:He; [lia|]. apply orb_false_elim in He as [?%Z.ltb_ge _]. lia.
    - destruct (_ || _) eqn:He; [lia|]. apply orb_false_elim in He as [_ ?%Z.ltb_ge]. lia.
    - destruct (String.eqb _ "") eqn:He; [done|by apply String.eqb_neq].
    - destruct (_ <=? 0) eqn:He; [lia|]. by apply Z.leb_gt in He. }
  split; [done|]. destruct Hc as (_ & _ & _ & Ha & Hl).
  unfold utils.NewIDGenerator.
  apply String.eqb_neq in Ha. rewrite Ha. rewrite (proj2 (Z.leb_gt _ _)) by done.
  by eexists.
Qed.

(** X7.  Whatever configuration it is given, [applyDefaults] returns one in
    which nothing is missing: a version, a host, a port from 1024 to 49151,
    an alphabet and a positive length; and [NewIDGenerator] accepts its
    security section. *)
Theorem applyDefaults_complete draw cfg :
  complete (configuration.applyDefaults draw cfg).1
  ∧ ∃ g, utils.NewIDGenerator
           (Some (configuration.Security (configuration.applyDefaults draw cfg).1)) = inr g.
Proof. apply applyDefaults_filled. Qed.

(** X8.  [applyDefaults] leaves a configuration in which nothing is missing
    as it is and prints nothing; so applying it twice is applying it
    once. *)
Theorem applyDefaults_fixed draw cfg :
  (complete cfg → configuration.applyDefaults draw cfg = (cfg, []))
  ∧ ∀ draw',
      configuration.applyDefaults draw' (configuration.applyDefaults draw cfg).1
      = ((configuration.applyDefaults draw cfg).1, []).
Proof.
  assert (Hfix : ∀ d c, complete c → configuration.applyDefaults d c = (c, [])).
  { intros d [v [h p] [[a l]]] (Hv & Hh & Hp & Ha & Hl).
    unfold configuration.applyDefaults.
    cbn [configuration.Version configuration.Server configuration.Security
         configuration.Host configuration.Port configuration.Secrets
         configuration.Alphabet configuration.Length] in *.
    apply String.eqb_neq in Hv, Hh, Ha. rewrite Hv, Hh, Ha.
    rewrite (proj2 (Z.ltb_ge _ _)) by lia. rewrite (proj2 (Z.ltb_ge _ _)) by lia.
    rewrite (proj2 (Z.leb_gt _ _)) by lia. reflexivity. }
  split; [apply Hfix|]. intros draw'. apply Hfix. apply applyDefaults_filled.
Qed.

Lemma applyDefaults_fixed_witness :
  configuration.applyDefaults 7 (configuration.applyDefaults 3 partialConfig).1
  = ((configuration.applyDefaults 3 partialConfig).1, []).
Proof. apply (proj2 (applyDefaults_fixed 3 partialConfig) 7). Defined.

Lemma printAll_run lines : ∀ w,
  configuration.printAll lines w
  = (Ok tt, mkWorld (disk w) (stateFiles w) (net w) (faults w) (entropy w) (now w)
                    (commandsCache w) (held w) (trace w ++ lines)).
Proof.
  induction lines as [|e lines IH]; intros w; cbn [configuration.printAll].
  - unfold ret. rewrite app_nil_r. by destruct w.
  - unfold bind, emit, modify. rewrite IH. cbn. by rewrite <- app_assoc.
Qed.

Section load_config.
Context `{Externals}.
Variable marshal : configuration.Config → option string.
Variable unmarshal : string → option configuration.Config.

(** X9.  A configuration that [LoadConfig] returns is one in which nothing
    is missing, and [NewIDGenerator] accepts its security section. *)
Theorem LoadConfig_complete draw configPath w cfg w' :
  configuration.LoadConfig marshal unmarshal draw configPath w = (Ok cfg, w') →
  complete cfg ∧ ∃ g, utils.NewIDGenerator (Some (configuration.Security cfg)) = inr g.
Proof.
  unfold configuration.LoadConfig.
  pose proof (applyDefaults_filled draw configuration.zeroConfig) as Hzero.
  unfold bindOr at 1. destruct (cfg_ReadFile _ w) as [[data|p e|s] w1]; [| |done].
  - destruct (unmarshal _) as [cfg0|]; [|done].
    pose proof (applyDefaults_filled draw cfg0) as Hcfg.
    destruct (configuration.applyDefaults draw cfg0) as [cfg1 lines].
    unfold bind. rewrite printAll_run. unfold ret. by intros [= <- _].
  - destruct (os_IsNotExist e && String.eqb _ _); [|done].
    rewrite bind_logf.
    destruct (configuration.applyDefaults draw configuration.zeroConfig) as [cfg1 lines].
    unfold bind at 1. rewrite printAll_run. unfold bind at 1.
    destruct (attempt _ _) as [[errWrite|p' e'|s] w2]; [|done..].
    unfold bind. destruct errWrite; rewrite ?logf_run; unfold logf, emit, modify, ret;
      by intros [= <- _].
Qed.

(** X10.  When there is no configuration file at the default path and the
    read itself does not fail, [LoadConfig] returns the defaults, whatever
    becomes of its attempt to write them; when no call fails it has
    written them to the default path.  A file missing at any other path is
    an error, and nothing is written. *)
Theorem LoadConfig_missing draw configPath w :
  stateFiles w !! configuration.pathOr configuration.defaultConfigPath configPath = None →
  hd false (faults w) = false →
  (configuration.pathOr configuration.defaultConfigPath configPath
   = configuration.defaultConfigPath →
   ∃ w', configuration.LoadConfig marshal unmarshal draw configPath w
         = (Ok (configuration.applyDefaults draw configuration.zeroConfig).1, w')
         ∧ (faults w = [] →
            stateFiles w' !! configuration.defaultConfigPath
            = Bytes <$> marshal (configuration.applyDefaults draw configuration.zeroConfig).1))
  ∧ (configuration.pathOr configuration.defaultConfigPath configPath
     ≠ configuration.defaultConfigPath →
     ∃ w', configuration.LoadConfig marshal unmarshal draw configPath w
           = (Err None
                (Wrapf "failed to read config file '%s': %w"
                   [configuration.pathOr configuration.defaultConfigPath configPath]
                   (PathError
                      (OsReadFile
                         (configuration.pathOr configuration.defaultConfigPath configPath))
                      true)), w')
           ∧ stateFiles w' = stateFiles w
           ∧ forallb (λ ev, negb (isMutation ev)) (since w w') = true).
Proof.
  intros Hmissing Hfault. unfold configuration.LoadConfig.
  set (path := configuration.pathOr configuration.defaultConfigPath configPath) in *.
  assert (Hread : cfg_ReadFile path w
                  = (Err None (PathError (OsReadFile path) true), called (OsReadFile path) w)).
  { unfold cfg_ReadFile, bind, oscall, get. rewrite Hfault. cbn. by rewrite Hmissing. }
  split.
  - intros ->. rewrite (bindOr_Err _ _ _ _ _ _ _ Hread). cbn [os_IsNotExist andb].
    rewrite String.eqb_refl, bind_logf. clear Hread.
    destruct (configuration.applyDefaults draw configuration.zeroConfig) as [cfg1 lines].
    unfold bind at 1. rewrite printAll_run. cbn [fst].
    destruct w as [d s n f e nw c h t]. cbn [faults stateFiles] in *.
    unfold configuration.writeDefaultConfig. run.
    destruct f as [|b f]; [|cbn [hd] in Hfault; subst b]; cbn [hd tail].
    + destruct (marshal cfg1) as [text|]; cbv beta iota;
        (eexists; split; [reflexivity|]); intros _; cbn [stateFiles fmap option_fmap option_map];
        [by rewrite lookup_insert_eq|done].
    + repeat (split_head; try (destruct (marshal cfg1) as [text|]; cbv beta iota));
        by (eexists; split; [reflexivity|]).
  - intros Hne. rewrite (bindOr_Err _ _ _ _ _ _ _ Hread). cbn [os_IsNotExist andb].
    apply String.eqb_neq in Hne. rewrite Hne. eexists. split; [reflexivity|].
    split; [done|]. unfold since. cbn. by rewrite drop_app_length.
Qed.

End load_config.

Lemma LoadConfig_complete_witness :
  complete (configuration.applyDefaults 7 partialConfig).1
  ∧ ∃ g, utils.NewIDGenerator
           (Some (configuration.Security (configuration.applyDefaults 7 partialConfig).1))
         = inr g.
Proof.
  apply (LoadConfig_complete marshalConfig unmarshalConfig 7 ["site.yaml"]
           (mkWorld ∅ {[ "site.yaml" := Bytes "port: 80" ]} ∅ [] [] "" ∅ [] [])
           _
           (configuration.LoadConfig marshalConfig unmarshalConfig 7 ["site.yaml"]
              (mkWorld ∅ {[ "site.yaml" := Bytes "port: 80" ]} ∅ [] [] "" ∅ [] [])).2).
  evaluated.
Defined.

Lemma LoadConfig_missing_witness :
  ∃ w', configuration.LoadConfig marshalConfig unmarshalConfig 7 [] (fresh ∅)
        = (Ok (configuration.applyDefaults 7 configuration.zeroConfig).1, w')
        ∧ (faults (fresh ∅) = [] →
           stateFiles w' !! configuration.defaultConfigPath
           = Bytes <$> marshalConfig (configuration.applyDefaults 7 configuration.zeroConfig).1).
Proof.
  apply (proj1 (LoadConfig_missing marshalConfig unmarshalConfig 7 [] (fresh ∅)
                  eq_refl eq_refl)).
  reflexivity.
Defined.

(** ** What validation guarantees *)

Lemma not_blank_not_empty s : isBlank s = false → String.eqb s "" = false.
Proof. by destruct s. Qed.

Lemma slen_nonneg m : 0 <= slen m.
Proof. induction m; cbn [slen]; lia. Qed.

Lemma wrap_None f a e : themes.wrap f a e = None → e = None.
Proof. by destruct e. Qed.

(** X11.  A manifest that [Validate] accepts passes the older test
    [IsValid], for themes and for plugins. *)
Theorem Validate_IsValid `{Externals} :
  (∀ m, themes.Validate m = None → themes.IsValid m = true)
  ∧ (∀ m, plugins.Validate m = None → plugins.IsValid m = true).
Proof.
  split; intros m.
  - unfold themes.Validate, themes.IsValid.
    repeat (case_match; try done). intros _.
    pose proof (slen_nonneg (ThemeMetadata.Structure m)).
    repeat match goal with Hb : isBlank _ = false |- _ =>
      apply not_blank_not_empty in Hb; rewrite Hb end.
    cbn [negb andb]. rewrite !andb_true_iff. repeat split; apply Z.ltb_lt; lia.
  - unfold plugins.Validate, plugins.IsValid.
    repeat (case_match; try done). intros _.
    pose proof (slen_nonneg (PluginMetadata.Structure m)).
    repeat match goal with Hb : isBlank _ = false |- _ =>
      apply not_blank_not_empty in Hb; rewrite Hb end.
    cbn [negb andb]. rewrite !andb_true_iff. repeat split; apply Z.ltb_lt; lia.
Qed.

Lemma Validate_IsValid_witness :
  themes.IsValid (aurora "1.0.0" helloSum) = true
  ∧ plugins.IsValid (metrics "1.0.0") = true.
Proof.
  split.
  - apply (proj1 Validate_IsValid). evaluated.
  - apply (proj2 Validate_IsValid). evaluated.
Defined.

Section theme_structure.
Context `{Externals}.

Lemma validateAsset_sum key url sum :
  themes.validateAsset key url sum = None → isHex64 sum = true.
Proof.
  unfold themes.validateAsset. repeat (case_match; try done). intros _.
  rewrite matchSHA256Pattern_ToLower in *. by destruct (isHex64 sum).
Qed.

Lemma validateStructureContent_sound :
  (∀ value key,
     themes.validateValue key value = None →
     (∀ name, name ∈ themes.namesBelow value →
              isBlank name = false ∧ themes.invalidName name = false)
     ∧ (∀ sum, sum ∈ themes.checksumsBelow value → isHex64 sum = true))
  ∧ (∀ structure,
       themes.validateStructureContent structure = None →
       (∀ name, name ∈ themes.names structure →
                isBlank name = false ∧ themes.invalidName name = false)
       ∧ (∀ sum, sum ∈ themes.checksums structure → isHex64 sum = true)).
Proof.
  apply Value_Structure_ind.
  - intros a key Hv. cbn [themes.validateValue themes.namesBelow themes.checksumsBelow] in *.
    split; [by intros ? ?%elem_of_nil|].
    intros sum ->%list_elem_of_singleton. by eapply validateAsset_sum.
  - intros m IH key Hv. cbn [themes.validateValue themes.namesBelow themes.checksumsBelow] in *.
    destruct (sget m "url") as [[]|]; destruct (sget m "sum") as [[]|];
      try (apply wrap_None in Hv; by apply IH).
    split; [by intros ? ?%elem_of_nil|].
    intros sum ->%list_elem_of_singleton. by eapply validateAsset_sum.
  - intros s key Hv. done.
  - intros key Hv. done.
  - intros _. split; by intros ? ?%elem_of_nil.
  - intros name item IHitem rest IHrest Hv.
    cbn [themes.validateStructureContent themes.names themes.checksums] in *.
    destruct (isBlank name) eqn:Hb; [done|].
    destruct (themes.invalidName name) eqn:Hi; [done|].
    destruct (themes.validateValue name item) eqn:Hitem; [done|].
    destruct (IHitem name Hitem) as [Hn1 Hs1]. destruct (IHrest Hv) as [Hn2 Hs2].
    split.
    + intros x [->|[?|?]%elem_of_app]%elem_of_cons; auto.
    + intros x [?|?]%elem_of_app; auto.
Qed.

(** X12.  In a theme manifest that [Validate] accepts, every name in the
    structure tree, at every level, is not blank, has no path separator and
    is neither [.] nor [..]; every checksum is sixty-four hexadecimal
    digits; and the source link parses to a URL with scheme http or
    https. *)
Theorem themes_Validate_sound m :
  themes.Validate m = None →
  (∀ name, name ∈ themes.names (ThemeMetadata.Structure m) →
           isBlank name = false ∧ themes.invalidName name = false)
  ∧ (∀ sum, sum ∈ themes.checksums (ThemeMetadata.Structure m) → isHex64 sum = true)
  ∧ ∃ u, url_ParseRequestURI (ThemeMetadata.SourceLink m) = Some u ∧ themes.isHTTP u = true.
Proof.
  unfold themes.Validate. repeat (case_match; try done). intros Hs%wrap_None.
  destruct (proj2 validateStructureContent_sound _ Hs) as [Hn Hc].
  split; [done|]. split; [done|]. eexists. split; [done|].
  unfold themes.isHTTP.
  match goal with Hb : negb _ && negb _ = false |- _ =>
    apply andb_false_iff in Hb as [Hb|Hb]; apply negb_false_iff in Hb; rewrite Hb end;
    by rewrite ?orb_true_r.
Qed.

End theme_structure.

Lemma themes_Validate_sound_witness :
  (∀ name, name ∈ themes.names (ThemeMetadata.Structure (aurora "1.0.0" helloSum)) →
           isBlank name = false ∧ themes.invalidName name = false)
  ∧ (∀ sum, sum ∈ themes.checksums (ThemeMetadata.Structure (aurora "1.0.0" helloSum)) →
            isHex64 sum = true)
  ∧ ∃ u, url_ParseRequestURI (ThemeMetadata.SourceLink (aurora "1.0.0" helloSum)) = Some u
         ∧ themes.isHTTP u = true.
Proof. apply (themes_Validate_sound (aurora "1.0.0" helloSum)). evaluated. Defined.

Section plugin_structure.
Context `{Externals}.

Lemma validatePluginStructureContent_sound :
  (∀ value key,
     plugins.validateValue key value = None →
     ∀ name, name ∈ plugins.namesBelow value →
             isBlank name = false ∧ plugins.invalidName name = false)
  ∧ (∀ structure,
       plugins.validatePluginStructureContent structure = None →
       ∀ name, name ∈ plugins.names structure →
               isBlank name = false ∧ plugins.invalidName name = false).
Proof.
  apply Value_Structure_ind.
  - intros a key Hv. done.
  - intros m IH key Hv. cbn [plugins.validateValue plugins.namesBelow] in *.
    apply wrap_None in Hv. by apply IH.
  - intros s key Hv. by intros ? ?%elem_of_nil.
  - intros key Hv. done.
  - intros _. by intros ? ?%elem_of_nil.
  - intros name item IHitem rest IHrest Hv.
    cbn [plugins.validatePluginStructureContent plugins.names] in *.
    destruct (isBlank name) eqn:Hb; [done|].
    destruct (plugins.invalidName name) eqn:Hi; [done|].
    destruct (plugins.validateValue name item) eqn:Hitem; [done|].
    intros x [->|[?|?]%elem_of_app]%elem_of_cons; eauto.
Qed.

Lemma checkEndpoints_sound endpoints :
  plugins.checkEndpoints endpoints = None →
  ∀ path endpointCfg, (path, endpointCfg) ∈ endpoints →
    HasPrefix path "/" = true ∧ EndpointConfig.Methods endpointCfg ≠ [].
Proof.
  induction endpoints as [|[p c] rest IH]; cbn [plugins.checkEndpoints];
    [by intros _ ? ? ?%elem_of_nil|].
  destruct (isBlank p || negb (HasPrefix p "/")) eqn:Hp; [done|].
  destruct (_ =? 0) eqn:Hm; [done|].
  destruct (plugins.checkMethods p _); [done|].
  intros Hrest path cfg [[= -> ->]|Hin]%elem_of_cons; [|by eapply IH].
  apply orb_false_elim in Hp as [_ Hp%negb_false_iff]. split; [done|].
  intros Hnil. rewrite Hnil in Hm. done.
Qed.

(** X13.  In a plugin manifest that [Validate] accepts, every name in the
    structure tree, at every level, is not blank, has no path separator and
    is neither [.] nor [..]; and every endpoint has a path that begins with
    a slash and at least one method. *)
Theorem plugins_Validate_sound m :
  plugins.Validate m = None →
  (∀ name, name ∈ plugins.names (PluginMetadata.Structure m) →
           isBlank name = false ∧ plugins.invalidName name = false)
  ∧ (∀ path endpointCfg, (path, endpointCfg) ∈ PluginMetadata.Endpoints m →
       HasPrefix path "/" = true ∧ EndpointConfig.Methods endpointCfg ≠ []).
Proof.
  unfold plugins.Validate. repeat (case_match; try done). intros _.
  match goal with Hw : themes.wrap _ _ _ = None |- _ => apply wrap_None in Hw; rename Hw into Hs end.
  split.
  - by apply (proj2 validatePluginStructureContent_sound).
  - by apply checkEndpoints_sound.
Qed.

End plugin_structure.

Lemma plugins_Validate_sound_witness :
  (∀ name, name ∈ plugins.names (PluginMetadata.Structure (metrics "1.0.0")) →
           isBlank name = false ∧ plugins.invalidName name = false)
  ∧ (∀ path endpointCfg, (path, endpointCfg) ∈ PluginMetadata.Endpoints (metrics "1.0.0") →
       HasPrefix path "/" = true ∧ EndpointConfig.Methods endpointCfg ≠ []).
Proof. apply (plugins_Validate_sound (metrics "1.0.0")). evaluated. Defined.

(** ** State files that are missing, empty or in the old format *)

Section load_edge.
Context `{Externals} {T : Type} `{ToJSON T, FromJSON T}.

Lemma loadState_missing path w :
  stateFiles w !! path = None ∨ stateFiles w !! path = Some (Bytes "") →
  hd false (faults w) = false →
  configuration.loadState (T := T) path w = (Ok (Some ∅), called (OsReadFile path) w).
Proof.
  intros Hfile Hfault. unfold configuration.loadState, cfg_ReadFile.
  autorewrite with run. rewrite Hfault.
  autorewrite with run. cbn [called stateFiles setFaults record].
  by destruct Hfile as [-> | ->].
Qed.

Variable P : T → Prop.
Hypothesis entry_roundtrip : ∀ v, P v → fromJSON (toJSON v) = Some v.
Hypothesis entry_object : ∀ v : T, ∃ k s rest, toJSON v = JObject ((k, JString s) :: rest).
Hypothesis string_rejected : ∀ s, fromJSON (A := T) (JString s) = None.

(** A map that is not empty does not decode as a map of maps of entries:
    its first entry is an object whose first member is a string. *)
Lemma bare_map_not_wrapped (g : gmap string T) :
  g ≠ ∅ → unmarshalMap (V := GoMap T) None (toJSON g) = None.
Proof.
  intros Hg.
  change (toJSON g) with (JObject (membersOf g)). unfold membersOf.
  set (l := merge_sort _ _).
  assert (Hl : l ≡ₚ map_to_list g) by apply merge_sort_Permutation.
  destruct l as [|[k v] l].
  { apply Permutation_nil_l in Hl. symmetry in Hl. by apply map_to_list_empty_iff in Hl. }
  cbn [fmap list_fmap unmarshalMap default decodeMembers fst snd].
  change (fromJSON (toJSON v)) with (unmarshalMap (V := T) None (toJSON v)).
  destruct (entry_object v) as (k' & s & rest & ->).
  cbn [unmarshalMap default decodeMembers]. by rewrite string_rejected.
Qed.

Lemma bare_map_direct (g : gmap string T) :
  validMap P g → unmarshalMap (Some ∅) (toJSON g) = Some (Some g).
Proof. intros Hg. exact (map_roundtrip P entry_roundtrip g Hg). Qed.

Lemma loadState_bare path (g : gmap string T) w :
  validMap P g →
  stateFiles w !! path = Some (JsonText "" "  " (toJSON g)) →
  hd false (faults w) = false →
  configuration.loadState path w = (Ok (Some g), called (OsReadFile path) w).
Proof.
  intros Hg Hfile Hfault. unfold configuration.loadState, cfg_ReadFile.
  autorewrite with run. rewrite Hfault.
  autorewrite with run. cbn [called stateFiles setFaults record]. rewrite Hfile.
  autorewrite with run. cbn [configuration.isEmpty configuration.parse mbind option_bind].
  destruct (decide (g = ∅)) as [->|Hne].
  - change (toJSON (∅ : gmap string T)) with (JObject (membersOf (∅ : gmap string T))).
    unfold membersOf. rewrite map_to_list_empty.
    assert (Hnil : merge_sort (λ a b : string * T, string_le a.1 b.1) [] = []).
    { apply Permutation_nil_r. apply merge_sort_Permutation. }
    rewrite Hnil. cbn [fmap list_fmap unmarshalMap default decodeMembers option_fmap option_map].
    cbn [rangeMap]. assert (Hr : range (∅ : gmap string (GoMap T)) = []).
    { apply Permutation_nil_r. rewrite range_Permutation. by rewrite map_to_list_empty. }
    by rewrite Hr.
  - rewrite (bare_map_not_wrapped g Hne). by rewrite (bare_map_direct g Hg).
Qed.

End load_edge.

(** X14.  A state file that does not exist or is empty loads as the empty
    map, without an error, for each of the three kinds; the file is read
    and nothing else is done. *)
Theorem LoadState_missing_or_empty `{Externals} statePath path w :
  stateFiles w !! path = None ∨ stateFiles w !! path = Some (Bytes "") →
  hd false (faults w) = false →
  (configuration.pathOr configuration.defaultThemesStatePath statePath = path →
   configuration.LoadThemesState statePath w = (Ok (Some ∅), called (OsReadFile path) w))
  ∧ (configuration.pathOr configuration.defaultPluginsStatePath statePath = path →
     configuration.LoadPluginsState statePath w = (Ok (Some ∅), called (OsReadFile path) w))
  ∧ (configuration.pathOr configuration.defaultCommandsStatePath statePath = path →
     configuration.LoadCommandsState statePath w = (Ok (Some ∅), called (OsReadFile path) w)).
Proof.
  intros Hfile Hfault.
  unfold configuration.LoadThemesState, configuration.LoadPluginsState,
    configuration.LoadCommandsState.
  repeat split; intros ->; by apply loadState_missing.
Qed.

Lemma LoadState_missing_or_empty_witness :
  configuration.LoadThemesState [] (fresh ∅)
  = (Ok (Some ∅), called (OsReadFile configuration.defaultThemesStatePath) (fresh ∅)).
Proof.
  apply (proj1 (LoadState_missing_or_empty [] configuration.defaultThemesStatePath (fresh ∅)
                  (or_introl eq_refl) eq_refl)).
  reflexivity.
Defined.

(** X15.  A state file in the old format, the map of entries itself without
    the key around it, is still read: it loads as that map, for each of the
    three kinds, when the keys and the strings of the entries are valid
    UTF-8. *)
Theorem LoadState_old_format `{Externals} statePath w :
  hd false (faults w) = false →
  (∀ g, validMap validThemeEntry g →
        stateFiles w !! configuration.pathOr configuration.defaultThemesStatePath statePath
        = Some (JsonText "" "  " (toJSON g)) →
        (configuration.LoadThemesState statePath w).1 = Ok (Some g))
  ∧ (∀ g, validMap validPluginEntry g →
          stateFiles w !! configuration.pathOr configuration.defaultPluginsStatePath statePath
          = Some (JsonText "" "  " (toJSON g)) →
          (configuration.LoadPluginsState statePath w).1 = Ok (Some g))
  ∧ (∀ g, validMap validCommandEntry g →
          stateFiles w !! configuration.pathOr configuration.defaultCommandsStatePath statePath
          = Some (JsonText "" "  " (toJSON g)) →
          (configuration.LoadCommandsState statePath w).1 = Ok (Some g)).
Proof.
  intros Hfault.
  unfold configuration.LoadThemesState, configuration.LoadPluginsState,
    configuration.LoadCommandsState.
  repeat split; intros g Hg Hfile.
  - rewrite (loadState_bare validThemeEntry themeEntry_roundtrip) with (g := g); try done.
    intros v. by eexists _, _, _.
  - rewrite (loadState_bare validPluginEntry pluginEntry_roundtrip) with (g := g); try done.
    intros v. by eexists _, _, _.
  - rewrite (loadState_bare validCommandEntry commandEntry_roundtrip) with (g := g); try done.
    intros v. by eexists _, _, _.
Qed.

Lemma LoadState_old_format_witness :
  (configuration.LoadThemesState []
     (mkWorld ∅ {[ configuration.defaultThemesStatePath :=
                     JsonText "" "  " (toJSON ({[ "thm_k3x9" := auroraEntry ]}
                                               : gmap string InstalledThemeEntry.t)) ]}
              ∅ [] [] "" ∅ [] [])).1
  = Ok (Some {[ "thm_k3x9" := auroraEntry ]}).
Proof.
  apply (proj1 (LoadState_old_format []
                  (mkWorld ∅ {[ configuration.defaultThemesStatePath :=
                                  JsonText "" "  "
                                    (toJSON ({[ "thm_k3x9" := auroraEntry ]}
                                             : gmap string InstalledThemeEntry.t)) ]}
                           ∅ [] [] "" ∅ [] [])
                  eq_refl)).
  - intros k v [<- <-]%lookup_singleton_Some. repeat split; vm_compute; reflexivity.
  - reflexivity.
Defined.

(** ** Calls made with the manager's mutex held *)

Section keeping.
Context {A B : Type}.

Lemma keeps_ret (a : A) : keeps (ret a).
Proof. by intros w. Qed.

Lemma keeps_fail (e : Error) : keeps (fail (A := A) e).
Proof. by intros w. Qed.

Lemma keeps_failWith (a : A) (e : Error) : keeps (failWith a e).
Proof. by intros w. Qed.

Lemma keeps_halt (s : Stuck) : keeps (halt (A := A) s).
Proof. by intros w. Qed.

Lemma keeps_bindOr (m : M A) (h : Error → M B) (k : A → M B) :
  keeps m → (∀ e, keeps (h e)) → (∀ a, keeps (k a)) → keeps (bindOr m h k).
Proof.
  intros Hm Hh Hk w. unfold bindOr. specialize (Hm w).
  destruct (m w) as [[a|p e|s] w1]; cbn [snd] in *; [rewrite Hk|rewrite Hh|]; done.
Qed.

Lemma keeps_bind (m : M A) (k : A → M B) :
  keeps m → (∀ a, keeps (k a)) → keeps (bind m k).
Proof.
  intros Hm Hk w. unfold bind. specialize (Hm w).
  destruct (m w) as [[a|p e|s] w1]; cbn [snd] in *; [rewrite Hk|..]; done.
Qed.

Lemma keeps_try (m : M A) (h : Error → M A) :
  keeps m → (∀ e, keeps (h e)) → keeps (try m h).
Proof.
  intros Hm Hh w. unfold try. specialize (Hm w).
  destruct (m w) as [[a|p e|s] w1]; cbn [snd] in *; [|rewrite Hh|]; done.
Qed.

Lemma keeps_attempt (m : M A) : keeps m → keeps (attempt m).
Proof. intros Hm w. unfold attempt. specialize (Hm w). by destruct (m w) as [[a|p e|s] w1]. Qed.

Lemma keeps_ignore (m : M A) : keeps m → keeps (ignore m).
Proof. intros Hm w. unfold ignore. specialize (Hm w). by destruct (m w) as [[a|p e|s] w1]. Qed.

Lemma keeps_quiet (m : M A) : quiet m → keeps m.
Proof. intros Hq w. destruct (Hq w) as (f & t & -> & _). done. Qed.

Lemma keeps_plain (m : M A) : plain m → keeps m.
Proof. intros Hp w. by destruct (Hp w) as (_ & ? & _). Qed.

Lemma keeps_mapSet {V} (m : GoMap V) k v : keeps (mapSet m k v).
Proof. by destruct m. Qed.

(** What cannot succeed. *)
Lemma barred_fail mu (e : Error) : barred mu (fail (A := A) e).
Proof. by intros w. Qed.

Lemma barred_failWith mu (a : A) (e : Error) : barred mu (failWith a e).
Proof. by intros w. Qed.

Lemma barred_halt mu (s : Stuck) : barred mu (halt (A := A) s).
Proof. by intros w. Qed.

Lemma barred_withLock mu (body : M A) : barred mu (withLock mu body).
Proof. intros w Hw. unfold withLock. by rewrite bool_decide_eq_true_2. Qed.

Lemma barred_first mu (m : M A) (k : A → M B) : barred mu m → barred mu (bind m k).
Proof.
  intros Hm w Hw. unfold bind. specialize (Hm w Hw). by destruct (m w) as [[a|p e|s] w1].
Qed.

Lemma barred_bind mu (m : M A) (k : A → M B) :
  keeps m → (∀ a, barred mu (k a)) → barred mu (bind m k).
Proof.
  intros Hm Hk w Hw. unfold bind. specialize (Hm w).
  destruct (m w) as [[a|p e|s] w1]; cbn [snd] in *; [|done..].
  apply Hk. by rewrite Hm.
Qed.

Lemma barred_bindOr mu (m : M A) (h : Error → M B) (k : A → M B) :
  keeps m → (∀ e, barred mu (h e)) → (∀ a, barred mu (k a)) → barred mu (bindOr m h k).
Proof.
  intros Hm Hh Hk w Hw. unfold bindOr. specialize (Hm w).
  destruct (m w) as [[a|p e|s] w1]; cbn [snd] in *; [apply Hk|apply Hh|done]; by rewrite Hm.
Qed.

End keeping.

Lemma keeps_get : keeps get.
Proof. by intros w. Qed.

Lemma keeps_emit e : keeps (emit e).
Proof. by intros w. Qed.

Lemma keeps_logf f a : keeps (logf f a).
Proof. by intros w. Qed.

Lemma keeps_oscall op : keeps (oscall op).
Proof. intros w. unfold oscall. by destruct (hd false (faults w)). Qed.

Lemma keeps_setDisk f : keeps (modify (setDisk f)).
Proof. by intros w. Qed.

Lemma keeps_setStateFiles f : keeps (modify (setStateFiles f)).
Proof. by intros w. Qed.

Ltac keeps :=
  repeat first
    [ apply keeps_ret | apply keeps_fail | apply keeps_failWith | apply keeps_logf
    | apply keeps_get | apply keeps_emit | apply keeps_oscall
    | apply keeps_setDisk | apply keeps_setStateFiles | apply keeps_mapSet
    | apply keeps_quiet; first [apply quiet_loadState | apply quiet_fetchForInstall
                               | apply quiet_os_Stat | apply quiet_os_ReadFile]
    | apply keeps_bind | apply keeps_bindOr | apply keeps_try | apply keeps_attempt
    | apply keeps_ignore
    | progress cbv beta zeta | case_match
    | match goal with |- ∀ _, _ => intros ? end ].

Ltac barred :=
  repeat first
    [ apply barred_fail | apply barred_failWith | apply barred_halt
    | apply barred_first; apply barred_withLock
    | apply barred_bind; [keeps|]
    | apply barred_bindOr; [keeps| |]
    | progress cbv beta zeta | case_match
    | match goal with |- ∀ _, _ => intros ? end ].

Section command_calls.
Context `{Externals}.

Lemma keeps_saveState {T} `{ToJSON T} (x : T) path : keeps (configuration.saveState x path).
Proof. unfold configuration.saveState, cfg_MkdirAll, cfg_WriteFile. keeps. Qed.

Lemma keeps_os_WriteFile p d : keeps (os_WriteFile p d).
Proof. unfold os_WriteFile. keeps. Qed.

Lemma keeps_os_Remove p : keeps (os_Remove p).
Proof. unfold os_Remove. keeps. Qed.

Lemma keeps_commands_checkTarget cm p e : keeps (commands.checkTarget cm p e).
Proof. unfold commands.checkTarget. keeps. Qed.

Lemma keeps_determineAction meta force name st :
  keeps (commands.determineAction meta force name st).
Proof. unfold commands.determineAction. keeps. Qed.

Lemma barred_locked {A} withLocked (body : M A) w :
  barred CommandManager_mu body →
  withLocked = withLock CommandManager_mu body →
  succeeded (withLocked w).1 = false.
Proof.
  intros Hb ->. unfold withLock. case_match; [done|].
  specialize (Hb (setHeld (CommandManager_mu :: held w) w)).
  destruct (body _) as [[a|p e|s] w1]; cbn [fst] in *; [|done..].
  apply Hb. apply list_elem_of_here.
Qed.

(** X16.  [InstallCommand] never returns a command.  It keeps the
    manager's mutex from its first line to its last, and once the script
    and the state are written it calls [discoverCommands], which asks for
    the same mutex: a call that gets that far does not return. *)
Theorem InstallCommand_never_succeeds cm source force w :
  succeeded (commands.InstallCommand cm source force w).1 = false.
Proof.
  eapply barred_locked; [|reflexivity].
  unfold configuration.LoadCommandsState, configuration.SaveCommandsState.
  barred; first [apply keeps_saveState | apply keeps_os_WriteFile
                | apply keeps_commands_checkTarget | apply keeps_determineAction].
Qed.

End command_calls.

(** A call that gets through: the script is on disk, the state is written,
    and the call is waiting for the mutex it holds. *)
Lemma InstallCommand_blocks :
  (commands.InstallCommand cm backupLink false (serving backupLink "backup 1.0.0")).1
  = Halt (Deadlock CommandManager_mu)
  ∧ disk (commands.InstallCommand cm backupLink false
            (serving backupLink "backup 1.0.0")).2 !! backupPath
    = Some (File (Bytes "backup 1.0.0"))
  ∧ (configuration.LoadCommandsState []
       (commands.InstallCommand cm backupLink false (serving backupLink "backup 1.0.0")).2).1
    = Ok (Some {[ "backup.sh" := backupEntry backupLink ]})
  ∧ held (commands.InstallCommand cm backupLink false
            (serving backupLink "backup 1.0.0")).2 = [CommandManager_mu].
Proof. vm_compute. repeat split; reflexivity. Qed.

(** X17.  [RemoveCommand] never returns nil.  It too keeps the manager's
    mutex throughout and ends with a call of [discoverCommands]: a removal
    that got past every check does not return. *)
Theorem RemoveCommand_never_succeeds `{Externals} cm commandName w :
  succeeded (commands.RemoveCommand cm commandName w).1 = false.
Proof.
  eapply barred_locked; [|reflexivity].
  unfold configuration.LoadCommandsState, configuration.SaveCommandsState.
  barred; first [apply keeps_saveState | apply keeps_os_Remove
                | apply keeps_commands_checkTarget
                | unfold commands.discoverCommands; apply barred_withLock].
Qed.

Section command_update.
Context `{Externals}.



End command_update.


(** With another version at the source the script is overwritten and the
    call does not return. *)
Lemma UpdateCommand_blocks :
  (commands.UpdateCommand cm "backup" commandStale).1 = Halt (Deadlock CommandManager_mu)
  ∧ existsb isMutation
      (since commandStale (commands.UpdateCommand cm "backup" commandStale).2) = true.
Proof. vm_compute. split; reflexivity. Qed.

(** ** What the command manager knows *)

Section discovery.
Context `{Externals}.

Lemma release_free (mu : Mutex) (l : list Mutex) : mu ∉ l → filter (λ m, m ≠ mu) l = l.
Proof.
  induction l as [|x l IH]; intros Hn; [done|].
  apply not_elem_of_cons in Hn as [Hx Hl].
  rewrite filter_cons_True by done. by rewrite IH.
Qed.

Lemma discovered_empty cm d : discovered cm d ∅.
Proof. intros name meta Hm. by rewrite lookup_empty in Hm. Qed.

Ltac skipped :=
  eexists; split; [reflexivity|];
  cbn [disk stateFiles net faults entropy now commandsCache held trace];
  split; [done|]; split; [done|]; split; [done|];
  split; [eexists; split; [by rewrite <- ?app_assoc|done]|].

Lemma discoverEntry_step cm filename entry w :
  ∃ w', commands.discoverEntry cm filename entry w = (Ok tt, w')
        ∧ disk w' = disk w ∧ stateFiles w' = stateFiles w ∧ held w' = held w
        ∧ (∃ t, trace w' = trace w ++ t ∧ forallb isRead t = true)
        ∧ (discovered cm (disk w) (commandsCache w) →
           discovered cm (disk w) (commandsCache w')).
Proof.
  destruct w as [d sf n f e nw c h tr].
  unfold commands.discoverEntry, os_Stat, os_ReadFile, oscall, bindOr, bind, get, logf, emit,
    modify, fail, ret, record, setFaults, setCommandsCache.
  cbn [disk stateFiles net faults entropy now commandsCache held trace].
  destruct (hd false f); cbn [disk stateFiles net faults entropy now commandsCache held trace];
    [by skipped|].
  destruct (d !! filepath_Join (commands.commandDir cm) filename) as [node|] eqn:Hnode;
    cbn [disk stateFiles net faults entropy now commandsCache held trace]; [|by skipped].
  destruct (hd false (tail f));
    cbn [disk stateFiles net faults entropy now commandsCache held trace]; [by skipped|].
  rewrite Hnode. destruct node as [|data]; [by skipped|].
  destruct (parseCommandMetadata (filepath_Join (commands.commandDir cm) filename) data)
    as [parseErr|parsed] eqn:Hparse; [by skipped|].
  destruct (CommandMetadata.IsValid _) eqn:Hvalid; cbn [negb]; [|by skipped].
  cbn [disk stateFiles net faults entropy now commandsCache held trace].
  change (CommandMetadata.Command
            (CommandMetadata.withFilePath (filepath_Join (commands.commandDir cm) filename)
               parsed)) with (CommandMetadata.Command parsed).
  destruct (c !! CommandMetadata.Command parsed) as [existingMeta|] eqn:Hknown; [by skipped|].
  skipped.
  intros Hc name meta. destruct (decide (CommandMetadata.Command parsed = name)) as [<-|Hne].
  - rewrite lookup_insert_eq. intros [= <-]. split; [done|]. split; [done|].
    exists filename, data, parsed. by destruct parsed.
  - rewrite lookup_insert_ne by done. apply Hc.
Qed.

Lemma discoverEntries_steps cm entries w :
  ∃ w', commands.discoverEntries cm entries w = (Ok tt, w')
        ∧ disk w' = disk w ∧ stateFiles w' = stateFiles w ∧ held w' = held w
        ∧ (∃ t, trace w' = trace w ++ t ∧ forallb isRead t = true)
        ∧ (discovered cm (disk w) (commandsCache w) →
           discovered cm (disk w) (commandsCache w')).
Proof.
  revert w. induction entries as [|[filename entry] rest IH]; intros w.
  - exists w. split; [done|]. do 3 (split; [done|]). split; [|done].
    exists []. by rewrite app_nil_r.
  - destruct (discoverEntry_step cm filename entry w)
      as (w1 & Hrun & Hd & Hs & Hh & (t1 & Ht1 & Hr1) & Hc).
    destruct (IH w1) as (w2 & Hrun2 & Hd2 & Hs2 & Hh2 & (t2 & Ht2 & Hr2) & Hc2).
    exists w2. cbn [commands.discoverEntries]. rewrite (bind_Ok _ _ _ _ _ Hrun).
    split; [done|]. rewrite Hd2, Hs2, Hh2. do 3 (split; [done|]). split.
    + exists (t1 ++ t2). rewrite Ht2, Ht1, <- app_assoc. split; [done|].
      by rewrite forallb_app, Hr1, Hr2.
    + intros Hw. rewrite Hd in Hc2. by apply Hc2, Hc.
Qed.

Lemma discoverCommands_run cm w :
  CommandManager_mu ∉ held w →
  ∃ w', commands.discoverCommands cm w = (Ok tt, w')
        ∧ discovered cm (disk w') (commandsCache w')
        ∧ disk w' = disk w ∧ stateFiles w' = stateFiles w ∧ held w' = held w
        ∧ forallb isRead (since w w') = true.
Proof.
  intros Hfree. unfold commands.discoverCommands, withLock.
  rewrite bool_decide_eq_false_2 by done.
  unfold bind at 1, modify at 1.
  set (w0 := setCommandsCache ∅ (setHeld (CommandManager_mu :: held w) w)).
  destruct (quiet_loadState (T := InstalledCommandEntry.t)
              (configuration.pathOr configuration.defaultCommandsStatePath []) w0)
    as (f1 & t1 & Hw1 & Hr1).
  unfold configuration.LoadCommandsState. unfold bind at 1, try at 1.
  destruct (configuration.loadState _ w0) as [[st|p e|s] w1] eqn:Hload; cbn [snd] in Hw1; subst w1.
  - rewrite bind_logf.
    destruct (discoverEntries_steps cm (rangeMap st)
                (record (Logf "Discovering commands based on state file..." []) (after f1 t1 w0)))
      as (w2 & Hrun & Hd & Hs & Hh & (t2 & Ht2 & Hr2) & Hc).
    rewrite (bind_Ok _ _ _ _ _ Hrun). unfold logf, emit, modify.
    eexists. split; [reflexivity|]. subst w0.
    cbn [disk stateFiles commandsCache held trace setHeld record after setCommandsCache]
      in Hd, Hs, Hh, Ht2, Hc |- *.
    rewrite Hd, Hs, Hh. rewrite filter_cons_False by (intros Hn; by apply Hn).
    split; [apply Hc, discovered_empty|]. do 2 (split; [done|]).
    split; [by apply release_free|].
    erewrite since_app; [|cbn [trace setHeld record]; rewrite Ht2; by rewrite <- !app_assoc].
    by rewrite !forallb_app, Hr1, Hr2.
  - rewrite !bind_logf. unfold ret. rewrite bind_logf.
    match goal with |- context [bind (commands.discoverEntries cm ?l) _ ?W] =>
      destruct (discoverEntries_steps cm l W)
        as (w2 & Hrun & Hd & Hs & Hh & (t2 & Ht2 & Hr2) & Hc)
    end.
    rewrite (bind_Ok _ _ _ _ _ Hrun). unfold logf, emit, modify.
    eexists. split; [reflexivity|]. subst w0.
    cbn [disk stateFiles commandsCache held trace setHeld record after setCommandsCache]
      in Hd, Hs, Hh, Ht2, Hc |- *.
    rewrite Hd, Hs, Hh. rewrite filter_cons_False by (intros Hn; by apply Hn).
    split; [apply Hc, discovered_empty|]. do 2 (split; [done|]).
    split; [by apply release_free|].
    erewrite since_app; [|cbn [trace setHeld record]; rewrite Ht2; by rewrite <- !app_assoc].
    by rewrite !forallb_app, Hr1, Hr2.
  - exfalso. revert Hload. unfold configuration.loadState, cfg_ReadFile.
    autorewrite with run. repeat case_match; autorewrite with run; repeat case_match; done.
Qed.

(** X19.  [discoverCommands] cannot fail, and the map it leaves holds only
    commands that are valid, each under its own name, with its script on
    disk inside the command directory and its metadata as that script's
    header gives it.  The call changes neither the disk nor the state
    document. *)
Theorem discoverCommands_cache cm w :
  CommandManager_mu ∉ held w →
  ∃ w', commands.discoverCommands cm w = (Ok tt, w')
        ∧ discovered cm (disk w') (commandsCache w')
        ∧ disk w' = disk w ∧ stateFiles w' = stateFiles w ∧ held w' = held w
        ∧ forallb isRead (since w w') = true.
Proof. apply discoverCommands_run. Qed.

End discovery.

Lemma discoverCommands_cache_witness :
  ∃ w', commands.discoverCommands cm commandInstalled = (Ok tt, w')
        ∧ discovered cm (disk w') (commandsCache w')
        ∧ disk w' = disk commandInstalled ∧ stateFiles w' = stateFiles commandInstalled
        ∧ held w' = held commandInstalled
        ∧ forallb isRead (since commandInstalled w') = true.
Proof. apply (discoverCommands_cache cm commandInstalled). decided. Defined.

(** On the sample the discovery finds the one command. *)
Lemma discoverCommands_finds :
  commandsCache (commands.discoverCommands cm commandInstalled).2
  = {[ "backup" := CommandMetadata.withFilePath backupPath (backup "1.0.0" backupLink) ]}.
Proof. evaluated. Qed.

(** ** Reading and removing what is installed *)

Lemma after_record f t e w : record e (after f t w) = after f (t ++ [e]) w.
Proof. unfold after, record. cbn. by rewrite app_assoc. Qed.

Lemma record_after e w : record e w = after (faults w) [e] w.
Proof. by destruct w. Qed.

Lemma released mu f t w :
  mu ∉ held w →
  setHeld (filter (λ m, m ≠ mu) (held (after f t (setHeld (mu :: held w) w))))
    (after f t (setHeld (mu :: held w) w))
  = after f t w.
Proof.
  intros Hfree. unfold after, setHeld.
  cbn [disk stateFiles net faults entropy now commandsCache held trace].
  rewrite filter_cons_False by (intros Hn; by apply Hn). by rewrite release_free.
Qed.

Lemma locked_core mu w : core (setHeld (mu :: held w) w) = core w.
Proof. reflexivity. Qed.

Section reading.
Context `{Externals}.

Lemma loadState_returns {T} `{FromJSON T} path w s w' :
  configuration.loadState (T := T) path w ≠ (Halt s, w').
Proof.
  unfold configuration.loadState, cfg_ReadFile.
  autorewrite with run. repeat case_match; autorewrite with run; repeat case_match; done.
Qed.

Lemma loadLocalThemeJSON_returns tm themePath w s w' :
  themes._loadLocalThemeJSON tm themePath w ≠ (Halt s, w').
Proof.
  unfold themes._loadLocalThemeJSON, os_Stat, os_ReadFile, oscall, attempt, bindOr, bind, get,
    fail, ret.
  repeat case_match; simplify_eq; done.
Qed.

(** The state document as the call sees it, the mutex taken. *)
Lemma loadState_locked {T} `{FromJSON T} mu path w r w1 :
  configuration.loadState (T := T) path w = (r, w1) →
  ∃ t, configuration.loadState (T := T) path (setHeld (mu :: held w) w)
       = (r, after (faults w1) t (setHeld (mu :: held w) w))
       ∧ forallb isRead t = true.
Proof.
  intros Hl.
  destruct (run_at_read _ _ _ _ (setHeld (mu :: held w) w) (blind_loadState path)
              (quiet_loadState path) Hl (locked_core mu w)) as (t & Hrun & _ & Hr).
  by exists t.
Qed.

(** X20.  [GetThemeDetails] only reads.  When it returns without an error
    both results are there, and the entry is the one the state document
    holds under the ID.  An error comes with no metadata, and with the entry
    exactly when the state document was loaded and holds the ID; when it
    was loaded and does not hold the ID the error says so, and when it was
    not loaded the error is that of the load. *)
Theorem GetThemeDetails_result tm themeID w :
  ThemeManager_mu ∉ held w →
  (∃ f t, (themes.GetThemeDetails tm themeID w).2 = after f t w ∧ forallb isRead t = true)
  ∧ match (themes.GetThemeDetails tm themeID w).1, (configuration.LoadThemesState [] w).1 with
    | Ok (localMeta, globalEntry), Ok st =>
      is_Some localMeta ∧ is_Some globalEntry ∧ globalEntry = mapGet st themeID
    | Err (Some (localMeta, globalEntry)) _, Ok st =>
      localMeta = None ∧ is_Some globalEntry ∧ globalEntry = mapGet st themeID
    | Err None e, Ok st =>
      mapGet st themeID = None
      ∧ e = Errorf "theme with ID '%s' not found in global state" [themeID]
    | Err None e, Err _ loadErr =>
      e = Wrapf "failed to load global themes state for theme ID '%s': %w" [themeID] loadErr
    | _, _ => False
    end.
Proof.
  intros Hfree.
  destruct (themes.GetThemeDetails tm themeID w) as [r w'] eqn:Hcall. revert Hcall.
  unfold themes.GetThemeDetails, withLock.
  rewrite bool_decide_eq_false_2 by done.
  unfold configuration.LoadThemesState.
  destruct (configuration.loadState _ w) as [r1 w1] eqn:Hl.
  destruct (loadState_locked ThemeManager_mu _ _ _ _ Hl) as (t1 & Hrun & Hr1).
  unfold bindOr at 1. rewrite Hrun. cbn [fst snd].
  destruct r1 as [st|p e|s].
  - destruct (mapGet st themeID) as [globalEntry|] eqn:Hget.
    + match goal with |- context [bindOr (themes._loadLocalThemeJSON ?a ?b) _ _ ?W] =>
        destruct (quiet_loadLocalThemeJSON a b W) as (f2 & t2 & HW2 & Hr2);
        unfold bindOr at 1;
        destruct (themes._loadLocalThemeJSON a b W) as [[localMeta|q e|s] W2] eqn:Hlocal;
        cbn [snd] in HW2; subst W2
      end.
      * unfold ret. rewrite after_after, released by done. intros [= <- <-].
        split; [|split_and!; by eauto].
        exists f2, (t1 ++ t2). split; [done|]. by rewrite forallb_app, Hr1, Hr2.
      * unfold failWith. rewrite after_after, released by done. intros [= <- <-].
        split; [|split_and!; by eauto].
        exists f2, (t1 ++ t2). split; [done|]. by rewrite forallb_app, Hr1, Hr2.
      * by apply loadLocalThemeJSON_returns in Hlocal.
    + unfold fail. rewrite released by done. intros [= <- <-]. split; [by eauto|done].
  - unfold fail. rewrite released by done. intros [= <- <-]. split; [by eauto|done].
  - by apply loadState_returns in Hl.
Qed.

End reading.

Lemma GetThemeDetails_result_witness :
  (∃ f t, (themes.GetThemeDetails tm "thm_k3x9" themeInstalled).2 = after f t themeInstalled
          ∧ forallb isRead t = true)
  ∧ match (themes.GetThemeDetails tm "thm_k3x9" themeInstalled).1,
          (configuration.LoadThemesState [] themeInstalled).1 with
    | Ok (localMeta, globalEntry), Ok st =>
      is_Some localMeta ∧ is_Some globalEntry ∧ globalEntry = mapGet st "thm_k3x9"
    | Err (Some (localMeta, globalEntry)) _, Ok st =>
      localMeta = None ∧ is_Some globalEntry ∧ globalEntry = mapGet st "thm_k3x9"
    | Err None e, Ok st =>
      mapGet st "thm_k3x9" = None
      ∧ e = Errorf "theme with ID '%s' not found in global state" ["thm_k3x9"]
    | Err None e, Err _ loadErr =>
      e = Wrapf "failed to load global themes state for theme ID '%s': %w" ["thm_k3x9"] loadErr
    | _, _ => False
    end.
Proof. apply (GetThemeDetails_result tm "thm_k3x9" themeInstalled). decided. Defined.

(** On the sample both results are there. *)
Lemma GetThemeDetails_found :
  (themes.GetThemeDetails tm "thm_k3x9" themeInstalled).1
  = Ok (Some (aurora "1.0.0" helloSum), Some auroraEntry).
Proof. evaluated. Qed.

Section removing.
Context `{Externals}.

(** X21.  Removing what is not installed changes nothing: a theme or a
    plugin whose ID the state document does not hold, or a command the
    manager does not know, gives the error that says so, and the call has
    only read. *)
Theorem remove_unknown :
  (∀ tm themeID w st,
     ThemeManager_mu ∉ held w →
     (configuration.LoadThemesState [] w).1 = Ok st → mapGet st themeID = None →
     (themes.Remove tm themeID w).1
     = Err None (Errorf "theme with ID '%s' not found in state, cannot remove" [themeID])
     ∧ ∃ f t, (themes.Remove tm themeID w).2 = after f t w ∧ forallb isRead t = true)
  ∧ (∀ pm pluginID w st,
       PluginManager_mu ∉ held w →
       (configuration.LoadPluginsState [] w).1 = Ok st → mapGet st pluginID = None →
       (plugins.RemovePlugin pm pluginID w).1
       = Err None (Errorf "plugin with ID '%s' not found in installed state" [pluginID])
       ∧ ∃ f t, (plugins.RemovePlugin pm pluginID w).2 = after f t w
                ∧ forallb isRead t = true)
  ∧ (∀ cm commandName w,
       CommandManager_mu ∉ held w →
       commandsCache w !! commandName = None →
       (commands.RemoveCommand cm commandName w).1
       = Err None (Errorf "command '%s' not found or not currently managed" [commandName])
       ∧ ∃ t, (commands.RemoveCommand cm commandName w).2 = after (faults w) t w
              ∧ forallb isRead t = true).
Proof.
  split; [|split].
  - intros tm themeID w st Hfree Hst Hget.
    destruct (themes.Remove tm themeID w) as [r w'] eqn:Hcall. revert Hcall.
    unfold themes.Remove, withLock. rewrite bool_decide_eq_false_2 by done.
    rewrite bind_logf. unfold themes._removeEntryFromGlobalState.
    unfold configuration.LoadThemesState in *.
    destruct (configuration.loadState _ w) as [r1 w1] eqn:Hl. cbn [fst] in Hst. subst r1.
    match goal with |- context [bind (bindOr _ _ _) _ ?W] =>
      destruct (run_at_read _ _ _ _ W (blind_loadState _) (quiet_loadState _) Hl eq_refl)
        as (t1 & Hrun & _ & Hr1)
    end.
    unfold bind at 1, bindOr at 1. rewrite Hrun, Hget, bind_logf. unfold fail.
    rewrite !record_after, !after_after, released by done.
    intros [= <- <-]. split; [done|]. eexists _, _. split; [done|].
    cbn [forallb app]. by rewrite forallb_app, Hr1.
  - intros pm pluginID w st Hfree Hst Hget.
    destruct (plugins.RemovePlugin pm pluginID w) as [r w'] eqn:Hcall. revert Hcall.
    unfold plugins.RemovePlugin, withLock. rewrite bool_decide_eq_false_2 by done.
    rewrite bind_logf. unfold configuration.LoadPluginsState in *.
    destruct (configuration.loadState _ w) as [r1 w1] eqn:Hl. cbn [fst] in Hst. subst r1.
    match goal with |- context [bindOr _ _ _ ?W] =>
      destruct (run_at_read _ _ _ _ W (blind_loadState _) (quiet_loadState _) Hl eq_refl)
        as (t1 & Hrun & _ & Hr1)
    end.
    unfold bindOr at 1. rewrite Hrun, Hget, bind_logf. unfold fail.
    rewrite !record_after, !after_after, released by done.
    intros [= <- <-]. split; [done|]. eexists _, _. split; [done|].
    cbn [forallb app]. by rewrite forallb_app, Hr1.
  - intros cm commandName w Hfree Hget.
    destruct (commands.RemoveCommand cm commandName w) as [r w'] eqn:Hcall. revert Hcall.
    unfold commands.RemoveCommand, withLock. rewrite bool_decide_eq_false_2 by done.
    rewrite bind_logf, bind_get. cbn [commandsCache record setHeld]. rewrite Hget, bind_logf.
    unfold fail. intros [= <- <-]. split; [done|].
    exists [Logf "Attempting to remove command '%s'." [commandName];
            Logf "Command '%s' not found. No action taken." [commandName]].
    split; [|done]. destruct w as [d sf n f e nw c h tr]. unfold after, setHeld, record.
    cbn [disk stateFiles net faults entropy now commandsCache held trace snd] in *.
    rewrite filter_cons_False by (intros Hn; by apply Hn). rewrite release_free by done.
    by rewrite <- app_assoc.
Qed.

End removing.

Lemma remove_unknown_witness :
  ((themes.Remove tm "thm_none" themeInstalled).1
   = Err None (Errorf "theme with ID '%s' not found in state, cannot remove" ["thm_none"])
   ∧ ∃ f t, (themes.Remove tm "thm_none" themeInstalled).2 = after f t themeInstalled
            ∧ forallb isRead t = true)
  ∧ ((plugins.RemovePlugin pm "plg_none" pluginInstalled).1
     = Err None (Errorf "plugin with ID '%s' not found in installed state" ["plg_none"])
     ∧ ∃ f t, (plugins.RemovePlugin pm "plg_none" pluginInstalled).2
              = after f t pluginInstalled
              ∧ forallb isRead t = true)
  ∧ ((commands.RemoveCommand cm "restore" commandInstalled).1
     = Err None (Errorf "command '%s' not found or not currently managed" ["restore"])
     ∧ ∃ t, (commands.RemoveCommand cm "restore" commandInstalled).2
            = after (faults commandInstalled) t commandInstalled
            ∧ forallb isRead t = true).
Proof.
  split; [|split].
  - apply (proj1 remove_unknown tm "thm_none" themeInstalled
             (Some {[ "thm_k3x9" := auroraEntry ]})); [decided|evaluated|evaluated].
  - apply (proj1 (proj2 remove_unknown) pm "plg_none" pluginInstalled
             (Some {[ "plg_k3x9" := metricsEntry ]})); [decided|evaluated|evaluated].
  - apply (proj2 (proj2 remove_unknown) cm "restore" commandInstalled); [decided|evaluated].
Defined.

Section removed.
Context `{Externals}.

(** X22.  A removal of a theme that returns nil has written the state
    document as it was loaded less the theme's entry, and has deleted the
    theme's directory, everything below it and nothing else; that
    directory lies inside the theme directory. *)
Theorem themes_Remove_done tm themeID w :
  ThemeManager_mu ∉ held w →
  (themes.Remove tm themeID w).1 = Ok tt →
  ∃ st entry absThemeDir absTargetThemePath,
    (configuration.LoadThemesState [] w).1 = Ok st
    ∧ mapGet st themeID = Some entry
    ∧ stateFiles (themes.Remove tm themeID w).2
      = <[configuration.defaultThemesStatePath :=
            JsonText "" "  "
              (toJSON ({[ "themes" := mapDelete st themeID ]}
                       : gmap string (GoMap InstalledThemeEntry.t)))]> (stateFiles w)
    ∧ disk (themes.Remove tm themeID w).2
      = filter (λ kv, under (filepath_Join (themes.themeDir tm) themeID) kv.1 = false) (disk w)
    ∧ filepath_Abs (themes.themeDir tm) = Some absThemeDir
    ∧ filepath_Abs (filepath_Join (themes.themeDir tm) themeID) = Some absTargetThemePath
    ∧ inside absThemeDir absTargetThemePath = true
    ∧ held (themes.Remove tm themeID w).2 = held w.
Proof.
  intros Hfree.
  destruct (themes.Remove tm themeID w) as [r w'] eqn:Hcall. cbn [fst snd]. intros ->.
  revert Hcall.
  unfold themes.Remove, withLock. rewrite bool_decide_eq_false_2 by done.
  rewrite bind_logf. unfold themes._removeEntryFromGlobalState.
  unfold configuration.LoadThemesState in *.
  destruct (configuration.loadState _ w) as [r1 w1] eqn:Hl.
  match goal with |- context [bind (bindOr _ _ _) _ ?W] =>
    destruct (run_at_read _ _ _ _ W (blind_loadState _) (quiet_loadState _) Hl eq_refl)
      as (t1 & Hrun & _ & Hr1)
  end.
  unfold bind at 1, bindOr at 1. rewrite Hrun.
  destruct r1 as [st|p e|s]; [|done..].
  destruct (mapGet st themeID) as [entry|] eqn:Hget; [|by rewrite bind_logf].
  unfold configuration.SaveThemesState, configuration.saveState, themes._deleteThemeDirectory,
    themes.discoverThemesLocked.
  run. repeat split_head; try (by intros [=]).
  all: intros [= <-]; exists st, entry, s, s0.
  all: do 6 (split; [done|]); split; [by apply negb_false_iff|].
  all: change (filter (λ m, m ≠ ThemeManager_mu) (ThemeManager_mu :: held w) = held w).
  all: rewrite filter_cons_False by (intros Hn; by apply Hn); by apply release_free.
Qed.

(** X23.  A removal of a plugin that returns nil has deleted the plugin's
    directory, everything below it and nothing else, and has written the
    state document as it was loaded less the plugin's entry; the directory
    lies inside the plugin directory. *)
Theorem RemovePlugin_done pm pluginID w :
  PluginManager_mu ∉ held w →
  (plugins.RemovePlugin pm pluginID w).1 = Ok tt →
  ∃ st entry absPluginDir absTargetPluginPath,
    (configuration.LoadPluginsState [] w).1 = Ok st
    ∧ mapGet st pluginID = Some entry
    ∧ stateFiles (plugins.RemovePlugin pm pluginID w).2
      = <[configuration.defaultPluginsStatePath :=
            JsonText "" "  "
              (toJSON ({[ "plugins" := mapDelete st pluginID ]}
                       : gmap string (GoMap InstalledPluginEntry.t)))]> (stateFiles w)
    ∧ disk (plugins.RemovePlugin pm pluginID w).2
      = filter (λ kv, under (filepath_Join (plugins.pluginDir pm) pluginID) kv.1 = false)
          (disk w)
    ∧ filepath_Abs (plugins.pluginDir pm) = Some absPluginDir
    ∧ filepath_Abs (filepath_Join (plugins.pluginDir pm) pluginID) = Some absTargetPluginPath
    ∧ inside absPluginDir absTargetPluginPath = true
    ∧ held (plugins.RemovePlugin pm pluginID w).2 = held w.
Proof.
  intros Hfree.
  destruct (plugins.RemovePlugin pm pluginID w) as [r w'] eqn:Hcall. cbn [fst snd]. intros ->.
  revert Hcall.
  unfold plugins.RemovePlugin, withLock. rewrite bool_decide_eq_false_2 by done.
  rewrite bind_logf. unfold configuration.LoadPluginsState in *.
  destruct (configuration.loadState _ w) as [r1 w1] eqn:Hl.
  match goal with |- context [bindOr _ _ _ ?W] =>
    destruct (run_at_read _ _ _ _ W (blind_loadState _) (quiet_loadState _) Hl eq_refl)
      as (t1 & Hrun & _ & Hr1)
  end.
  unfold bindOr at 1. rewrite Hrun.
  destruct r1 as [st|p e|s]; [|by rewrite ?bind_logf..].
  destruct (mapGet st pluginID) as [entry|] eqn:Hget; [|by rewrite bind_logf].
  unfold configuration.SavePluginsState, configuration.saveState, plugins.checkTarget.
  run. repeat split_head; try (by intros [=]).
  all: intros [= <-]; exists st, entry, s, s0.
  all: do 6 (split; [done|]); split; [by apply negb_false_iff|].
  all: change (filter (λ m, m ≠ PluginManager_mu) (PluginManager_mu :: held w) = held w).
  all: rewrite filter_cons_False by (intros Hn; by apply Hn); by apply release_free.
Qed.

End removed.

Lemma themes_Remove_done_witness :
  ∃ st entry absThemeDir absTargetThemePath,
    (configuration.LoadThemesState [] themeInstalled).1 = Ok st
    ∧ mapGet st "thm_k3x9" = Some entry
    ∧ stateFiles (themes.Remove tm "thm_k3x9" themeInstalled).2
      = <[configuration.defaultThemesStatePath :=
            JsonText "" "  "
              (toJSON ({[ "themes" := mapDelete st "thm_k3x9" ]}
                       : gmap string (GoMap InstalledThemeEntry.t)))]>
          (stateFiles themeInstalled)
    ∧ disk (themes.Remove tm "thm_k3x9" themeInstalled).2
      = filter (λ kv, under (filepath_Join (themes.themeDir tm) "thm_k3x9") kv.1 = false)
          (disk themeInstalled)
    ∧ filepath_Abs (themes.themeDir tm) = Some absThemeDir
    ∧ filepath_Abs (filepath_Join (themes.themeDir tm) "thm_k3x9") = Some absTargetThemePath
    ∧ inside absThemeDir absTargetThemePath = true
    ∧ held (themes.Remove tm "thm_k3x9" themeInstalled).2 = held themeInstalled.
Proof. apply (themes_Remove_done tm "thm_k3x9" themeInstalled); [decided|evaluated]. Defined.

Lemma RemovePlugin_done_witness :
  ∃ st entry absPluginDir absTargetPluginPath,
    (configuration.LoadPluginsState [] pluginInstalled).1 = Ok st
    ∧ mapGet st "plg_k3x9" = Some entry
    ∧ stateFiles (plugins.RemovePlugin pm "plg_k3x9" pluginInstalled).2
      = <[configuration.defaultPluginsStatePath :=
            JsonText "" "  "
              (toJSON ({[ "plugins" := mapDelete st "plg_k3x9" ]}
                       : gmap string (GoMap InstalledPluginEntry.t)))]>
          (stateFiles pluginInstalled)
    ∧ disk (plugins.RemovePlugin pm "plg_k3x9" pluginInstalled).2
      = filter (λ kv, under (filepath_Join (plugins.pluginDir pm) "plg_k3x9") kv.1 = false)
          (disk pluginInstalled)
    ∧ filepath_Abs (plugins.pluginDir pm) = Some absPluginDir
    ∧ filepath_Abs (filepath_Join (plugins.pluginDir pm) "plg_k3x9")
      = Some absTargetPluginPath
    ∧ inside absPluginDir absTargetPluginPath = true
    ∧ held (plugins.RemovePlugin pm "plg_k3x9" pluginInstalled).2 = held pluginInstalled.
Proof. apply (RemovePlugin_done pm "plg_k3x9" pluginInstalled); [decided|evaluated]. Defined.

(** On the samples nothing of the theme or the plugin is left on disk. *)
Lemma removal_leaves_nothing :
  disk (themes.Remove tm "thm_k3x9" themeInstalled).2 = ∅
  ∧ disk (plugins.RemovePlugin pm "plg_k3x9" pluginInstalled).2 = ∅.
Proof. split; evaluated. Qed.

(** ** Listings *)

Section listing.
Context `{Externals}.

Lemma range_values_length {V} (g : gmap string V) : length (range g) = size g.
Proof. by rewrite (range_Permutation _ g), length_map_to_list. Qed.

Lemma NoDup_named (c : gmap string CommandMetadata.t) :
  (∀ name meta, c !! name = Some meta → CommandMetadata.Command meta = name) →
  NoDup (CommandMetadata.Command <$> (snd <$> range c)).
Proof.
  intros Hnamed. rewrite (range_Permutation _ c).
  assert (Heq : CommandMetadata.Command <$> (snd <$> map_to_list c) = fst <$> map_to_list c).
  { rewrite <- list_fmap_compose. apply list_fmap_ext. intros i [name meta] Hi. cbn.
    apply Hnamed. apply elem_of_map_to_list. by eapply list_elem_of_lookup_2. }
  rewrite Heq. apply NoDup_fst_map_to_list.
Qed.

(** X24.  After a discovery the listing holds every command the manager
    knows once: as many as [GetCommandCount] reports, no two under the same
    name, each of them valid and the one the manager has under its name. *)
Theorem listed_commands cm w :
  CommandManager_mu ∉ held w →
  ∃ w1 list,
    commands.discoverCommands cm w = (Ok tt, w1)
    ∧ (commands.ListInstalledCommands cm w1).1 = Ok list
    ∧ (commands.GetCommandCount cm w1).1 = Ok (Z.of_nat (length list))
    ∧ NoDup (CommandMetadata.Command <$> list)
    ∧ ∀ meta, meta ∈ list →
        CommandMetadata.IsValid meta = true
        ∧ commandsCache w1 !! CommandMetadata.Command meta = Some meta.
Proof.
  intros Hfree.
  destruct (discoverCommands_run cm w Hfree) as (w1 & Hrun & Hc & _ & _ & Hh & _).
  exists w1, (snd <$> range (commandsCache w1)). split; [done|].
  assert (Hfree1 : CommandManager_mu ∉ held w1) by by rewrite Hh.
  unfold commands.ListInstalledCommands, commands.GetCommandCount, withLock.
  rewrite !bool_decide_eq_false_2 by done.
  rewrite bind_logf, !bind_get. cbn [commandsCache record setHeld]. rewrite bind_logf.
  unfold ret. cbn [fst]. split; [done|]. split.
  { by rewrite length_fmap, range_values_length. }
  split.
  { apply NoDup_named. intros name meta Hm. by destruct (Hc name meta Hm). }
  intros meta [[name meta'] [-> Hin]]%list_elem_of_fmap. cbn.
  apply rangeMap_elem with (st := Some (commandsCache w1)) in Hin. cbn in Hin.
  destruct (Hc name meta' Hin) as (Hname & Hvalid & _). by rewrite Hname.
Qed.

(** X25.  [ListInstalledPlugins] returns every entry of the state document
    once, in the order in which the map is visited; when the document cannot
    be loaded it returns the error with a list that is empty, not nil.  It
    only reads. *)
Theorem ListInstalledPlugins_result pm w :
  (∃ f t, (plugins.ListInstalledPlugins pm w).2 = after f t w ∧ forallb isRead t = true)
  ∧ match (plugins.ListInstalledPlugins pm w).1, (configuration.LoadPluginsState [] w).1 with
    | Ok list, Ok st => list ≡ₚ (snd <$> map_to_list (default ∅ st))
    | Err (Some list) e, Err _ loadErr =>
      list = [] ∧ e = Wrapf "failed to load plugins state: %w" [] loadErr
    | _, _ => False
    end.
Proof.
  destruct (plugins.ListInstalledPlugins pm w) as [r w'] eqn:Hcall. revert Hcall.
  unfold plugins.ListInstalledPlugins. rewrite bind_logf.
  unfold configuration.LoadPluginsState.
  destruct (configuration.loadState _ w) as [r1 w1] eqn:Hl.
  match goal with |- context [bindOr _ _ _ ?W] =>
    destruct (run_at_read _ _ _ _ W (blind_loadState _) (quiet_loadState _) Hl eq_refl)
      as (t1 & Hrun & _ & Hr1)
  end.
  unfold bindOr at 1. rewrite Hrun. cbn [fst snd].
  destruct r1 as [st|p e|s].
  - rewrite bind_logf. unfold ret. rewrite !record_after, !after_after.
    intros [= <- <-]. split.
    + eexists _, _. split; [done|]. cbn [forallb app]. by rewrite forallb_app, Hr1.
    + destruct st as [g|]; cbn [rangeMap default].
      * by rewrite (range_Permutation _ g).
      * by rewrite map_to_list_empty.
  - rewrite bind_logf. unfold failWith. rewrite !record_after, !after_after.
    intros [= <- <-]. split; [|done].
    eexists _, _. split; [done|]. cbn [forallb app]. by rewrite forallb_app, Hr1.
  - by apply loadState_returns in Hl.
Qed.

End listing.

Lemma listed_commands_witness :
  ∃ w1 list,
    commands.discoverCommands cm commandInstalled = (Ok tt, w1)
    ∧ (commands.ListInstalledCommands cm w1).1 = Ok list
    ∧ (commands.GetCommandCount cm w1).1 = Ok (Z.of_nat (length list))
    ∧ NoDup (CommandMetadata.Command <$> list)
    ∧ ∀ meta, meta ∈ list →
        CommandMetadata.IsValid meta = true
        ∧ commandsCache w1 !! CommandMetadata.Command meta = Some meta.
Proof. apply (listed_commands cm commandInstalled). decided. Defined.

(** On the sample the listing is the one command. *)
Lemma listed_commands_sample :
  (commands.ListInstalledCommands cm commandInstalled).1
  = Ok [CommandMetadata.withFilePath backupPath (backup "1.0.0" backupLink)].
Proof. evaluated. Qed.
